(** * go-yamlvalidator: the schema validation engine, embedded and verified

    A shallow embedding of [validator.go] (diagnostic model, node type
    inference, structural validator, merge-key expansion, inter-field
    constraints, caret rendering) and of [pkg/valuevalidator/range.go],
    followed by the theorems that settle the specification's claims.

    Conventions of the embedding:
    - a Go [string] is a [string] of bytes; [len], indexing and slicing are
      byte-wise, as in Go;
    - a Go [int] is a [Z] (no claim reaches the 64-bit boundary);
    - a [float64] is a [spec_float] with 53 bits of precision and
      [emax = 1024];
    - [*yaml.Node] is a finite tree: an alias node carries its target
      ([None] when unresolved), the alias graph is taken to be acyclic;
    - a [*ValidationContext] that the code mutates is threaded through
      explicitly; a run-time panic is the outcome [Panic];
    - the packages of the Go standard library that the code calls are
      modelled in the modules [utf8], [gostrings], [strconv] and [fmt];
      what cannot be written down here (Unicode case tables, [%q] quoting,
      shortest float formatting, the iteration order of a Go map) is a field
      of the class [GoLib]. *)

From Stdlib Require Import ZArith String Ascii List Bool Lia.
From Stdlib Require Import Permutation Sorted DecimalString.
From Stdlib Require Import Floats.SpecFloat.
From stdpp Require Import gmap strings list fin_maps sorting.

Set Warnings "-register-all".
Open Scope Z_scope.

(* ===================================================================== *)
(** * Bytes and strings *)
(* ===================================================================== *)

Definition ord (c : ascii) : Z := Z.of_N (N_of_ascii c).
Definition chr (b : Z) : ascii := ascii_of_N (Z.to_N b).

Definition bytes_of (s : string) : list Z := map ord (list_ascii_of_string s).
Definition string_of_bytes (bs : list Z) : string :=
  string_of_list_ascii (map chr bs).

(** [len(s)] *)
Definition len (s : string) : Z := Z.of_nat (String.length s).

(** [s[n:]] for [0 <= n <= len(s)] *)
Fixpoint drop_str (n : nat) (s : string) : string :=
  match n, s with
  | O, _ => s
  | S n', String _ s' => drop_str n' s'
  | S _, EmptyString => EmptyString
  end.

(** [s[:n]] for [0 <= n <= len(s)] *)
Fixpoint take_str (n : nat) (s : string) : string :=
  match n, s with
  | O, _ => EmptyString
  | S n', String c s' => String c (take_str n' s')
  | S _, EmptyString => EmptyString
  end.

Definition str_eqb (a b : string) : bool := bool_decide (a = b).

(** [c | ('x' - 'X')], the [lower] helper of strconv *)
Definition lower_byte (c : Z) : Z := Z.lor c 32.

Definition is_digit (c : Z) : bool := (48 <=? c) && (c <=? 57).

(* ===================================================================== *)
(** * Package unicode/utf8 *)
(* ===================================================================== *)

Module utf8.

Definition RuneError : Z := 65533.
Definition RuneSelf : Z := 128.
Definition MaxRune : Z := 1114111.

(** The [first] table together with [acceptRanges]: for a leading byte the
    size of the sequence and the accepted range of the second byte; [None]
    for the bytes marked [xx] (invalid). ASCII is handled by the caller. *)
Definition first (s0 : Z) : option (nat * Z * Z) :=
  if (194 <=? s0) && (s0 <=? 223) then Some (2%nat, 128, 191)
  else if s0 =? 224 then Some (3%nat, 160, 191)
  else if (225 <=? s0) && (s0 <=? 236) then Some (3%nat, 128, 191)
  else if s0 =? 237 then Some (3%nat, 128, 159)
  else if (238 <=? s0) && (s0 <=? 239) then Some (3%nat, 128, 191)
  else if s0 =? 240 then Some (4%nat, 144, 191)
  else if (241 <=? s0) && (s0 <=? 243) then Some (4%nat, 128, 191)
  else if s0 =? 244 then Some (4%nat, 128, 143)
  else None.

Definition cont (b : Z) : bool := (128 <=? b) && (b <=? 191).

(** [utf8.DecodeRuneInString]: the rune and its width in bytes. *)
Definition DecodeRune (p : list Z) : Z * nat :=
  match p with
  | [] => (RuneError, 0%nat)
  | s0 :: rest =>
    if s0 <? RuneSelf then (s0, 1%nat)
    else
      match first s0 with
      | None => (RuneError, 1%nat)
      | Some (sz, lo, hi) =>
        if (length p <? sz)%nat then (RuneError, 1%nat)
        else
          match rest with
          | [] => (RuneError, 1%nat)
          | s1 :: rest1 =>
            if (s1 <? lo) || (hi <? s1) then (RuneError, 1%nat)
            else if (sz <=? 2)%nat then
              (Z.lor (Z.shiftl (Z.land s0 31) 6) (Z.land s1 63), 2%nat)
            else
              match rest1 with
              | [] => (RuneError, 1%nat)
              | s2 :: rest2 =>
                if negb (cont s2) then (RuneError, 1%nat)
                else if (sz <=? 3)%nat then
                  (Z.lor (Z.lor (Z.shiftl (Z.land s0 15) 12)
                                (Z.shiftl (Z.land s1 63) 6))
                         (Z.land s2 63), 3%nat)
                else
                  match rest2 with
                  | [] => (RuneError, 1%nat)
                  | s3 :: _ =>
                    if negb (cont s3) then (RuneError, 1%nat)
                    else
                      (Z.lor (Z.lor (Z.lor (Z.shiftl (Z.land s0 7) 18)
                                           (Z.shiftl (Z.land s1 63) 12))
                                    (Z.shiftl (Z.land s2 63) 6))
                             (Z.land s3 63), 4%nat)
                  end
              end
          end
      end
  end.

(** [utf8.AppendRune] on an empty buffer. *)
Definition EncodeRune (r : Z) : list Z :=
  if (0 <=? r) && (r <? RuneSelf) then [r]
  else if (0 <=? r) && (r <=? 2047) then
    [Z.lor 192 (Z.shiftr r 6); Z.lor 128 (Z.land r 63)]
  else
    let r3 :=
      if (r <? 0) || (MaxRune <? r) || ((55296 <=? r) && (r <=? 57343))
      then RuneError else r in
    if r3 <=? 65535 then
      [Z.lor 224 (Z.shiftr r3 12); Z.lor 128 (Z.land (Z.shiftr r3 6) 63);
       Z.lor 128 (Z.land r3 63)]
    else
      [Z.lor 240 (Z.shiftr r3 18); Z.lor 128 (Z.land (Z.shiftr r3 12) 63);
       Z.lor 128 (Z.land (Z.shiftr r3 6) 63); Z.lor 128 (Z.land r3 63)].

(** The runes of a string as [for _, c := range s] yields them: an invalid
    byte comes out as [RuneError] of width 1. The fuel is the number of
    bytes, every step consumes at least one. *)
Fixpoint runes_fuel (fuel : nat) (p : list Z) : list Z :=
  match fuel with
  | O => []
  | S fuel' =>
    match p with
    | [] => []
    | _ =>
      let '(r, size) := DecodeRune p in
      r :: runes_fuel fuel' (drop size p)
    end
  end.

Definition runes (p : list Z) : list Z := runes_fuel (length p) p.

End utf8.

(* ===================================================================== *)
(** * Package gopkg.in/yaml.v3: the node tree *)
(* ===================================================================== *)

Module yaml.

(** [yaml.Kind]; [ZeroKind] is the zero value of the type. *)
Inductive NodeKind : Type :=
  | ZeroKind | DocumentNode | SequenceNode | MappingNode | ScalarNode | AliasNode.

(** [yaml.Node], with the fields the validator reads. [Alias] is the node an
    alias resolves to; a mapping keeps its keys and values alternating in
    [Content]. *)
Inductive Node : Type := mkNode {
  Kind : NodeKind;
  Tag : string;
  Value : string;
  Alias : option Node;
  Content : list Node;
  Line : Z;
  Column : Z
}.

Definition kind_eqb (a b : NodeKind) : bool :=
  match a, b with
  | ZeroKind, ZeroKind | DocumentNode, DocumentNode
  | SequenceNode, SequenceNode | MappingNode, MappingNode
  | ScalarNode, ScalarNode | AliasNode, AliasNode => true
  | _, _ => false
  end.

(** What [Decoder.Decode] hands back for one document of the stream. *)
Inductive Decoded : Type :=
  | DecodeOk (root : Node)
  | DecodeErr (msg : string).

End yaml.

(* ===================================================================== *)
(** * What is taken from the Go run time as given *)
(* ===================================================================== *)

(** [float64] *)
Definition float64 : Type := spec_float.
Definition f64_prec : Z := 53.
Definition f64_emax : Z := 1024.

(** The parts of the Go standard library and run time that have no finite
    description here. Everything else the code calls is modelled below. *)
Class GoLib : Type := {
  (** [unicode.ToLower] on a rune outside ASCII (the Unicode case tables) *)
  unicode_ToLower : Z -> Z;
  (** [fmt.Sprintf("%q", s)], that is [strconv.Quote] *)
  strconv_Quote : string -> string;
  (** [fmt.Sprintf("%v", f)] for a [float64] *)
  fmt_float64 : float64 -> string;
  (** the values an [interface{}] can hold, and their [%v] rendering *)
  GoAny : Type;
  fmt_any : GoAny -> string;
  (** the order in which [for k, v := range m] visits a map: unspecified,
      but every entry is visited exactly once *)
  (** [FindStringSubmatch] of the two compiled patterns of the package,
      [line (\d+):\s*column (\d+)] and [line (\d+):]: the captured groups *)
  yamlErrorLineColRe : string -> option (string * string);
  yamlErrorLineRe : string -> option string;
  (** the documents [yaml.NewDecoder] reads from the input, up to [io.EOF]
      or the first error *)
  yaml_Decode : string -> list yaml.Decoded;
  (** the lines [bufio.Scanner] splits the input into *)
  bufio_ScanLines : string -> list string;
  map_range : forall A : Type, gmap string A -> list (string * A);
  map_range_perm : forall (A : Type) (m : gmap string A),
      Permutation (map_range A m) (map_to_list m)
}.

Arguments map_range {_ _} _.

(* ===================================================================== *)
(** * Package strings *)
(* ===================================================================== *)

Module gostrings.

Definition HasPrefix (s prefix : string) : bool := String.prefix prefix s.

Definition TrimPrefix (s prefix : string) : string :=
  if HasPrefix s prefix then drop_str (String.length prefix) s else s.

(** [strings.ContainsAny(s, chars)] for a set [chars] of ASCII characters *)
Definition ContainsAny (s : string) (chars : list Z) : bool :=
  existsb (fun b => existsb (Z.eqb b) chars) (bytes_of s).

Fixpoint Repeat (s : string) (n : nat) : string :=
  match n with
  | O => EmptyString
  | S n' => s +:+ Repeat s n'
  end.

Fixpoint Join (elems : list string) (sep : string) : string :=
  match elems with
  | [] => EmptyString
  | [e] => e
  | e :: rest => e +:+ sep +:+ Join rest sep
  end.

Definition isASCII (bs : list Z) : bool := forallb (fun b => b <? utf8.RuneSelf) bs.

Definition ascii_lower (b : Z) : Z :=
  if (65 <=? b) && (b <=? 90) then b + 32 else b.

(** [strings.Map]: every rune of [s] (an invalid byte counts as
    [utf8.RuneError]) is replaced by the encoding of its image; a negative
    image drops the rune. *)
Definition Map (mapping : Z -> Z) (bs : list Z) : list Z :=
  flat_map (fun c => let r := mapping c in
                     if r <? 0 then [] else utf8.EncodeRune r)
           (utf8.runes bs).

Section WithLib.
Context {lib : GoLib}.

(** [unicode.ToLower]: ASCII by arithmetic, the rest by the tables *)
Definition rune_ToLower (r : Z) : Z :=
  if r <? utf8.RuneSelf then ascii_lower r else unicode_ToLower r.

(** [strings.ToLower], with its fast path for ASCII-only strings *)
Definition ToLower (s : string) : string :=
  let bs := bytes_of s in
  if isASCII bs then string_of_bytes (map ascii_lower bs)
  else string_of_bytes (Map rune_ToLower bs).

End WithLib.

End gostrings.

(* ===================================================================== *)
(** * Package strconv *)
(* ===================================================================== *)

Module strconv.

(** [underscoreOK]: underscores only between digits, or between a base
    prefix and a digit. [saw] is 0 for the beginning, 1 for a digit or base
    prefix, 2 for an underscore, 3 for anything else. *)
Fixpoint underscoreOK_loop (hex : bool) (saw : nat) (s : list Z) : bool :=
  match s with
  | [] => negb (saw =? 2)%nat
  | c :: rest =>
    if is_digit c || (hex && (97 <=? lower_byte c) && (lower_byte c <=? 102))
    then underscoreOK_loop hex 1 rest
    else if c =? 95 then
      if negb (saw =? 1)%nat then false else underscoreOK_loop hex 2 rest
    else if (saw =? 2)%nat then false
    else underscoreOK_loop hex 3 rest
  end.

Definition strip_sign (s : list Z) : list Z :=
  match s with
  | c :: rest => if (c =? 45) || (c =? 43) then rest else s
  | [] => s
  end.

Definition underscoreOK (s : list Z) : bool :=
  match strip_sign s with
  | c0 :: c1 :: rest =>
    if (c0 =? 48) && ((lower_byte c1 =? 98) || (lower_byte c1 =? 111)
                       || (lower_byte c1 =? 120))
    then underscoreOK_loop (lower_byte c1 =? 120) 1 rest
    else underscoreOK_loop false 0 (c0 :: c1 :: rest)
  | s' => underscoreOK_loop false 0 s'
  end.

Definition maxUint64 : Z := 18446744073709551615.

(** The digit loop of [ParseUint]; [None] is a syntax or range error. *)
Fixpoint ParseUint_loop (base0 : bool) (base : Z) (s : list Z)
         (n : Z) (underscores : bool) : option (Z * bool) :=
  match s with
  | [] => Some (n, underscores)
  | c :: rest =>
    if (c =? 95) && base0 then ParseUint_loop base0 base rest n true
    else
      let d := if is_digit c then Some (c - 48)
               else if (97 <=? lower_byte c) && (lower_byte c <=? 122)
                    then Some (lower_byte c - 97 + 10)
                    else None in
      match d with
      | None => None
      | Some d =>
        if base <=? d then None
        else if maxUint64 / base + 1 <=? n then None
        else
          let n1 := n * base + d in
          if maxUint64 <? n1 then None
          else ParseUint_loop base0 base rest n1 underscores
      end
  end.

(** [strconv.ParseUint(s, base, 64)] for [base] 0 or in 2..36; [None] when
    the returned error is not nil. *)
Definition ParseUint (s : list Z) (base : Z) : option Z :=
  match s with
  | [] => None
  | c0 :: _ =>
    let '(base', digits) :=
      if base =? 0 then
        if c0 =? 48 then
          match s with
          | _ :: c1 :: ((_ :: _) as rest) =>
            if lower_byte c1 =? 98 then (2, rest)
            else if lower_byte c1 =? 111 then (8, rest)
            else if lower_byte c1 =? 120 then (16, rest)
            else (8, drop 1 s)
          | _ => (8, drop 1 s)
          end
        else (10, s)
      else (base, s) in
    match ParseUint_loop (base =? 0) base' digits 0 false with
    | None => None
    | Some (n, underscores) =>
      if underscores && negb (underscoreOK s) then None else Some n
    end
  end.

(** [strconv.ParseInt(s, base, 64)]; [None] when the error is not nil. *)
Definition ParseInt (s : string) (base : Z) : option Z :=
  match bytes_of s with
  | [] => None
  | c0 :: rest =>
    let neg := c0 =? 45 in
    let s' := if (c0 =? 43) || (c0 =? 45) then rest else c0 :: rest in
    match ParseUint s' base with
    | None => None
    | Some un =>
      let cutoff := 9223372036854775808 in
      if negb neg && (cutoff <=? un) then None
      else if neg && (cutoff <? un) then None
      else Some (if neg then - un else un)
    end
  end.


(** ** [strconv.ParseFloat(s, 64)] *)

(** [commonPrefixLenIgnoreCase(s, prefix)], [prefix] in lower case *)
Fixpoint commonPrefixLenIgnoreCase (s prefix : list Z) : nat :=
  match s, prefix with
  | c :: s', p :: prefix' =>
    let c' := if (65 <=? c) && (c <=? 90) then c + 32 else c in
    if c' =? p then S (commonPrefixLenIgnoreCase s' prefix') else O
  | _, _ => O
  end.

Definition infinity_bytes : list Z := [105; 110; 102; 105; 110; 105; 116; 121].
Definition nan_bytes : list Z := [110; 97; 110].

(** [special]: the value and the number of bytes consumed *)
Definition special (s : list Z) : option (float64 * nat) :=
  let inf (sign : bool) (nsign : nat) (s' : list Z) :=
    let n := commonPrefixLenIgnoreCase s' infinity_bytes in
    let n := if (3 <? n)%nat && (n <? 8)%nat then 3%nat else n in
    if (n =? 3)%nat || (n =? 8)%nat
    then Some (S754_infinity sign, (nsign + n)%nat) else None in
  match s with
  | [] => None
  | c :: rest =>
    if (c =? 43) || (c =? 45) then inf (c =? 45) 1%nat rest
    else if (c =? 105) || (c =? 73) then inf false 0%nat s
    else if (c =? 110) || (c =? 78) then
      if (commonPrefixLenIgnoreCase s nan_bytes =? 3)%nat
      then Some (S754_nan, 3%nat) else None
    else None
  end.

(** The state of the mantissa loop of [readFloat]. The mantissa is kept
    exactly: Go keeps 19 digits (16 in base 16) with a truncation flag and
    falls back to an exact conversion, so both round the same value. *)
Record mant_state : Type := {
  m_mant : Z; m_nd : Z; m_dp : Z;
  m_sawdot : bool; m_sawdigits : bool; m_underscores : bool
}.

Fixpoint readFloat_mant (base : Z) (s : list Z) (st : mant_state)
  : mant_state * list Z :=
  match s with
  | [] => (st, [])
  | c :: rest =>
    if c =? 95 then
      readFloat_mant base rest
        {| m_mant := m_mant st; m_nd := m_nd st; m_dp := m_dp st;
           m_sawdot := m_sawdot st; m_sawdigits := m_sawdigits st;
           m_underscores := true |}
    else if c =? 46 then
      if m_sawdot st then (st, s)
      else readFloat_mant base rest
        {| m_mant := m_mant st; m_nd := m_nd st; m_dp := m_nd st;
           m_sawdot := true; m_sawdigits := m_sawdigits st;
           m_underscores := m_underscores st |}
    else if is_digit c then
      if (c =? 48) && (m_nd st =? 0) then
        readFloat_mant base rest
          {| m_mant := m_mant st; m_nd := m_nd st; m_dp := m_dp st - 1;
             m_sawdot := m_sawdot st; m_sawdigits := true;
             m_underscores := m_underscores st |}
      else
        readFloat_mant base rest
          {| m_mant := m_mant st * base + (c - 48); m_nd := m_nd st + 1;
             m_dp := m_dp st; m_sawdot := m_sawdot st; m_sawdigits := true;
             m_underscores := m_underscores st |}
    else if (base =? 16) && (97 <=? lower_byte c) && (lower_byte c <=? 102) then
      readFloat_mant base rest
        {| m_mant := m_mant st * 16 + (lower_byte c - 97 + 10);
           m_nd := m_nd st + 1; m_dp := m_dp st; m_sawdot := m_sawdot st;
           m_sawdigits := true; m_underscores := m_underscores st |}
    else (st, s)
  end.

(** The digits of the exponent: [e] saturates once it reaches 10000. *)
Fixpoint readFloat_exp (s : list Z) (e : Z) (underscores : bool)
  : Z * bool * list Z :=
  match s with
  | c :: rest =>
    if c =? 95 then readFloat_exp rest e true
    else if is_digit c then
      readFloat_exp rest (if e <? 10000 then e * 10 + (c - 48) else e) underscores
    else (e, underscores, s)
  | [] => (e, underscores, [])
  end.

(** [readFloat] on the whole of [s]: sign, base, exact mantissa and the
    exponent of the base (10, or 2 for a hexadecimal float); [None] when the
    syntax is wrong or bytes are left over. *)
Definition readFloat (s : list Z) : option (bool * bool * Z * Z) :=
  match s with
  | [] => None
  | c0 :: _ =>
    let neg := c0 =? 45 in
    let s1 := if (c0 =? 43) || (c0 =? 45) then drop 1 s else s in
    let '(hex, s2) :=
      match s1 with
      | d0 :: d1 :: ((_ :: _) as rest) =>
        if (d0 =? 48) && (lower_byte d1 =? 120) then (true, rest) else (false, s1)
      | _ => (false, s1)
      end in
    let base := if hex then 16 else 10 in
    let '(st, s3) :=
      readFloat_mant base s2
        {| m_mant := 0; m_nd := 0; m_dp := 0; m_sawdot := false;
           m_sawdigits := false; m_underscores := false |} in
    if negb (m_sawdigits st) then None
    else
      let dp := if m_sawdot st then m_dp st else m_nd st in
      let '(dp, nd) := if hex then (dp * 4, m_nd st * 4) else (dp, m_nd st) in
      let expChar := if hex then 112 else 101 in
      let after :=
        match s3 with
        | c :: s4 =>
          if lower_byte c =? expChar then
            match s4 with
            | [] => None
            | c' :: s5 =>
              let esign := if c' =? 45 then -1 else 1 in
              let s6 := if (c' =? 43) || (c' =? 45) then s5 else s4 in
              match s6 with
              | d :: _ =>
                if is_digit d then
                  let '(e, us, s7) := readFloat_exp s6 0 (m_underscores st) in
                  Some (dp + e * esign, us, s7)
                else None
              | [] => None
              end
            end
          else if hex then None
          else Some (dp, m_underscores st, s3)
        | [] => if hex then None else Some (dp, m_underscores st, s3)
        end in
      match after with
      | None => None
      | Some (dp, underscores, rest) =>
        if underscores && negb (underscoreOK s) then None
        else
          match rest with
          | [] => Some (neg, hex, m_mant st, dp - nd)
          | _ :: _ => None
          end
      end
  end.

(** The [float64] nearest to [m * 2^e] (ties to even). *)
Definition round_binary (neg : bool) (m e : Z) : float64 :=
  binary_normalize f64_prec f64_emax (if neg then - m else m) e neg.

(** The [float64] nearest to [m * 10^e] (ties to even). For a negative
    exponent the quotient is computed with 64 guard bits and a sticky bit. *)
Definition round_decimal (neg : bool) (m e : Z) : float64 :=
  if m =? 0 then S754_zero neg
  else if 0 <=? e then round_binary neg (m * 10 ^ e) 0
  else
    let d := 10 ^ (- e) in
    let s := Z.max 0 (Z.log2 d - Z.log2 m + 64) in
    let q := (m * 2 ^ s) / d in
    let r := (m * 2 ^ s) mod d in
    round_binary neg (2 * q + (if r =? 0 then 0 else 1)) (- (s + 1)).

(** [strconv.ParseFloat(s, 64)]; [None] when the error is not nil (wrong
    syntax, or a value that rounds to an infinity). *)
Definition ParseFloat (s : string) : option float64 :=
  let bs := bytes_of s in
  match special bs with
  | Some (f, n) => if (n =? length bs)%nat then Some f else None
  | None =>
    match readFloat bs with
    | None => None
    | Some (neg, hex, m, e) =>
      let f := if hex then round_binary neg m e else round_decimal neg m e in
      match f with
      | S754_infinity _ => None
      | _ => Some f
      end
    end
  end.

(** [float64(i)] for an integer [i] *)
Definition float64_of_int (i : Z) : float64 :=
  binary_normalize f64_prec f64_emax i 0 false.

(** The value [strconv.Atoi] returns, error or not: 0 on a syntax error,
    the nearest bound on a range error. *)
Definition Atoi_value (s : string) : Z :=
  match ParseInt s 10 with
  | Some n => n
  | None =>
    match bytes_of s with
    | [] => 0
    | c0 :: rest =>
      let body := if (c0 =? 43) || (c0 =? 45) then rest else c0 :: rest in
      match body with
      | [] => 0
      | _ :: _ =>
        if forallb is_digit body
        then (if c0 =? 45 then -9223372036854775808 else 9223372036854775807)
        else 0
      end
    end
  end.

End strconv.

(* ===================================================================== *)
(** * Package fmt *)
(* ===================================================================== *)

Module fmt.

(** [%d] *)
Definition d (n : Z) : string := NilZero.string_of_int (Z.to_int n).

(** [%4d]: right-justified in a field of four *)
Definition d4 (n : Z) : string :=
  let s := d n in
  gostrings.Repeat " " (4 - String.length s) +:+ s.

(** [%v] of a [[]string] *)
Definition v_strings (ss : list string) : string :=
  "[" +:+ gostrings.Join ss " " +:+ "]".

End fmt.

(* ===================================================================== *)
(** * Outcomes of code that can panic or whose model runs on fuel *)
(* ===================================================================== *)

Inductive outcome (A : Type) : Type :=
  | Done (a : A)
  | Panic
  | OutOfFuel.

Arguments Done {A} a.
Arguments Panic {A}.
Arguments OutOfFuel {A}.

Definition obind {A B : Type} (m : outcome A) (f : A -> outcome B) : outcome B :=
  match m with
  | Done a => f a
  | Panic => Panic
  | OutOfFuel => OutOfFuel
  end.

Notation "x <- m ;; k" := (obind m (fun x => k))
  (at level 100, m at next level, right associativity).

(* ===================================================================== *)
(** * Error levels and collection *)
(* ===================================================================== *)

Inductive ErrorLevel : Type := LevelWarning | LevelError.

Definition level_eqb (a b : ErrorLevel) : bool :=
  match a, b with
  | LevelWarning, LevelWarning | LevelError, LevelError => true
  | _, _ => false
  end.

(** The integer behind the level ([iota]): the order [SortByPosition] uses. *)
Definition level_int (l : ErrorLevel) : Z :=
  match l with LevelWarning => 0 | LevelError => 1 end.

Definition ErrorLevel_String (l : ErrorLevel) : string :=
  match l with LevelWarning => "WARNING" | LevelError => "ERROR" end.

Record ValidationError : Type := mkError {
  Level : ErrorLevel;
  Path : string;
  Line : Z;
  Column : Z;
  Message : string;
  Got : string;
  Expected : string
}.

(** [ValidationError.Error] *)
Definition ValidationError_Error (e : ValidationError) : string :=
  let details :=
    if negb (str_eqb (Expected e) "") && negb (str_eqb (Got e) "")
    then " (expected " +:+ Expected e +:+ ", got " +:+ Got e +:+ ")"
    else if negb (str_eqb (Got e) "") then " (got " +:+ Got e +:+ ")"
    else "" in
  let pos :=
    if 0 <? Line e then
      if 0 <? Column e
      then "line " +:+ fmt.d (Line e) +:+ ":" +:+ fmt.d (Column e) +:+ ": "
      else "line " +:+ fmt.d (Line e) +:+ ": "
    else "" in
  "[" +:+ ErrorLevel_String (Level e) +:+ "] " +:+ pos +:+ Message e
      +:+ details +:+ " (path: " +:+ Path e +:+ ")".

Record ErrorCollector : Type := mkCollector {
  errors : list ValidationError;
  warnings : list ValidationError
}.

Definition NewErrorCollector : ErrorCollector :=
  {| errors := []; warnings := [] |}.

(** [ErrorCollector.Add] *)
Definition Add (c : ErrorCollector) (err : ValidationError) : ErrorCollector :=
  match Level err with
  | LevelError => {| errors := errors c ++ [err]; warnings := warnings c |}
  | LevelWarning => {| errors := errors c; warnings := warnings c ++ [err] |}
  end.

Definition HasErrors (c : ErrorCollector) : bool :=
  (0 <? length (errors c))%nat.

(** [ErrorCollector.All]: all errors followed by all warnings *)
Definition All (c : ErrorCollector) : list ValidationError :=
  errors c ++ warnings c.

(* ===================================================================== *)
(** * Validation context *)
(* ===================================================================== *)

Record ValidationContext : Type := mkContext {
  StrictKeys : bool;
  StopOnFirst : bool;
  StrictTypes : bool;
  YAML11Booleans : bool;
  SourceLines : list string;
  collector : ErrorCollector;
  stopped : bool
}.

Definition NewValidationContext : ValidationContext :=
  {| StrictKeys := false; StopOnFirst := false; StrictTypes := false;
     YAML11Booleans := false; SourceLines := [];
     collector := NewErrorCollector; stopped := false |}.

Definition set_collector (ctx : ValidationContext) (c : ErrorCollector)
  : ValidationContext :=
  {| StrictKeys := StrictKeys ctx; StopOnFirst := StopOnFirst ctx;
     StrictTypes := StrictTypes ctx; YAML11Booleans := YAML11Booleans ctx;
     SourceLines := SourceLines ctx; collector := c; stopped := stopped ctx |}.

Definition set_stopped (ctx : ValidationContext) (b : bool) : ValidationContext :=
  {| StrictKeys := StrictKeys ctx; StopOnFirst := StopOnFirst ctx;
     StrictTypes := StrictTypes ctx; YAML11Booleans := YAML11Booleans ctx;
     SourceLines := SourceLines ctx; collector := collector ctx; stopped := b |}.

Definition set_SourceLines (ctx : ValidationContext) (l : list string)
  : ValidationContext :=
  {| StrictKeys := StrictKeys ctx; StopOnFirst := StopOnFirst ctx;
     StrictTypes := StrictTypes ctx; YAML11Booleans := YAML11Booleans ctx;
     SourceLines := l; collector := collector ctx; stopped := stopped ctx |}.

(** [ValidationContext.AddError] *)
Definition AddError (ctx : ValidationContext) (err : ValidationError)
  : ValidationContext :=
  if stopped ctx then ctx
  else
    let ctx' := set_collector ctx (Add (collector ctx) err) in
    if StopOnFirst ctx' && level_eqb (Level err) LevelError
    then set_stopped ctx' true
    else ctx'.

Definition IsStopped (ctx : ValidationContext) : bool := stopped ctx.

(* ===================================================================== *)
(** * Node types, unknown-key policy, validators, schema *)
(* ===================================================================== *)

Inductive NodeType : Type :=
  | TypeAny | TypeNull | TypeString | TypeInt | TypeFloat | TypeBool
  | TypeMap | TypeSequence.

Definition NodeType_eqb (a b : NodeType) : bool :=
  match a, b with
  | TypeAny, TypeAny | TypeNull, TypeNull | TypeString, TypeString
  | TypeInt, TypeInt | TypeFloat, TypeFloat | TypeBool, TypeBool
  | TypeMap, TypeMap | TypeSequence, TypeSequence => true
  | _, _ => false
  end.

Definition NodeType_String (t : NodeType) : string :=
  match t with
  | TypeAny => "any"
  | TypeNull => "null"
  | TypeString => "string"
  | TypeInt => "integer"
  | TypeFloat => "float"
  | TypeBool => "boolean"
  | TypeMap => "map"
  | TypeSequence => "sequence"
  end.

Inductive UnknownKeyPolicy : Type :=
  | UnknownKeyInherit | UnknownKeyError | UnknownKeyWarn | UnknownKeyIgnore.

(** The interface [ValueValidator]: the context goes in and comes out. *)
Record ValueValidator : Type := {
  Validate : yaml.Node -> string -> ValidationContext -> ValidationContext
}.

(** The interface [KeyValidator]. *)
Record KeyValidator : Type := {
  ValidateKey :
    string -> yaml.Node -> string -> ValidationContext -> ValidationContext
}.

Record ConditionalRule : Type := {
  ConditionField : string;
  ConditionValue : string;
  ThenRequired : list string;
  ThenForbidden : list string
}.

Section Schema.
Context {lib : GoLib}.

(** [FieldSchema]. A nil pointer to a schema is [None]; the entries of
    [AllowedKeys] are schemas, not nil. [Type'] is the field [Type],
    [UnknownKeyPolicy'] the field [UnknownKeyPolicy]. *)
Inductive FieldSchema : Type := mkSchema {
  Type' : NodeType;
  Required : bool;
  Nullable : bool;
  Deprecated : string;
  Description : string;
  Default : option GoAny;
  AllowedKeys : gmap string FieldSchema;
  AdditionalProperties : option FieldSchema;
  UnknownKeyPolicy' : UnknownKeyPolicy;
  KeyValidators : list KeyValidator;
  ItemSchema : option FieldSchema;
  MinItems : option Z;
  MaxItems : option Z;
  Validators : list ValueValidator;
  AnyOf : list (list string);
  ExactlyOneOf : list string;
  MutuallyExclusive : list string;
  Conditions : list ConditionalRule
}.

End Schema.

(* ===================================================================== *)
(** * Node validation *)
(* ===================================================================== *)

Section Validator.
Context {lib : GoLib}.

Definition joinPath (base key : string) : string :=
  if str_eqb base "" then key else base +:+ "." +:+ key.

Definition cleanPath (path : string) : string :=
  gostrings.TrimPrefix path ".".

(** ** Type inference *)

(** The YAML 1.1 boolean literals, tested on the lower-cased value. *)
Definition isYAML11Bool (lower : string) : bool :=
  str_eqb lower "y" || str_eqb lower "yes" || str_eqb lower "true"
  || str_eqb lower "on" || str_eqb lower "n" || str_eqb lower "no"
  || str_eqb lower "false" || str_eqb lower "off".

(** [len(s) > 2 && (s[:2] == lo || s[:2] == up)] *)
Definition hasBasePrefix (s lo up : string) : bool :=
  (2 <? len s) && (str_eqb (take_str 2 s) lo || str_eqb (take_str 2 s) up).

Definition is_ok {A : Type} (o : option A) : bool :=
  match o with Some _ => true | None => false end.

Definition looksLikeInt (s : string) : bool :=
  match s with
  | EmptyString => false
  | String c0 rest =>
    let signed := (ord c0 =? 43) || (ord c0 =? 45) in
    let s := if signed then rest else s in
    if signed && str_eqb s "" then false
    else if hasBasePrefix s "0x" "0X" then is_ok (strconv.ParseInt s 0)
    else if hasBasePrefix s "0o" "0O" then is_ok (strconv.ParseInt (drop_str 2 s) 8)
    else if hasBasePrefix s "0b" "0B" then is_ok (strconv.ParseInt (drop_str 2 s) 2)
    else is_ok (strconv.ParseInt s 10)
  end.

Definition looksLikeFloat (s : string) : bool :=
  let lower := gostrings.ToLower s in
  if str_eqb lower ".inf" || str_eqb lower "-.inf" || str_eqb lower "+.inf"
     || str_eqb lower ".nan"
  then true
  else if negb (gostrings.ContainsAny s [46; 101; 69]) then false
  else is_ok (strconv.ParseFloat s).

Definition inferScalarType (node : yaml.Node) (ctx : ValidationContext) : NodeType :=
  let tag := yaml.Tag node in
  if str_eqb tag "!!str" then
    if YAML11Booleans ctx && isYAML11Bool (gostrings.ToLower (yaml.Value node))
    then TypeBool else TypeString
  else if str_eqb tag "!!int" then TypeInt
  else if str_eqb tag "!!float" then TypeFloat
  else if str_eqb tag "!!bool" then TypeBool
  else if str_eqb tag "!!null" then TypeNull
  else if StrictTypes ctx then TypeString
  else
    let val := yaml.Value node in
    let lower := gostrings.ToLower val in
    if str_eqb lower "null" || str_eqb val "~" then TypeNull
    else if str_eqb lower "true" || str_eqb lower "false" then TypeBool
    else if YAML11Booleans ctx && isYAML11Bool lower then TypeBool
    else if looksLikeInt val then TypeInt
    else if looksLikeFloat val then TypeFloat
    else TypeString.

Fixpoint inferType (node : yaml.Node) (ctx : ValidationContext) : NodeType :=
  match node with
  | yaml.mkNode k _ _ alias _ _ _ =>
    match k with
    | yaml.MappingNode => TypeMap
    | yaml.SequenceNode => TypeSequence
    | yaml.ScalarNode => inferScalarType node ctx
    | yaml.AliasNode =>
      match alias with
      | Some target => inferType target ctx
      | None => TypeAny
      end
    | _ => TypeAny
    end
  end.

Definition describeNode (node : yaml.Node) : string :=
  match yaml.Kind node with
  | yaml.MappingNode => "map"
  | yaml.SequenceNode =>
    "sequence (len=" +:+ fmt.d (Z.of_nat (length (yaml.Content node))) +:+ ")"
  | yaml.ScalarNode =>
    let val := yaml.Value node in
    let val := if 20 <? len val then take_str 20 val +:+ "..." else val in
    let tag := gostrings.TrimPrefix (yaml.Tag node) "!!" in
    let tag := if str_eqb tag "" then "scalar" else tag in
    tag +:+ " " +:+ strconv_Quote val
  | _ => yaml.Tag node
  end.

(** ** The type check *)

Definition nullError (node : yaml.Node) (expected : NodeType) (path : string)
  : ValidationError :=
  {| Level := LevelError; Path := cleanPath path;
     Line := yaml.Line node; Column := yaml.Column node;
     Message := "unexpected null value";
     Got := "null"; Expected := NodeType_String expected |}.

Definition mismatchError (node : yaml.Node) (expected : NodeType) (path : string)
  : ValidationError :=
  {| Level := LevelError; Path := cleanPath path;
     Line := yaml.Line node; Column := yaml.Column node;
     Message := "type mismatch";
     Got := describeNode node; Expected := NodeType_String expected |}.

Definition checkTypeWithSchema (node : yaml.Node) (schema : FieldSchema)
           (path : string) (ctx : ValidationContext) : bool * ValidationContext :=
  let expected := Type' schema in
  if NodeType_eqb expected TypeAny then (true, ctx)
  else
    let actual := inferType node ctx in
    if NodeType_eqb actual TypeNull then
      if NodeType_eqb expected TypeNull then (true, ctx)
      else if Nullable schema then (true, ctx)
      else (false, AddError ctx (nullError node expected path))
    else if NodeType_eqb actual expected then (true, ctx)
    else if NodeType_eqb expected TypeFloat && NodeType_eqb actual TypeInt
    then (true, ctx)
    else (false, AddError ctx (mismatchError node expected path)).

(** ** Merge keys *)

Record kvPair : Type := { key : yaml.Node; value : yaml.Node }.

(** [mappingToPairs]: the loop reads [Content[i]] and [Content[i+1]] for
    [i = 0, 2, ...]; an odd number of children is an index out of range. *)
Fixpoint mappingToPairs_loop (content : list yaml.Node) (out : list kvPair)
  : outcome (list kvPair) :=
  match content with
  | [] => Done out
  | [_] => Panic
  | k :: v :: rest => mappingToPairs_loop rest (out ++ [{| key := k; value := v |}])
  end.

Definition mappingToPairs (m : yaml.Node) : outcome (list kvPair) :=
  mappingToPairs_loop (yaml.Content m) [].

Fixpoint extractMergePairs (val : yaml.Node) : outcome (list kvPair) :=
  match val with
  | yaml.mkNode k _ _ alias content _ _ =>
    match k with
    | yaml.AliasNode =>
      match alias with
      | Some target => extractMergePairs target
      | None => Done []
      end
    | yaml.MappingNode => mappingToPairs val
    | yaml.SequenceNode =>
      (fix items (l : list yaml.Node) (out : list kvPair) : outcome (list kvPair) :=
         match l with
         | [] => Done out
         | item :: l' =>
           ps <- extractMergePairs item ;;
           items l' (out ++ ps)
         end) content []
    | _ => Done []
    end
  end.

(** [dedupePairsKeepLast]: [seen] maps a key to the index of its last
    occurrence; a pair is kept when it sits at that index. *)
Definition seen_last (pairs : list kvPair) : gmap string nat :=
  foldl (fun (seen : gmap string nat) (ikv : nat * kvPair) =>
           <[yaml.Value (key ikv.2) := ikv.1]> seen)
        ∅ (imap (fun idx kv => (idx, kv)) pairs).

Definition dedupePairsKeepLast (pairs : list kvPair) : list kvPair :=
  let seen := seen_last pairs in
  foldl (fun (out : list kvPair) (ikv : nat * kvPair) =>
           if (default 0%nat (seen !! yaml.Value (key ikv.2)) =? ikv.1)%nat
           then out ++ [ikv.2] else out)
        [] (imap (fun idx kv => (idx, kv)) pairs).

Fixpoint expandMappingWithMerges_loop (content : list yaml.Node)
         (pairs : list kvPair) : outcome (list kvPair) :=
  match content with
  | [] => Done pairs
  | [_] => Panic
  | keyNode :: valueNode :: rest =>
    if str_eqb (yaml.Value keyNode) "<<" then
      mergePairs <- extractMergePairs valueNode ;;
      expandMappingWithMerges_loop rest (pairs ++ mergePairs)
    else
      expandMappingWithMerges_loop rest
        (pairs ++ [{| key := keyNode; value := valueNode |}])
  end.

Definition expandMappingWithMerges (node : yaml.Node) : outcome (list kvPair) :=
  if negb (yaml.kind_eqb (yaml.Kind node) yaml.MappingNode) then Done []
  else
    pairs <- expandMappingWithMerges_loop (yaml.Content node) [] ;;
    Done (dedupePairsKeepLast pairs).

(** ** Unknown keys *)

Definition resolveUnknownKeyLevel (policy : UnknownKeyPolicy)
           (ctx : ValidationContext) : ErrorLevel * bool :=
  match policy with
  | UnknownKeyError => (LevelError, true)
  | UnknownKeyWarn => (LevelWarning, true)
  | UnknownKeyIgnore => (LevelWarning, false)
  | UnknownKeyInherit =>
    if StrictKeys ctx then (LevelError, true) else (LevelWarning, true)
  end.

Definition unknownKeyError (level : ErrorLevel) (fieldPath : string)
           (keyNode valueNode : yaml.Node) : ValidationError :=
  {| Level := level; Path := cleanPath fieldPath;
     Line := yaml.Line keyNode; Column := yaml.Column keyNode;
     Message := "unknown key " +:+ strconv_Quote (yaml.Value keyNode);
     Got := describeNode valueNode; Expected := "" |}.

(** ** Inter-field checks over the keys found in a mapping *)

Definition present (foundKeys : gmap string yaml.Node) (k : string) : bool :=
  is_ok (foundKeys !! k).

Definition checkRequiredFields (node : yaml.Node) (schema : FieldSchema)
           (path : string) (foundKeys : gmap string yaml.Node)
           (ctx : ValidationContext) : ValidationContext :=
  foldl (fun ctx (entry : string * FieldSchema) =>
           let '(k, fieldSchema) := entry in
           if Required fieldSchema && negb (present foundKeys k) then
             AddError ctx
               {| Level := LevelError; Path := cleanPath (joinPath path k);
                  Line := yaml.Line node; Column := yaml.Column node;
                  Message := "required field " +:+ strconv_Quote k +:+ " is missing";
                  Got := ""; Expected := "" |}
           else ctx)
        ctx (map_range (AllowedKeys schema)).

Definition checkDefaults (node : yaml.Node) (schema : FieldSchema)
           (path : string) (foundKeys : gmap string yaml.Node)
           (ctx : ValidationContext) : ValidationContext :=
  foldl (fun ctx (entry : string * FieldSchema) =>
           let '(k, fieldSchema) := entry in
           match Default fieldSchema with
           | Some dflt =>
             if negb (present foundKeys k) && negb (Required fieldSchema) then
               AddError ctx
                 {| Level := LevelWarning; Path := cleanPath (joinPath path k);
                    Line := yaml.Line node; Column := yaml.Column node;
                    Message := "field " +:+ strconv_Quote k
                               +:+ " not set, will use default: " +:+ fmt_any dflt;
                    Got := ""; Expected := "" |}
             else ctx
           | None => ctx
           end)
        ctx (map_range (AllowedKeys schema)).

Definition quoteAll (ss : list string) : list string := map strconv_Quote ss.

Definition anyOfGroupStr (g : list string) : string :=
  match g with
  | [k] => strconv_Quote k
  | _ => "(" +:+ gostrings.Join (quoteAll g) " and " +:+ ")"
  end.

Definition checkAnyOf (node : yaml.Node) (schema : FieldSchema)
           (path : string) (foundKeys : gmap string yaml.Node)
           (ctx : ValidationContext) : ValidationContext :=
  match AnyOf schema with
  | [] => ctx
  | groups =>
    if existsb (fun group => forallb (present foundKeys) group) groups then ctx
    else
      AddError ctx
        {| Level := LevelError; Path := cleanPath path;
           Line := yaml.Line node; Column := yaml.Column node;
           Message := "at least one of "
                      +:+ gostrings.Join (map anyOfGroupStr groups) " or "
                      +:+ " is required";
           Got := ""; Expected := "" |}
  end.

(** The listed keys that are present, in the order of the list. *)
Definition foundAmong (keys : list string) (foundKeys : gmap string yaml.Node)
  : list string :=
  List.filter (present foundKeys) keys.

Definition checkExactlyOneOf (node : yaml.Node) (schema : FieldSchema)
           (path : string) (foundKeys keyNodes : gmap string yaml.Node)
           (ctx : ValidationContext) : outcome ValidationContext :=
  match ExactlyOneOf schema with
  | [] => Done ctx
  | listed =>
    match foundAmong listed foundKeys with
    | [] =>
      Done (AddError ctx
        {| Level := LevelError; Path := cleanPath path;
           Line := yaml.Line node; Column := yaml.Column node;
           Message := "exactly one of " +:+ fmt.v_strings listed
                      +:+ " is required, none found";
           Got := ""; Expected := "" |})
    | [_] => Done ctx
    | (_ :: second :: _) as found =>
      match keyNodes !! second with
      | None => Panic
      | Some keyNode =>
        Done (AddError ctx
          {| Level := LevelError; Path := cleanPath path;
             Line := yaml.Line keyNode; Column := yaml.Column keyNode;
             Message := "exactly one of " +:+ fmt.v_strings listed
                        +:+ " is required, found: " +:+ fmt.v_strings found;
             Got := ""; Expected := "" |})
      end
    end
  end.

Definition checkMutuallyExclusive (node : yaml.Node) (schema : FieldSchema)
           (path : string) (foundKeys keyNodes : gmap string yaml.Node)
           (ctx : ValidationContext) : outcome ValidationContext :=
  match MutuallyExclusive schema with
  | [] => Done ctx
  | listed =>
    match foundAmong listed foundKeys with
    | (_ :: second :: _) as found =>
      match keyNodes !! second with
      | None => Panic
      | Some keyNode =>
        Done (AddError ctx
          {| Level := LevelError; Path := cleanPath path;
             Line := yaml.Line keyNode; Column := yaml.Column keyNode;
             Message := "fields " +:+ fmt.v_strings found
                        +:+ " are mutually exclusive";
             Got := ""; Expected := "" |})
      end
    | _ => Done ctx
    end
  end.

Definition conditionSuffix (rule : ConditionalRule) : string :=
  ConditionField rule +:+ "=" +:+ strconv_Quote (ConditionValue rule).

Definition checkConditions (node : yaml.Node) (schema : FieldSchema)
           (path : string) (foundKeys keyNodes : gmap string yaml.Node)
           (ctx : ValidationContext) : ValidationContext :=
  foldl (fun ctx rule =>
    match foundKeys !! ConditionField rule with
    | None => ctx
    | Some condNode =>
      if negb (yaml.kind_eqb (yaml.Kind condNode) yaml.ScalarNode) then ctx
      else if negb (str_eqb (yaml.Value condNode) (ConditionValue rule)) then ctx
      else
        let ctx :=
          foldl (fun ctx reqKey =>
                   if present foundKeys reqKey then ctx
                   else AddError ctx
                     {| Level := LevelError;
                        Path := cleanPath (joinPath path reqKey);
                        Line := yaml.Line condNode; Column := yaml.Column condNode;
                        Message := "field " +:+ strconv_Quote reqKey
                                   +:+ " is required when " +:+ conditionSuffix rule;
                        Got := ""; Expected := "" |})
                ctx (ThenRequired rule) in
        foldl (fun ctx forbKey =>
                 match keyNodes !! forbKey with
                 | None => ctx
                 | Some keyNode =>
                   AddError ctx
                     {| Level := LevelError;
                        Path := cleanPath (joinPath path forbKey);
                        Line := yaml.Line keyNode; Column := yaml.Column keyNode;
                        Message := "field " +:+ strconv_Quote forbKey
                                   +:+ " is forbidden when " +:+ conditionSuffix rule;
                        Got := ""; Expected := "" |}
                 end)
              ctx (ThenForbidden rule)
    end) ctx (Conditions schema).

(** ** Mappings, sequences, nodes *)

(** [validateNode] at the depth below, as the mapping and sequence code
    calls it. *)
Definition validateNodeT : Type :=
  yaml.Node -> option FieldSchema -> string -> ValidationContext ->
  outcome ValidationContext.

(** What the loop over the pairs of a mapping carries along. *)
Record mapState : Type := {
  ms_ctx : ValidationContext;
  foundKeys : gmap string yaml.Node;
  keyNodes : gmap string yaml.Node
}.

Definition runKeyValidators (kvs : list KeyValidator) (k : string)
           (keyNode : yaml.Node) (path : string) (ctx : ValidationContext)
  : ValidationContext :=
  foldl (fun ctx kv => ValidateKey kv k keyNode path ctx) ctx kvs.

(** The report of an unknown key, by policy. *)
Definition reportUnknownKey (schema : FieldSchema) (fieldPath : string)
           (keyNode valueNode : yaml.Node) (ctx : ValidationContext)
  : ValidationContext :=
  let '(level, report) := resolveUnknownKeyLevel (UnknownKeyPolicy' schema) ctx in
  if report then AddError ctx (unknownKeyError level fieldPath keyNode valueNode)
  else ctx.

(** One turn of the loop of [validateMapping], after its test of
    [ctx.IsStopped()]. *)
Definition validatePair (rec : validateNodeT) (schema : FieldSchema)
           (path : string) (kv : kvPair) (st : mapState) : outcome mapState :=
  let keyNode := key kv in
  let valueNode := value kv in
  let k := yaml.Value keyNode in
  let fieldPath := joinPath path k in
  let found := <[k := valueNode]> (foundKeys st) in
  let keys := <[k := keyNode]> (keyNodes st) in
  let ctx := runKeyValidators (KeyValidators schema) k keyNode
                              (cleanPath fieldPath) (ms_ctx st) in
  ctx' <- match AllowedKeys schema !! k with
          | Some fieldSchema => rec valueNode (Some fieldSchema) fieldPath ctx
          | None =>
            match AdditionalProperties schema with
            | Some ap => rec valueNode (Some ap) fieldPath ctx
            | None => Done (reportUnknownKey schema fieldPath keyNode valueNode ctx)
            end
          end ;;
  Done {| ms_ctx := ctx'; foundKeys := found; keyNodes := keys |}.

(** The loop over the pairs; [true] when it left through the [return] of a
    stopped context. *)
Fixpoint validatePairs (rec : validateNodeT) (schema : FieldSchema)
         (path : string) (pairs : list kvPair) (st : mapState)
  : outcome (bool * mapState) :=
  match pairs with
  | [] => Done (false, st)
  | kv :: rest =>
    if IsStopped (ms_ctx st) then Done (true, st)
    else
      st' <- validatePair rec schema path kv st ;;
      validatePairs rec schema path rest st'
  end.

Definition validateMapping (rec : validateNodeT) (node : yaml.Node)
           (schema : FieldSchema) (path : string) (ctx : ValidationContext)
  : outcome ValidationContext :=
  pairs <- expandMappingWithMerges node ;;
  r <- validatePairs rec schema path pairs
         {| ms_ctx := ctx; foundKeys := ∅; keyNodes := ∅ |} ;;
  let '(returned, st) := r in
  if returned then Done (ms_ctx st)
  else
    let ctx := checkRequiredFields node schema path (foundKeys st) (ms_ctx st) in
    let ctx := checkDefaults node schema path (foundKeys st) ctx in
    let ctx := checkAnyOf node schema path (foundKeys st) ctx in
    ctx <- checkExactlyOneOf node schema path (foundKeys st) (keyNodes st) ctx ;;
    ctx <- checkMutuallyExclusive node schema path (foundKeys st) (keyNodes st) ctx ;;
    Done (checkConditions node schema path (foundKeys st) (keyNodes st) ctx).

Definition itemCountError (node : yaml.Node) (path msg expected : string)
  : ValidationError :=
  {| Level := LevelError; Path := cleanPath path;
     Line := yaml.Line node; Column := yaml.Column node;
     Message := msg;
     Got := fmt.d (Z.of_nat (length (yaml.Content node)));
     Expected := expected |}.

Fixpoint validateItems (rec : validateNodeT) (itemSchema : FieldSchema)
         (path : string) (items : list yaml.Node) (i : Z)
         (ctx : ValidationContext) : outcome ValidationContext :=
  match items with
  | [] => Done ctx
  | item :: rest =>
    if IsStopped ctx then Done ctx
    else
      ctx' <- rec item (Some itemSchema) (path +:+ "[" +:+ fmt.d i +:+ "]") ctx ;;
      validateItems rec itemSchema path rest (i + 1) ctx'
  end.

Definition validateSequence (rec : validateNodeT) (node : yaml.Node)
           (schema : FieldSchema) (path : string) (ctx : ValidationContext)
  : outcome ValidationContext :=
  let length := Z.of_nat (length (yaml.Content node)) in
  let ctx :=
    match MinItems schema with
    | Some min =>
      if length <? min
      then AddError ctx (itemCountError node path "too few items"
                                        ("at least " +:+ fmt.d min))
      else ctx
    | None => ctx
    end in
  let ctx :=
    match MaxItems schema with
    | Some max =>
      if max <? length
      then AddError ctx (itemCountError node path "too many items"
                                        ("at most " +:+ fmt.d max))
      else ctx
    | None => ctx
    end in
  match ItemSchema schema with
  | None => Done ctx
  | Some itemSchema => validateItems rec itemSchema path (yaml.Content node) 0 ctx
  end.

Fixpoint runValidators (vs : list ValueValidator) (node : yaml.Node)
         (path : string) (ctx : ValidationContext) : ValidationContext :=
  match vs with
  | [] => ctx
  | validator :: rest =>
    if IsStopped ctx then ctx
    else runValidators rest node path (Validate validator node path ctx)
  end.

Definition unresolvedAliasError (node : yaml.Node) (path : string)
  : ValidationError :=
  {| Level := LevelError; Path := cleanPath path;
     Line := yaml.Line node; Column := yaml.Column node;
     Message := "unresolved alias"; Got := ""; Expected := "" |}.

Definition deprecatedWarning (node : yaml.Node) (schema : FieldSchema)
           (path : string) : ValidationError :=
  {| Level := LevelWarning; Path := cleanPath path;
     Line := yaml.Line node; Column := yaml.Column node;
     Message := if str_eqb (Deprecated schema) "true"
                then "this field is deprecated" else Deprecated schema;
     Got := ""; Expected := "" |}.

(** [validateNode]. One unit of fuel is spent per call that gets past the
    first test; the recursion of the code follows the schema downwards. *)
Fixpoint validateNode (fuel : nat) (node : yaml.Node)
         (schema : option FieldSchema) (path : string)
         (ctx : ValidationContext) {struct fuel} : outcome ValidationContext :=
  match schema with
  | None => Done ctx
  | Some schema =>
    if IsStopped ctx then Done ctx
    else
      match fuel with
      | O => OutOfFuel
      | S fuel' =>
        let resolved :=
          match yaml.Kind node with
          | yaml.AliasNode =>
            match yaml.Alias node with
            | Some target => Some target
            | None => None
            end
          | _ => Some node
          end in
        match resolved with
        | None => Done (AddError ctx (unresolvedAliasError node path))
        | Some node =>
          let ctx :=
            if negb (str_eqb (Deprecated schema) "")
            then AddError ctx (deprecatedWarning node schema path)
            else ctx in
          let '(ok, ctx) := checkTypeWithSchema node schema path ctx in
          if negb ok then Done ctx
          else
            ctx <- match yaml.Kind node with
                   | yaml.MappingNode =>
                     validateMapping (validateNode fuel') node schema path ctx
                   | yaml.SequenceNode =>
                     validateSequence (validateNode fuel') node schema path ctx
                   | _ => Done ctx
                   end ;;
            Done (runValidators (Validators schema) node (cleanPath path) ctx)
        end
      end
  end.

(** ** The driver *)

Record Validator : Type := { schema : option FieldSchema }.

Definition NewValidator (schema : option FieldSchema) : Validator :=
  {| schema := schema |}.

Record ValidationResult : Type := {
  Collector : ErrorCollector;
  ResultSourceLines : list string
}.

Definition ValidationResult_HasErrors (r : ValidationResult) : bool :=
  HasErrors (Collector r).

Definition parseYAMLError (msg : string) (docIndex : Z) : ValidationError :=
  let '(line, col) :=
    match yamlErrorLineColRe msg with
    | Some (m1, m2) => (strconv.Atoi_value m1, strconv.Atoi_value m2)
    | None =>
      match yamlErrorLineRe msg with
      | Some m1 => (strconv.Atoi_value m1, 0)
      | None => (0, 0)
      end
    end in
  {| Level := LevelError; Path := "doc[" +:+ fmt.d docIndex +:+ "]";
     Line := line; Column := col; Message := msg; Got := ""; Expected := "" |}.

(** The loop of [validateWithContext] over what the decoder yields. *)
Fixpoint validateDocs (fuel : nat) (v : Validator) (docs : list yaml.Decoded)
         (docIndex : Z) (ctx : ValidationContext) : outcome ValidationContext :=
  match docs with
  | [] => Done ctx
  | yaml.DecodeErr msg :: _ => Done (AddError ctx (parseYAMLError msg docIndex))
  | yaml.DecodeOk root :: rest =>
    ctx' <- match yaml.Kind root, yaml.Content root with
            | yaml.DocumentNode, first :: _ =>
              let prefix := if 0 <? docIndex
                            then "doc[" +:+ fmt.d docIndex +:+ "]" else "" in
              validateNode fuel first (schema v) prefix ctx
            | _, _ => Done ctx
            end ;;
    if IsStopped ctx' then Done ctx'
    else validateDocs fuel v rest (docIndex + 1) ctx'
  end.

Definition validateWithContext (fuel : nat) (v : Validator) (data : string)
           (ctx : ValidationContext) : outcome ValidationContext :=
  validateDocs fuel v (yaml_Decode data) 0 ctx.

Definition splitLines (data : string) : list string := bufio_ScanLines data.

Definition ValidateBytes (fuel : nat) (v : Validator) (data : string)
  : outcome ValidationResult :=
  let ctx := set_SourceLines NewValidationContext (splitLines data) in
  ctx' <- validateWithContext fuel v data ctx ;;
  Done {| Collector := collector ctx'; ResultSourceLines := SourceLines ctx' |}.

Definition ValidateWithOptions (fuel : nat) (v : Validator) (data : string)
           (opts : ValidationContext) : outcome ValidationResult :=
  let ctx := set_SourceLines (set_collector opts NewErrorCollector)
                             (splitLines data) in
  ctx' <- validateWithContext fuel v data ctx ;;
  Done {| Collector := collector ctx'; ResultSourceLines := SourceLines ctx' |}.

(** ** Error formatting *)

Definition tabWidth : Z := 4.

(** What the loop of [renderLineWithCaret] carries along. *)
Record renderState : Type := {
  sb : list Z;
  visual : Z;
  visualCol : Z;
  caretSet : bool
}.

(** The loop over the bytes left of the line, [bytePos] bytes in; every
    turn consumes at least one byte, the fuel is their number. *)
Fixpoint renderLoop (fuel : nat) (rest : list Z) (bytePos byteCol : Z)
         (st : renderState) : renderState :=
  match fuel with
  | O => st
  | S fuel' =>
    match rest with
    | [] => st
    | _ :: _ =>
      let set := negb (caretSet st) && (0 <? byteCol) && (byteCol - 1 <=? bytePos) in
      let vcol := if set then visual st + 1 else visualCol st in
      let cset := if set then true else caretSet st in
      let '(r, size) := utf8.DecodeRune rest in
      let r := if (r =? utf8.RuneError) && (size =? 1)%nat then 65533 else r in
      let st' :=
        if r =? 9 then
          let spacesToAdd := tabWidth - (visual st mod tabWidth) in
          {| sb := sb st ++ repeat 32 (Z.to_nat spacesToAdd);
             visual := visual st + spacesToAdd;
             visualCol := vcol; caretSet := cset |}
        else
          {| sb := sb st ++ utf8.EncodeRune r; visual := visual st + 1;
             visualCol := vcol; caretSet := cset |} in
      renderLoop fuel' (drop size rest) (bytePos + Z.of_nat size) byteCol st'
    end
  end.

(** [renderLineWithCaret]: the rendered line, the visual column of the
    caret (0 for none) and the rendered length. *)
Definition renderLineWithCaret (line : string) (byteCol : Z) : string * Z * Z :=
  let byteCol := if len line + 1 <? byteCol then len line + 1 else byteCol in
  let bs := bytes_of line in
  let st := renderLoop (length bs) bs 0 byteCol
              {| sb := []; visual := 0; visualCol := 0; caretSet := false |} in
  let vcol := if negb (caretSet st) && (0 <? byteCol)
              then visual st + 1 else visualCol st in
  (string_of_bytes (sb st), vcol, visual st).

Definition contextLine (marker : string) (n : Z) (rendered : string) : string :=
  marker +:+ " " +:+ fmt.d4 n +:+ " | " +:+ rendered +:+ String (chr 10) "".

Definition FormatErrorWithSource (err : ValidationError) (lines : list string)
  : string :=
  let head := ValidationError_Error err +:+ String (chr 10) "" in
  if (Line err <=? 0) || (Z.of_nat (length lines) <? Line err) then head
  else
    let lineIdx := Z.to_nat (Line err - 1) in
    let before :=
      if (0 <? lineIdx)%nat then
        contextLine " " (Line err - 1)
          (renderLineWithCaret (nth (lineIdx - 1) lines "") 0).1.1
      else "" in
    let '(currentRendered, vcol, renderedLen) :=
      renderLineWithCaret (nth lineIdx lines "") (Column err) in
    let current := contextLine ">" (Line err) currentRendered in
    let caret :=
      if 0 <? vcol then
        let vcol := if renderedLen + 1 <? vcol then renderedLen + 1 else vcol in
        "       | " +:+ gostrings.Repeat " " (Z.to_nat (vcol - 1))
                    +:+ "^" +:+ String (chr 10) ""
      else "" in
    let after :=
      if (lineIdx + 1 <? length lines)%nat then
        contextLine " " (Line err + 1)
          (renderLineWithCaret (nth (lineIdx + 1) lines "") 0).1.1
      else "" in
    head +:+ before +:+ current +:+ caret +:+ after.

(** The body of the loop of [FormatAll] over the chosen items. *)
Definition formatItems (lines : list string) (items : list ValidationError)
  : string :=
  foldl (fun out err =>
           out +:+ FormatErrorWithSource err lines +:+ String (chr 10) "")
        "" items.

(** ** Sorting by position *)

(** The [less] closure of [SortByPosition] and [sortedAllByPosition]. *)
Definition lessByPosition (a b : ValidationError) : bool :=
  if negb (Line a =? Line b) then Line a <? Line b
  else if negb (Column a =? Column b) then Column a <? Column b
  else level_int (Level b) <? level_int (Level a).

(** What [sort.Slice] promises of its result [ys] on the input [xs]: the
    same elements, in an order in which no later one is less than an earlier
    one. The sort is not stable: equal elements may come out in any order. *)
Definition sort_Slice {A : Type} (less : A -> A -> bool) (xs ys : list A) : Prop :=
  Permutation xs ys /\ StronglySorted (fun a b => less b a = false) ys.

(** The collector [SortByPosition] rebuilds from the sorted items. *)
Definition rebuild (all : list ValidationError) : ErrorCollector :=
  foldl Add NewErrorCollector all.

(** [ValidationResult.SortByPosition], from the result before the call to
    the result after it. *)
Inductive SortByPosition (r : ValidationResult) : ValidationResult -> Prop :=
  | SortByPosition_intro (all : list ValidationError) :
      sort_Slice lessByPosition (All (Collector r)) all ->
      SortByPosition r {| Collector := rebuild all;
                          ResultSourceLines := ResultSourceLines r |}.

(** [ValidationResult.FormatAll(sortByPos)] and the text it returns. *)
Inductive FormatAll (r : ValidationResult) : bool -> string -> Prop :=
  | FormatAll_insertion :
      FormatAll r false (formatItems (ResultSourceLines r) (All (Collector r)))
  | FormatAll_sorted (items : list ValidationError) :
      sort_Slice lessByPosition (All (Collector r)) items ->
      FormatAll r true (formatItems (ResultSourceLines r) items).

(** An insertion sort from the right, one of the orders [sort.Slice] may
    produce: it shows that [SortByPosition] always has a result. *)
Fixpoint insertByPosition (x : ValidationError) (sorted : list ValidationError)
  : list ValidationError :=
  match sorted with
  | [] => [x]
  | y :: rest =>
    if lessByPosition x y then x :: y :: rest
    else y :: insertByPosition x rest
  end.

Definition insertionSort (l : list ValidationError) : list ValidationError :=
  foldr insertByPosition [] l.

End Validator.

(* ===================================================================== *)
(** * Package pkg/valuevalidator: the range validator *)
(* ===================================================================== *)

Module valuevalidator.
Section Range.
Context {lib : GoLib}.

Record RangeValidator : Type := {
  Min : option float64;
  Max : option float64
}.

Definition hasAnyPrefix (s a b : string) : bool :=
  gostrings.HasPrefix s a || gostrings.HasPrefix s b.

(** [parseYAMLNumber]; [None] when the returned error is not nil. *)
Definition parseYAMLNumber (node : yaml.Node) : option float64 :=
  let val := yaml.Value node in
  let lower := gostrings.ToLower val in
  if str_eqb lower ".inf" || str_eqb lower "+.inf" || str_eqb lower "-.inf" then
    Some (S754_infinity (gostrings.HasPrefix lower "-"))
  else if str_eqb lower ".nan" then Some S754_nan
  else
    match strconv.ParseFloat val with
    | Some f => Some f
    | None =>
      let '(sign, s) :=
        if gostrings.HasPrefix val "+" then (1, drop_str 1 val)
        else if gostrings.HasPrefix val "-" then (-1, drop_str 1 val)
        else (1, val) in
      let signed (i : Z) : float64 :=
        SFmul f64_prec f64_emax (strconv.float64_of_int sign)
              (strconv.float64_of_int i) in
      let octal :=
        if hasAnyPrefix s "0o" "0O" then strconv.ParseInt (drop_str 2 s) 8
        else None in
      match octal with
      | Some i => Some (signed i)
      | None =>
        let binary :=
          if hasAnyPrefix s "0b" "0B" then strconv.ParseInt (drop_str 2 s) 2
          else None in
        match binary with
        | Some i => Some (signed i)
        | None =>
          match strconv.ParseInt s 0 with
          | Some i => Some (signed i)
          | None => None
          end
        end
      end
    end.

Definition rangeError (node : yaml.Node) (path msg got expected : string)
  : ValidationError :=
  {| Level := LevelError; Path := path;
     Line := yaml.Line node; Column := yaml.Column node;
     Message := msg; Got := got; Expected := expected |}.

(** [RangeValidator.Validate] *)
Definition RangeValidator_Validate (vld : RangeValidator) (node : yaml.Node)
           (path : string) (ctx : ValidationContext) : ValidationContext :=
  match parseYAMLNumber node with
  | None =>
    AddError ctx (rangeError node path "expected numeric value"
                             (yaml.Value node) "")
  | Some val =>
    let ctx :=
      match Min vld with
      | Some min =>
        if SFltb val min
        then AddError ctx (rangeError node path "value below minimum"
                                      (fmt_float64 val) (">= " +:+ fmt_float64 min))
        else ctx
      | None => ctx
      end in
    match Max vld with
    | Some max =>
      if SFltb max val
      then AddError ctx (rangeError node path "value above maximum"
                                    (fmt_float64 val) ("<= " +:+ fmt_float64 max))
      else ctx
    | None => ctx
    end
  end.

(** The range validator as a [ValueValidator]. *)
Definition Range (vld : RangeValidator) : ValueValidator :=
  {| Validate := RangeValidator_Validate vld |}.

End Range.

(** ** enum.go *)
Module enum.
Section Enum.
Context {lib : GoLib}.

(** [Message_] is the field [Message]. *)
Record EnumValidator : Type := {
  Allowed : list string;
  Message_ : string
}.

Definition enumError (vld : EnumValidator) (node : yaml.Node) (path : string)
  : ValidationError :=
  {| Level := LevelError; Path := path;
     Line := yaml.Line node; Column := yaml.Column node;
     Message := if str_eqb (Message_ vld) ""
                then "invalid value " +:+ strconv_Quote (yaml.Value node)
                else Message_ vld;
     Got := yaml.Value node;
     Expected := "one of " +:+ fmt.v_strings (Allowed vld) |}.

(** [EnumValidator.Validate] *)
Definition EnumValidator_Validate (vld : EnumValidator) (node : yaml.Node)
           (path : string) (ctx : ValidationContext) : ValidationContext :=
  if existsb (fun allowed => str_eqb (yaml.Value node) allowed) (Allowed vld)
  then ctx
  else AddError ctx (enumError vld node path).

Definition Enum (vld : EnumValidator) : ValueValidator :=
  {| Validate := EnumValidator_Validate vld |}.

End Enum.
End enum.

(** ** nonempty.go *)
Module nonempty.

Definition isEmpty (node : yaml.Node) : bool :=
  match yaml.Kind node with
  | yaml.ScalarNode => str_eqb (yaml.Value node) ""
  | yaml.SequenceNode | yaml.MappingNode =>
    (length (yaml.Content node) =? 0)%nat
  | _ => false
  end.

Definition emptyError (node : yaml.Node) (path : string) : ValidationError :=
  {| Level := LevelError; Path := path;
     Line := yaml.Line node; Column := yaml.Column node;
     Message := "value cannot be empty"; Got := ""; Expected := "" |}.

(** [NonEmptyValidator.Validate] *)
Definition NonEmptyValidator_Validate (node : yaml.Node) (path : string)
           (ctx : ValidationContext) : ValidationContext :=
  if isEmpty node then AddError ctx (emptyError node path) else ctx.

Definition NonEmpty : ValueValidator :=
  {| Validate := NonEmptyValidator_Validate |}.

End nonempty.

(** ** length.go *)
Module length.

Record LengthValidator : Type := {
  Min : option Z;
  Max : option Z
}.

(** The length the validator measures: bytes of a scalar, items of a
    sequence, half the children of a mapping, 0 for anything else. *)
Definition measured (node : yaml.Node) : Z :=
  match yaml.Kind node with
  | yaml.ScalarNode => len (yaml.Value node)
  | yaml.SequenceNode => Z.of_nat (List.length (yaml.Content node))
  | yaml.MappingNode => Z.of_nat (List.length (yaml.Content node)) / 2
  | _ => 0
  end.

Definition lengthError (node : yaml.Node) (path msg expected : string)
  : ValidationError :=
  {| Level := LevelError; Path := path;
     Line := yaml.Line node; Column := yaml.Column node;
     Message := msg; Got := fmt.d (measured node); Expected := expected |}.

(** [LengthValidator.Validate] *)
Definition LengthValidator_Validate (vld : LengthValidator) (node : yaml.Node)
           (path : string) (ctx : ValidationContext) : ValidationContext :=
  let ctx :=
    match Min vld with
    | Some min =>
      if measured node <? min
      then AddError ctx (lengthError node path "length below minimum"
                                     (">= " +:+ fmt.d min))
      else ctx
    | None => ctx
    end in
  match Max vld with
  | Some max =>
    if max <? measured node
    then AddError ctx (lengthError node path "length above maximum"
                                   ("<= " +:+ fmt.d max))
    else ctx
  | None => ctx
  end.

Definition Length (vld : LengthValidator) : ValueValidator :=
  {| Validate := LengthValidator_Validate vld |}.

End length.

(** ** The URL validator *)
Module url.

Record URLValidator : Type := {
  RequireScheme : bool;
  AllowedSchemes : list string
}.

Definition isLetter (c : Z) : bool :=
  ((97 <=? c) && (c <=? 122)) || ((65 <=? c) && (c <=? 90)).

(** A byte allowed after the first one of a scheme: a digit, [+], [-], [.] *)
Definition isSchemeExtra (c : Z) : bool :=
  is_digit c || (c =? 43) || (c =? 45) || (c =? 46).

(** The loop of [findSchemeEnd] at index [i], over the bytes from [i] on. *)
Fixpoint findSchemeEnd_loop (s : list Z) (i : Z) : Z :=
  match s with
  | [] => -1
  | c :: rest =>
    if c =? 58 then
      match rest with
      | c1 :: c2 :: _ =>
        if (0 <? i) && (c1 =? 47) && (c2 =? 47) then i else -1
      | _ => -1
      end
    else if negb (isLetter c || ((0 <? i) && isSchemeExtra c)) then -1
    else findSchemeEnd_loop rest (i + 1)
  end.

Definition findSchemeEnd (s : string) : Z := findSchemeEnd_loop (bytes_of s) 0.

Definition urlError (node : yaml.Node) (path msg got expected : string)
  : ValidationError :=
  {| Level := LevelError; Path := path;
     Line := yaml.Line node; Column := yaml.Column node;
     Message := msg; Got := got; Expected := expected |}.

(** [URLValidator.Validate] *)
Definition URLValidator_Validate (vld : URLValidator) (node : yaml.Node)
           (path : string) (ctx : ValidationContext) : ValidationContext :=
  let val := yaml.Value node in
  let idx := findSchemeEnd val in
  let hasScheme := 0 <? idx in
  let scheme := if hasScheme then take_str (Z.to_nat idx) val else "" in
  if RequireScheme vld && negb hasScheme then
    AddError ctx (urlError node path "URL must include scheme" val "")
  else if hasScheme && (0 <? List.length (AllowedSchemes vld))%nat then
    if existsb (fun s => str_eqb scheme s) (AllowedSchemes vld) then ctx
    else AddError ctx (urlError node path "URL scheme not allowed" scheme
                                ("one of " +:+ fmt.v_strings (AllowedSchemes vld)))
  else ctx.

Definition URL (vld : URLValidator) : ValueValidator :=
  {| Validate := URLValidator_Validate vld |}.

End url.

End valuevalidator.

(* ===================================================================== *)
(** * Package pkg/keyvalidator *)
(* ===================================================================== *)

Module keyvalidator.
Section Keys.
Context {lib : GoLib}.

(** [Message_] is the field [Message]. *)
Record ForbiddenKeyValidator : Type := {
  Forbidden : list string;
  Message_ : string
}.

Definition forbiddenError (vld : ForbiddenKeyValidator) (k : string)
           (keyNode : yaml.Node) (path : string) : ValidationError :=
  {| Level := LevelError; Path := path;
     Line := yaml.Line keyNode; Column := yaml.Column keyNode;
     Message := if str_eqb (Message_ vld) ""
                then "key " +:+ strconv_Quote k +:+ " is forbidden"
                else Message_ vld;
     Got := k; Expected := "" |}.

(** [ForbiddenKeyValidator.ValidateKey]: the loop returns at the first
    match. *)
Fixpoint ForbiddenKeyValidator_loop (vld : ForbiddenKeyValidator)
         (forbidden : list string) (k : string) (keyNode : yaml.Node)
         (path : string) (ctx : ValidationContext) : ValidationContext :=
  match forbidden with
  | [] => ctx
  | f :: rest =>
    if str_eqb k f then AddError ctx (forbiddenError vld k keyNode path)
    else ForbiddenKeyValidator_loop vld rest k keyNode path ctx
  end.

Definition ForbiddenKeyValidator_ValidateKey (vld : ForbiddenKeyValidator)
           (k : string) (keyNode : yaml.Node) (path : string)
           (ctx : ValidationContext) : ValidationContext :=
  ForbiddenKeyValidator_loop vld (Forbidden vld) k keyNode path ctx.

Definition ForbiddenKey (vld : ForbiddenKeyValidator) : KeyValidator :=
  {| ValidateKey := ForbiddenKeyValidator_ValidateKey vld |}.

Record LengthKeyValidator : Type := {
  Min : option Z;
  Max : option Z
}.

(** [utf8.RuneCountInString] *)
Definition RuneCountInString (s : string) : Z :=
  Z.of_nat (List.length (utf8.runes (bytes_of s))).

Definition keyLengthError (k : string) (keyNode : yaml.Node)
           (path msg expected : string) : ValidationError :=
  {| Level := LevelError; Path := path;
     Line := yaml.Line keyNode; Column := yaml.Column keyNode;
     Message := msg;
     Got := fmt.d (RuneCountInString k) +:+ " characters";
     Expected := expected |}.

(** [LengthKeyValidator.ValidateKey] *)
Definition LengthKeyValidator_ValidateKey (vld : LengthKeyValidator)
           (k : string) (keyNode : yaml.Node) (path : string)
           (ctx : ValidationContext) : ValidationContext :=
  let ctx :=
    match Min vld with
    | Some min =>
      if RuneCountInString k <? min
      then AddError ctx (keyLengthError k keyNode path "key too short"
                           (">= " +:+ fmt.d min +:+ " characters"))
      else ctx
    | None => ctx
    end in
  match Max vld with
  | Some max =>
    if max <? RuneCountInString k
    then AddError ctx (keyLengthError k keyNode path "key too long"
                         ("<= " +:+ fmt.d max +:+ " characters"))
    else ctx
  | None => ctx
  end.

Definition LengthKey (vld : LengthKeyValidator) : KeyValidator :=
  {| ValidateKey := LengthKeyValidator_ValidateKey vld |}.

End Keys.
End keyvalidator.

(* ===================================================================== *)
(** * Merge-key expansion as the specification words it *)
(* ===================================================================== *)

Section MergeSpec.
Context {lib : GoLib}.

(** The name of the key of a pair. *)
Definition keyName (kv : kvPair) : string := yaml.Value (key kv).

(** The key/value pairs of a mapping, in source order. *)
Fixpoint pairsOf (content : list yaml.Node) : outcome (list kvPair) :=
  match content with
  | [] => Done []
  | [_] => Panic
  | k :: v :: rest =>
    ps <- pairsOf rest ;;
    Done ({| key := k; value := v |} :: ps)
  end.

(** Concatenation in source order. *)
Fixpoint concatAll (parts : list (outcome (list kvPair))) : outcome (list kvPair) :=
  match parts with
  | [] => Done []
  | part :: rest =>
    a <- part ;;
    b <- concatAll rest ;;
    Done (a ++ b)
  end.

(** The pairs a merge value stands for: the pairs of an aliased or literal
    map; for a sequence, the pairs of each element in order; nothing else. *)
Fixpoint mergedPairs (val : yaml.Node) : outcome (list kvPair) :=
  match val with
  | yaml.mkNode k _ _ alias content _ _ =>
    match k with
    | yaml.AliasNode =>
      match alias with
      | Some target => mergedPairs target
      | None => Done []
      end
    | yaml.MappingNode => pairsOf content
    | yaml.SequenceNode => concatAll (map mergedPairs content)
    | _ => Done []
    end
  end.

(** An entry named [<<] is replaced by the pairs of its value. *)
Definition entryPairs (kv : kvPair) : outcome (list kvPair) :=
  if str_eqb (keyName kv) "<<" then mergedPairs (value kv) else Done [kv].

(** Of each key exactly the last occurrence is kept. *)
Fixpoint keepLast (pairs : list kvPair) : list kvPair :=
  match pairs with
  | [] => []
  | kv :: rest =>
    if existsb (fun kv' => str_eqb (keyName kv') (keyName kv)) rest
    then keepLast rest
    else kv :: keepLast rest
  end.

Definition expansionSpec (node : yaml.Node) : outcome (list kvPair) :=
  entries <- pairsOf (yaml.Content node) ;;
  all <- concatAll (map entryPairs entries) ;;
  Done (keepLast all).

(** The index of the last pair named [k], if any. *)
Fixpoint lastIndex (k : string) (pairs : list kvPair) : option nat :=
  match pairs with
  | [] => None
  | kv :: rest =>
    match lastIndex k rest with
    | Some j => Some (S j)
    | None => if str_eqb (keyName kv) k then Some 0%nat else None
    end
  end.

End MergeSpec.

(* ===================================================================== *)
(** * A run time for the examples, and their data *)
(* ===================================================================== *)

Definition quoteAscii (s : string) : string :=
  String (chr 34) (s +:+ String (chr 34) "").

Definition scalar (tag val : string) (line col : Z) : yaml.Node :=
  yaml.mkNode yaml.ScalarNode tag val None [] line col.

Definition mapping (content : list yaml.Node) (line col : Z) : yaml.Node :=
  yaml.mkNode yaml.MappingNode "!!map" "" None content line col.

Definition aliasTo (target : option yaml.Node) (line col : Z) : yaml.Node :=
  yaml.mkNode yaml.AliasNode "" "ref" target [] line col.

(** The document [kind: x] followed by [other: 1]. *)
Definition exampleDocument : yaml.Node :=
  yaml.mkNode yaml.DocumentNode "" "" None
    [mapping [scalar "!!str" "kind" 1 1; scalar "!!str" "x" 1 7;
              scalar "!!str" "other" 2 1; scalar "!!int" "1" 2 8] 1 1] 1 1.

(** A run time in which the input decodes to [exampleDocument], strings are
    quoted without escapes and a map is ranged over in the order of its
    listing. Only ASCII text goes through it in the examples. *)
Definition exampleLib : GoLib := {|
  unicode_ToLower := fun r => r;
  strconv_Quote := quoteAscii;
  fmt_float64 := fun _ => "float";
  GoAny := string;
  fmt_any := fun s => s;
  yamlErrorLineColRe := fun _ => None;
  yamlErrorLineRe := fun _ => None;
  yaml_Decode := fun _ => [yaml.DecodeOk exampleDocument];
  bufio_ScanLines := fun s => [s];
  map_range := fun A m => map_to_list m;
  map_range_perm := fun A m => Permutation_refl _
|}.

(** [*ref], resolving to [{timeout: 30, host: "y"}] defined at line 1 *)
Definition refTarget : yaml.Node :=
  mapping [scalar "!!str" "timeout" 1 12; scalar "!!int" "30" 1 21;
           scalar "!!str" "host" 1 25; scalar "!!str" "y" 1 31] 1 11.

(** [{<<: *ref, host: "x"}] at line 3 *)
Definition mergeExample : yaml.Node :=
  mapping [scalar "!!merge" "<<" 3 3; aliasTo (Some refTarget) 3 7;
           scalar "!!str" "host" 4 3; scalar "!!str" "x" 4 9] 3 3.

(** [{<<: 5, host: "x"}]: a merge key with a scalar value *)
Definition scalarMergeExample : yaml.Node :=
  mapping [scalar "!!merge" "<<" 3 3; scalar "!!int" "5" 3 7;
           scalar "!!str" "host" 4 3; scalar "!!str" "x" 4 9] 3 3.

Definition emptySchema {lib : GoLib} (t : NodeType) : FieldSchema :=
  {| Type' := t; Required := false; Nullable := false; Deprecated := "";
     Description := ""; Default := None; AllowedKeys := ∅;
     AdditionalProperties := None; UnknownKeyPolicy' := UnknownKeyInherit;
     KeyValidators := []; ItemSchema := None; MinItems := None;
     MaxItems := None; Validators := []; AnyOf := []; ExactlyOneOf := [];
     MutuallyExclusive := []; Conditions := [] |}.

Definition diag (level : ErrorLevel) (line col : Z) (msg : string)
  : ValidationError :=
  {| Level := level; Path := ""; Line := line; Column := col;
     Message := msg; Got := ""; Expected := "" |}.

(* ===================================================================== *)
(** * Predicates of the statements *)
(* ===================================================================== *)

Section Predicates.
Context {lib : GoLib}.

(** The cases in which the specification lets the type check pass. *)
Definition typeCheckPasses (node : yaml.Node) (schema : FieldSchema)
           (ctx : ValidationContext) : Prop :=
  Type' schema = TypeAny
  \/ inferType node ctx = Type' schema
  \/ (inferType node ctx = TypeNull
      /\ (Type' schema = TypeNull \/ Nullable schema = true))
  \/ (Type' schema = TypeFloat /\ inferType node ctx = TypeInt).

End Predicates.

Section MorePredicates.

(** From [ctx] to [ctx'] exactly one Error, [e], was recorded and no
    warning. *)
Definition recordsOneError (ctx ctx' : ValidationContext) (e : ValidationError)
  : Prop :=
  Level e = LevelError
  /\ errors (collector ctx') = errors (collector ctx) ++ [e]
  /\ warnings (collector ctx') = warnings (collector ctx).

(** From [ctx] to [ctx'] exactly one Warning, [w], was recorded and no
    error. *)
Definition recordsOneWarning (ctx ctx' : ValidationContext) (w : ValidationError)
  : Prop :=
  Level w = LevelWarning
  /\ errors (collector ctx') = errors (collector ctx)
  /\ warnings (collector ctx') = warnings (collector ctx) ++ [w].

(** Every key with a value in [found] has its key node in [keys], as in the
    two maps [validateMapping] fills side by side. *)
Definition keysInStep (found keys : gmap string yaml.Node) : Prop :=
  forall k, is_Some (found !! k) -> is_Some (keys !! k).

End MorePredicates.

Section LiteralPredicates.
Context {lib : GoLib}.

(** The tags the parser resolves and [inferScalarType] trusts. *)
Definition resolvedTag (tag : string) : bool :=
  str_eqb tag "!!str" || str_eqb tag "!!int" || str_eqb tag "!!float"
  || str_eqb tag "!!bool" || str_eqb tag "!!null".

(** The integer literals of the claim: decimal, hexadecimal, YAML 1.2 octal
    and binary, all of them 42. *)
Definition intLiterals : list string := ["42"; "0x2A"; "0o52"; "0b101010"].

(** [RangeValidator{Min: 0, Max: 100}] *)
Definition range_0_100 : ValueValidator :=
  valuevalidator.Range
    {| valuevalidator.Min := Some (strconv.float64_of_int 0);
       valuevalidator.Max := Some (strconv.float64_of_int 100) |}.

End LiteralPredicates.

Section SortPredicates.

(** What [lessByPosition] compares: the line, the column and the level. *)
Definition positionKey (e : ValidationError) : Z * Z * ErrorLevel :=
  (Line e, Column e, Level e).

(** The order the sort establishes: no later element is less than an
    earlier one. *)
Definition notAfter (a b : ValidationError) : Prop := lessByPosition b a = false.

(** A required field missing from the map at line 2, column 1. *)
Definition missing (field : string) : ValidationError :=
  {| Level := LevelError; Path := field; Line := 2; Column := 1;
     Message := "required field is missing"; Got := ""; Expected := "" |}.

(** A deprecation at line 1. *)
Definition deprecatedAtLine1 : ValidationError :=
  {| Level := LevelWarning; Path := "old"; Line := 1; Column := 1;
     Message := "this field is deprecated"; Got := ""; Expected := "" |}.

Definition resultOf (errs warns : list ValidationError) : ValidationResult :=
  {| Collector := {| errors := errs; warnings := warns |};
     ResultSourceLines := [] |}.

(** Twelve missing fields reported at one map, after a warning on the line
    above: thirteen diagnostics, twelve of them equal under the order. *)
Definition twelveMissing : ValidationResult :=
  resultOf [missing "f01"; missing "f02"; missing "f03"; missing "f04";
            missing "f05"; missing "f06"; missing "f07"; missing "f08";
            missing "f09"; missing "f10"; missing "f11"; missing "f12"]
           [deprecatedAtLine1].

(** An order [sort.Slice] may leave those thirteen in: the warning first,
    the errors permuted among themselves. *)
Definition sortedOnce : list ValidationError :=
  [deprecatedAtLine1;
   missing "f07"; missing "f03"; missing "f04"; missing "f05";
   missing "f06"; missing "f01"; missing "f08"; missing "f09";
   missing "f10"; missing "f11"; missing "f12"; missing "f02"].

(** And the order after the same permutation once more. *)
Definition sortedTwice : list ValidationError :=
  [deprecatedAtLine1;
   missing "f08"; missing "f04"; missing "f05"; missing "f06";
   missing "f01"; missing "f07"; missing "f09"; missing "f10";
   missing "f11"; missing "f12"; missing "f02"; missing "f03"].

Definition afterFirstSort : ValidationResult :=
  {| Collector := rebuild sortedOnce; ResultSourceLines := [] |}.

Definition afterSecondSort : ValidationResult :=
  {| Collector := rebuild sortedTwice; ResultSourceLines := [] |}.

(** The line [e-acute x]: a two-byte scalar followed by an ASCII letter. *)
Definition eAcuteX : string := string_of_bytes [195; 169; 120].

(** The line of the specification's example: a, b, a tab, c, d. *)
Definition abTabCd : string := "ab" +:+ String (chr 9) "cd".

End SortPredicates.


Section ExampleSchemas.
Context {lib : GoLib}.

(** [&FieldSchema{Type: TypeMap, ExactlyOneOf: []string{"a", "b"}}] *)
Definition exactlyOneSchema : FieldSchema :=
  {| Type' := TypeMap; Required := false; Nullable := false; Deprecated := "";
     Description := ""; Default := None; AllowedKeys := ∅;
     AdditionalProperties := None; UnknownKeyPolicy' := UnknownKeyIgnore;
     KeyValidators := []; ItemSchema := None; MinItems := None;
     MaxItems := None; Validators := []; AnyOf := [];
     ExactlyOneOf := ["a"; "b"];
     MutuallyExclusive := []; Conditions := [] |}.

(** [&FieldSchema{Type: TypeInt, Validators: {RangeValidator{0, 100}}}] *)
Definition intRangeSchema : FieldSchema :=
  {| Type' := TypeInt; Required := false; Nullable := false; Deprecated := "";
     Description := ""; Default := None; AllowedKeys := ∅;
     AdditionalProperties := None; UnknownKeyPolicy' := UnknownKeyInherit;
     KeyValidators := []; ItemSchema := None; MinItems := None;
     MaxItems := None; Validators := [range_0_100]; AnyOf := [];
     ExactlyOneOf := []; MutuallyExclusive := []; Conditions := [] |}.

(** The keys [a] (line 1) and [b] (line 2) of a map, and their values. *)
Definition foundAB : gmap string yaml.Node :=
  <["a" := scalar "!!int" "1" 1 4]> (<["b" := scalar "!!int" "2" 2 4]> ∅).

Definition keyNodesAB : gmap string yaml.Node :=
  <["a" := scalar "!!str" "a" 1 1]> (<["b" := scalar "!!str" "b" 2 1]> ∅).

(** The pair [kind: x] of [exampleDocument]. *)
Definition kindPair : kvPair :=
  {| key := scalar "!!str" "kind" 1 1; value := scalar "!!str" "x" 1 7 |}.

Definition emptyMapState : mapState :=
  {| ms_ctx := NewValidationContext; foundKeys := ∅; keyNodes := ∅ |}.

(** An error on line 3 and a warning on line 1. *)
Definition errorAtLine3 : ValidationError := diag LevelError 3 1 "e".
Definition warningAtLine1 : ValidationError := diag LevelWarning 1 1 "w".

End ExampleSchemas.

Section FramePredicates.
Context {lib : GoLib}.

(** [ctx'] comes from [ctx] by calls of [AddError] and nothing else. *)
Definition viaAddError (ctx ctx' : ValidationContext) : Prop :=
  exists ds : list ValidationError, ctx' = foldl AddError ctx ds.

(** Every validator of the schema and of the schemas below it touches the
    context through [AddError] only, as the validators of the repository
    do. *)
Inductive reportsViaAddError : FieldSchema -> Prop :=
  | reports_intro (schema : FieldSchema) :
      (forall v, In v (Validators schema) ->
                 forall node path ctx, viaAddError ctx (Validate v node path ctx)) ->
      (forall kv, In kv (KeyValidators schema) ->
                  forall k keyNode path ctx,
                    viaAddError ctx (ValidateKey kv k keyNode path ctx)) ->
      (forall k sub, AllowedKeys schema !! k = Some sub -> reportsViaAddError sub) ->
      (forall sub, AdditionalProperties schema = Some sub -> reportsViaAddError sub) ->
      (forall sub, ItemSchema schema = Some sub -> reportsViaAddError sub) ->
      reportsViaAddError schema.

(** The same for the schema of a validator, nil or not. *)
Definition reportsViaAddError_opt (schema : option FieldSchema) : Prop :=
  match schema with
  | Some s => reportsViaAddError s
  | None => True
  end.

(** What the mapping and sequence code needs of [validateNode] one level
    down. *)
Definition recVia (rec : validateNodeT) : Prop :=
  forall node sub path ctx ctx',
    reportsViaAddError sub ->
    rec node (Some sub) path ctx = Done ctx' -> viaAddError ctx ctx'.

(** [l] begins with [prefix]. *)
Definition extends {A : Type} (prefix l : list A) : Prop :=
  exists suffix, l = prefix ++ suffix.

End FramePredicates.

Section ValidatorPredicates.

(** A scheme as [findSchemeEnd] accepts it: a letter, then letters, digits,
    [+], [-] or [.]. *)
Definition validScheme (bs : list Z) : bool :=
  match bs with
  | [] => false
  | c :: rest =>
    valuevalidator.url.isLetter c
    && forallb (fun c => valuevalidator.url.isLetter c
                         || valuevalidator.url.isSchemeExtra c) rest
  end.

(** The bytes of [://]. *)
Definition schemeSeparator : list Z := [58; 47; 47].

(** The node is empty for [NonEmptyValidator]: a scalar without text, or a
    sequence or mapping without children. *)
Definition emptyNode (node : yaml.Node) : Prop :=
  (yaml.Kind node = yaml.ScalarNode /\ yaml.Value node = "")
  \/ ((yaml.Kind node = yaml.SequenceNode \/ yaml.Kind node = yaml.MappingNode)
      /\ yaml.Content node = []).

(** [lo <= n <= hi] for the bounds that are set. *)
Definition withinBounds (lo hi : option Z) (n : Z) : Prop :=
  match lo with Some min => min <= n | None => True end
  /\ match hi with Some max => n <= max | None => True end.

End ValidatorPredicates.

Section RenderPredicates.

(** A byte of plain text: ASCII and not a tab. *)
Definition plainByte (b : Z) : Prop := 0 <= b < 128 /\ b <> 9.

End RenderPredicates.

Section CheckPredicates.
Context {lib : GoLib}.

(** The entry of [AllowedKeys] is required and its key is absent. *)
Definition isMissing (foundKeys : gmap string yaml.Node)
           (entry : string * FieldSchema) : bool :=
  Required entry.2 && negb (present foundKeys entry.1).

(** The report of [checkRequiredFields] for the key [k]. *)
Definition missingRequired (node : yaml.Node) (path k : string)
  : ValidationError :=
  {| Level := LevelError; Path := cleanPath (joinPath path k);
     Line := yaml.Line node; Column := yaml.Column node;
     Message := "required field " +:+ strconv_Quote k +:+ " is missing";
     Got := ""; Expected := "" |}.

(** The required keys of the schema that are absent, in the order of
    [map_to_list]. *)
Definition missingKeys (schema : FieldSchema)
           (foundKeys : gmap string yaml.Node) : list string :=
  map fst (List.filter (isMissing foundKeys) (map_to_list (AllowedKeys schema))).

(** The report of [checkDefaults] for the key [k] with the default
    [dflt]. *)
Definition defaultWarning (node : yaml.Node) (path : string)
           (entry : string * GoAny) : ValidationError :=
  {| Level := LevelWarning; Path := cleanPath (joinPath path entry.1);
     Line := yaml.Line node; Column := yaml.Column node;
     Message := "field " +:+ strconv_Quote entry.1
                +:+ " not set, will use default: " +:+ fmt_any entry.2;
     Got := ""; Expected := "" |}.

(** The default of an entry of [AllowedKeys] that will be used: the key is
    absent and not required. *)
Definition usedDefault (foundKeys : gmap string yaml.Node)
           (entry : string * FieldSchema) : option (string * GoAny) :=
  match Default entry.2 with
  | Some dflt =>
    if negb (present foundKeys entry.1) && negb (Required entry.2)
    then Some (entry.1, dflt) else None
  | None => None
  end.

(** A group of [AnyOf] is satisfied: all its keys are present. *)
Definition groupSatisfied (foundKeys : gmap string yaml.Node)
           (group : list string) : Prop :=
  forall k, In k group -> is_Some (foundKeys !! k).

(** The reports of [checkConditions] for a rule that applies. *)
Definition requiredWhen (path : string) (rule : ConditionalRule)
           (condNode : yaml.Node) (reqKey : string) : ValidationError :=
  {| Level := LevelError; Path := cleanPath (joinPath path reqKey);
     Line := yaml.Line condNode; Column := yaml.Column condNode;
     Message := "field " +:+ strconv_Quote reqKey
                +:+ " is required when " +:+ conditionSuffix rule;
     Got := ""; Expected := "" |}.

Definition forbiddenWhen (path : string) (rule : ConditionalRule)
           (forbKey : string) (keyNode : yaml.Node) : ValidationError :=
  {| Level := LevelError; Path := cleanPath (joinPath path forbKey);
     Line := yaml.Line keyNode; Column := yaml.Column keyNode;
     Message := "field " +:+ strconv_Quote forbKey
                +:+ " is forbidden when " +:+ conditionSuffix rule;
     Got := ""; Expected := "" |}.

(** The rule applies: its field is present, a scalar, and has the value
    of the rule. *)
Definition ruleApplies (foundKeys : gmap string yaml.Node)
           (rule : ConditionalRule) : Prop :=
  exists condNode,
    foundKeys !! ConditionField rule = Some condNode
    /\ yaml.Kind condNode = yaml.ScalarNode
    /\ yaml.Value condNode = ConditionValue rule.

(** What one rule reports: nothing when it does not apply; else the absent
    keys of [ThenRequired], then the present keys of [ThenForbidden], in
    the order of the lists. *)
Definition conditionReports (path : string)
           (foundKeys keyNodes : gmap string yaml.Node) (rule : ConditionalRule)
  : list ValidationError :=
  match foundKeys !! ConditionField rule with
  | None => []
  | Some condNode =>
    if yaml.kind_eqb (yaml.Kind condNode) yaml.ScalarNode
       && str_eqb (yaml.Value condNode) (ConditionValue rule)
    then
      map (requiredWhen path rule condNode)
          (List.filter (fun k => negb (present foundKeys k)) (ThenRequired rule))
      ++ omap (fun k => forbiddenWhen path rule k <$> keyNodes !! k)
              (ThenForbidden rule)
    else []
  end.

End CheckPredicates.

Section MoreExamples.
Context {lib : GoLib}.

(** [&FieldSchema{Type: TypeString, Required: true}] *)
Definition requiredString : FieldSchema :=
  {| Type' := TypeString; Required := true; Nullable := false; Deprecated := "";
     Description := ""; Default := None; AllowedKeys := ∅;
     AdditionalProperties := None; UnknownKeyPolicy' := UnknownKeyInherit;
     KeyValidators := []; ItemSchema := None; MinItems := None;
     MaxItems := None; Validators := []; AnyOf := []; ExactlyOneOf := [];
     MutuallyExclusive := []; Conditions := [] |}.

(** [&FieldSchema{Type: TypeInt, Default: dflt}] *)
Definition intWithDefault (dflt : GoAny) : FieldSchema :=
  {| Type' := TypeInt; Required := false; Nullable := false; Deprecated := "";
     Description := ""; Default := Some dflt; AllowedKeys := ∅;
     AdditionalProperties := None; UnknownKeyPolicy' := UnknownKeyInherit;
     KeyValidators := []; ItemSchema := None; MinItems := None;
     MaxItems := None; Validators := []; AnyOf := []; ExactlyOneOf := [];
     MutuallyExclusive := []; Conditions := [] |}.

(** A map with the required key [name] and the key [port] with a
    default. *)
Definition serverSchema (dflt : GoAny) : FieldSchema :=
  {| Type' := TypeMap; Required := false; Nullable := false; Deprecated := "";
     Description := ""; Default := None;
     AllowedKeys := <["name" := requiredString]>
                      (<["port" := intWithDefault dflt]> ∅);
     AdditionalProperties := None; UnknownKeyPolicy' := UnknownKeyInherit;
     KeyValidators := []; ItemSchema := None; MinItems := None;
     MaxItems := None; Validators := []; AnyOf := []; ExactlyOneOf := [];
     MutuallyExclusive := []; Conditions := [] |}.

(** A sequence of one or two items, the items unchecked. *)
Definition oneOrTwoItems : FieldSchema :=
  {| Type' := TypeSequence; Required := false; Nullable := false;
     Deprecated := ""; Description := ""; Default := None; AllowedKeys := ∅;
     AdditionalProperties := None; UnknownKeyPolicy' := UnknownKeyInherit;
     KeyValidators := []; ItemSchema := None; MinItems := Some 1;
     MaxItems := Some 2; Validators := []; AnyOf := []; ExactlyOneOf := [];
     MutuallyExclusive := []; Conditions := [] |}.

(** A map that asks for [a] and [b] together or for [c], lets at most one
    of [a] and [b] be present, and when [a] is [1] requires [c] and forbids
    [b]. *)
Definition groupSchema : FieldSchema :=
  {| Type' := TypeMap; Required := false; Nullable := false; Deprecated := "";
     Description := ""; Default := None; AllowedKeys := ∅;
     AdditionalProperties := None; UnknownKeyPolicy' := UnknownKeyIgnore;
     KeyValidators := []; ItemSchema := None; MinItems := None;
     MaxItems := None; Validators := [];
     AnyOf := [["a"; "b"]; ["c"]]; ExactlyOneOf := [];
     MutuallyExclusive := ["a"; "b"];
     Conditions := [ {| ConditionField := "a"; ConditionValue := "1";
                        ThenRequired := ["c"]; ThenForbidden := ["b"] |} ] |}.

(** [&FieldSchema{Type: TypeString, Deprecated: "use name instead"}] *)
Definition deprecatedString : FieldSchema :=
  {| Type' := TypeString; Required := false; Nullable := false;
     Deprecated := "use name instead";
     Description := ""; Default := None; AllowedKeys := ∅;
     AdditionalProperties := None; UnknownKeyPolicy' := UnknownKeyInherit;
     KeyValidators := []; ItemSchema := None; MinItems := None;
     MaxItems := None; Validators := []; AnyOf := []; ExactlyOneOf := [];
     MutuallyExclusive := []; Conditions := [] |}.

(** A sequence of three scalars. *)
Definition threeItems : yaml.Node :=
  yaml.mkNode yaml.SequenceNode "!!seq" "" None
    [scalar "!!int" "1" 1 2; scalar "!!int" "2" 1 5; scalar "!!int" "3" 1 8] 1 1.

(** Options with strict keys and stop-on-first. *)
Definition strictStopOnFirst : ValidationContext :=
  {| StrictKeys := true; StopOnFirst := true; StrictTypes := false;
     YAML11Booleans := false; SourceLines := [];
     collector := NewErrorCollector; stopped := false |}.

(** The bytes of [https] and of [example.com]. *)
Definition httpsBytes : list Z := [104; 116; 116; 112; 115].
Definition hostBytes : list Z :=
  [101; 120; 97; 109; 112; 108; 101; 46; 99; 111; 109].

End MoreExamples.

(* ===================================================================== *)
(** * Theorems *)
(* ===================================================================== *)

(** ** The diagnostic accumulator and the stopped flag *)

Section ContextFacts.

Lemma AddError_when_stopped (ctx : ValidationContext) (err : ValidationError) :
  stopped ctx = true -> AddError ctx err = ctx.
Proof. intros Hs. unfold AddError. now rewrite Hs. Qed.

Lemma AddError_error (ctx : ValidationContext) (err : ValidationError) :
  stopped ctx = false -> Level err = LevelError ->
  errors (collector (AddError ctx err)) = errors (collector ctx) ++ [err]
  /\ warnings (collector (AddError ctx err)) = warnings (collector ctx)
  /\ stopped (AddError ctx err) = StopOnFirst ctx.
Proof.
  intros Hs Hl. unfold AddError, Add. rewrite Hs, Hl. cbn.
  destruct (StopOnFirst ctx); cbn; auto.
Qed.

Lemma AddError_warning (ctx : ValidationContext) (err : ValidationError) :
  stopped ctx = false -> Level err = LevelWarning ->
  errors (collector (AddError ctx err)) = errors (collector ctx)
  /\ warnings (collector (AddError ctx err)) = warnings (collector ctx) ++ [err]
  /\ stopped (AddError ctx err) = false.
Proof.
  intros Hs Hl. unfold AddError, Add. rewrite Hs, Hl. cbn.
  rewrite andb_false_r. cbn. auto.
Qed.

Lemma AddError_keeps_settings (ctx : ValidationContext) (err : ValidationError) :
  StopOnFirst (AddError ctx err) = StopOnFirst ctx
  /\ StrictKeys (AddError ctx err) = StrictKeys ctx
  /\ StrictTypes (AddError ctx err) = StrictTypes ctx
  /\ YAML11Booleans (AddError ctx err) = YAML11Booleans ctx.
Proof.
  unfold AddError. destruct (stopped ctx); [auto|].
  cbn. destruct (StopOnFirst ctx && _); cbn; auto.
Qed.

Lemma AddError_stopped_mono (ctx : ValidationContext) (err : ValidationError) :
  stopped ctx = true -> stopped (AddError ctx err) = true.
Proof. intros Hs. now rewrite AddError_when_stopped. Qed.

Lemma foldl_AddError_when_stopped (ctx : ValidationContext)
      (errs : list ValidationError) :
  stopped ctx = true -> foldl AddError ctx errs = ctx.
Proof.
  intros Hs. induction errs as [|e errs IH]; cbn; [reflexivity|].
  now rewrite AddError_when_stopped.
Qed.

Lemma foldl_AddError_warnings (ctx : ValidationContext)
      (ws : list ValidationError) :
  stopped ctx = false ->
  Forall (fun w => Level w = LevelWarning) ws ->
  stopped (foldl AddError ctx ws) = false
  /\ StopOnFirst (foldl AddError ctx ws) = StopOnFirst ctx
  /\ errors (collector (foldl AddError ctx ws)) = errors (collector ctx)
  /\ warnings (collector (foldl AddError ctx ws)) = warnings (collector ctx) ++ ws.
Proof.
  intros Hs Hws. revert ctx Hs.
  induction Hws as [|w ws Hw _ IH]; intros ctx Hs; cbn.
  - rewrite app_nil_r. auto.
  - destruct (AddError_warning ctx w Hs Hw) as (He & Hwn & Hst).
    destruct (IH (AddError ctx w) Hst) as (H1 & H2 & H3 & H4).
    rewrite H1, H2, H3, H4, He, Hwn.
    destruct (AddError_keeps_settings ctx w) as (-> & _).
    rewrite <- app_assoc. auto.
Qed.

(** C8. With [StopOnFirst] set and the run not yet stopped: adding
    warnings leaves [stopped] false; the add of the first Error-level
    diagnostic sets it; from then on every further [AddError], whatever the
    level, returns the context as it is, so the flag stays set and the error
    and warning sequences stay as they were at that add. *)
Theorem stop_on_first_error (ctx : ValidationContext)
        (ws : list ValidationError) (e : ValidationError)
        (rest : list ValidationError) :
  StopOnFirst ctx = true ->
  stopped ctx = false ->
  Forall (fun w => Level w = LevelWarning) ws ->
  Level e = LevelError ->
  let before := foldl AddError ctx ws in
  let at_error := AddError before e in
  let after := foldl AddError at_error rest in
  stopped before = false
  /\ stopped at_error = true
  /\ after = at_error
  /\ (forall err, AddError after err = after)
  /\ errors (collector after) = errors (collector ctx) ++ [e]
  /\ warnings (collector after) = warnings (collector ctx) ++ ws.
Proof.
  intros Hsof Hs Hws He before at_error after.
  destruct (foldl_AddError_warnings ctx ws Hs Hws) as (Hb & Hsf & Hbe & Hbw).
  fold before in Hb, Hsf, Hbe, Hbw.
  destruct (AddError_error before e Hb He) as (Hae & Haw & Hast).
  fold at_error in Hae, Haw, Hast.
  assert (Hstop : stopped at_error = true) by congruence.
  assert (Hafter : after = at_error)
    by (apply foldl_AddError_when_stopped; exact Hstop).
  repeat split; try assumption.
  - intros err. rewrite Hafter. now apply AddError_when_stopped.
  - rewrite Hafter. congruence.
  - rewrite Hafter. congruence.
Qed.

Lemma stop_on_first_error_witness :
  let ctx := mkContext false true false false [] NewErrorCollector false in
  let ws := [diag LevelWarning 1 1 "w"] in
  let e := diag LevelError 2 1 "e" in
  let rest := [diag LevelError 3 1 "late"; diag LevelWarning 4 1 "late"] in
  let after := foldl AddError (AddError (foldl AddError ctx ws) e) rest in
  (StopOnFirst ctx = true /\ stopped ctx = false)
  /\ stopped (foldl AddError ctx ws) = false
  /\ stopped (AddError (foldl AddError ctx ws) e) = true
  /\ after = AddError (foldl AddError ctx ws) e
  /\ (forall err, AddError after err = after)
  /\ errors (collector after) = errors (collector ctx) ++ [e]
  /\ warnings (collector after) = warnings (collector ctx) ++ ws.
Proof.
  intros ctx ws e rest after. split; [split; reflexivity|].
  apply (stop_on_first_error ctx ws e rest);
    [reflexivity | reflexivity | repeat constructor | reflexivity].
Defined.

End ContextFacts.

(** ** The structural validator *)

Section ValidatorFacts.
Context {lib : GoLib}.

Lemma validateDocs_nil_schema (fuel : nat) (docs : list yaml.Decoded)
      (docIndex : Z) (ctx : ValidationContext) :
  Forall (fun d => exists root, d = yaml.DecodeOk root) docs ->
  validateDocs fuel (NewValidator None) docs docIndex ctx = Done ctx.
Proof.
  intros Hdocs. revert docIndex.
  induction Hdocs as [|d docs [root ->] _ IH]; intros docIndex; cbn.
  - reflexivity.
  - assert (Hstep :
      match yaml.Kind root, yaml.Content root with
      | yaml.DocumentNode, first :: _ =>
        validateNode fuel first None
          (if 0 <? docIndex then "doc[" +:+ fmt.d docIndex +:+ "]" else "") ctx
      | _, _ => Done ctx
      end = Done ctx).
    { destruct (yaml.Kind root); try reflexivity.
      destruct (yaml.Content root); [reflexivity|].
      destruct fuel; reflexivity. }
    rewrite Hstep. cbn. destruct (IsStopped ctx); [reflexivity|]. apply IH.
Qed.

(** C9. Against a nil schema [validateNode] returns at once, whatever the
    node, the path, the context and the fuel: it does not recurse, does not
    panic and adds nothing. Hence a validator built on a nil schema, run
    over an input whose documents all decode, returns a result with an empty
    collector: no errors, no warnings. *)
Theorem validate_nil_schema_noop :
  (forall (fuel : nat) (node : yaml.Node) (path : string)
          (ctx : ValidationContext),
      validateNode fuel node None path ctx = Done ctx)
  /\ (forall (fuel : nat) (data : string),
         Forall (fun d => exists root, d = yaml.DecodeOk root) (yaml_Decode data) ->
         exists r,
           ValidateBytes fuel (NewValidator None) data = Done r
           /\ errors (Collector r) = []
           /\ warnings (Collector r) = []
           /\ ValidationResult_HasErrors r = false).
Proof.
  split.
  - intros fuel node path ctx. destruct fuel; reflexivity.
  - intros fuel data Hdocs. unfold ValidateBytes, validateWithContext.
    rewrite (validateDocs_nil_schema fuel _ 0 _ Hdocs). cbn.
    eexists. split; [reflexivity|]. cbn. auto.
Qed.

(** ** The type check *)

Lemma NodeType_eqb_eq (a b : NodeType) : NodeType_eqb a b = true <-> a = b.
Proof. destruct a, b; cbn; split; congruence. Qed.

Lemma NodeType_eqb_neq (a b : NodeType) : NodeType_eqb a b = false <-> a <> b.
Proof. destruct a, b; cbn; split; congruence. Qed.

(** C2. On a run that is not stopped, the type check answers [true], and
    leaves the context alone, exactly in the four cases of the
    specification. When it fails on a node inferred as Null it records
    exactly one Error, "unexpected null value"; on any other failure
    exactly one Error, "type mismatch"; nothing else changes. A Float node
    never passes an Int schema. *)
Theorem checkTypeWithSchema_spec (node : yaml.Node) (schema : FieldSchema)
        (path : string) (ctx : ValidationContext) :
  stopped ctx = false ->
  let '(ok, ctx') := checkTypeWithSchema node schema path ctx in
  (ok = true <-> typeCheckPasses node schema ctx)
  /\ (ok = true -> ctx' = ctx)
  /\ (ok = false -> inferType node ctx = TypeNull ->
      errors (collector ctx') =
        errors (collector ctx) ++ [nullError node (Type' schema) path]
      /\ warnings (collector ctx') = warnings (collector ctx)
      /\ Message (nullError node (Type' schema) path) = "unexpected null value")
  /\ (ok = false -> inferType node ctx <> TypeNull ->
      errors (collector ctx') =
        errors (collector ctx) ++ [mismatchError node (Type' schema) path]
      /\ warnings (collector ctx') = warnings (collector ctx)
      /\ Message (mismatchError node (Type' schema) path) = "type mismatch")
  /\ (Type' schema = TypeInt -> inferType node ctx = TypeFloat -> ok = false).
Proof.
  intros Hs. unfold checkTypeWithSchema, typeCheckPasses.
  pose proof (AddError_error ctx (nullError node (Type' schema) path) Hs eq_refl)
    as (Hn1 & Hn2 & _).
  pose proof (AddError_error ctx (mismatchError node (Type' schema) path) Hs eq_refl)
    as (Hm1 & Hm2 & _).
  destruct (Type' schema) eqn:Ht, (inferType node ctx) eqn:Ha,
           (Nullable schema) eqn:Hnl; cbn;
    repeat split; try congruence; try discriminate; intuition congruence.
Qed.

(** ** Unknown keys *)

Lemma AddError_recordsOneError (ctx : ValidationContext) (e : ValidationError) :
  stopped ctx = false -> Level e = LevelError ->
  recordsOneError ctx (AddError ctx e) e.
Proof.
  intros Hs Hl. destruct (AddError_error ctx e Hs Hl) as (H1 & H2 & _).
  unfold recordsOneError. auto.
Qed.

Lemma AddError_recordsOneWarning (ctx : ValidationContext) (w : ValidationError) :
  stopped ctx = false -> Level w = LevelWarning ->
  recordsOneWarning ctx (AddError ctx w) w.
Proof.
  intros Hs Hl. destruct (AddError_warning ctx w Hs Hl) as (H1 & H2 & _).
  unfold recordsOneWarning. auto.
Qed.

(** C7. A pair of a mapping whose key is not among the known keys, under a
    schema without additional-properties schema, once the key validators
    have run and the run is not stopped: policy Inherit records exactly one
    Warning and no Error when [StrictKeys] is false, exactly one Error and
    no Warning when it is true; policy Error always records one Error,
    policy Warn one Warning, policy Ignore nothing. The diagnostic sits at
    the key node and carries the path of the key. *)
Theorem unknown_key_policy (rec : validateNodeT) (schema : FieldSchema)
        (path : string) (kv : kvPair) (st : mapState) :
  AllowedKeys schema !! keyName kv = None ->
  AdditionalProperties schema = None ->
  let fieldPath := joinPath path (keyName kv) in
  let ctx := runKeyValidators (KeyValidators schema) (keyName kv) (key kv)
                              (cleanPath fieldPath) (ms_ctx st) in
  stopped ctx = false ->
  let report level := unknownKeyError level fieldPath (key kv) (value kv) in
  exists st',
    validatePair rec schema path kv st = Done st'
    /\ match UnknownKeyPolicy' schema with
       | UnknownKeyInherit =>
         if StrictKeys ctx
         then recordsOneError ctx (ms_ctx st') (report LevelError)
         else recordsOneWarning ctx (ms_ctx st') (report LevelWarning)
       | UnknownKeyError => recordsOneError ctx (ms_ctx st') (report LevelError)
       | UnknownKeyWarn => recordsOneWarning ctx (ms_ctx st') (report LevelWarning)
       | UnknownKeyIgnore => ms_ctx st' = ctx
       end
    /\ Line (report LevelError) = yaml.Line (key kv)
    /\ Column (report LevelError) = yaml.Column (key kv)
    /\ Path (report LevelError) = cleanPath fieldPath.
Proof.
  intros Hunknown Hap fieldPath ctx Hs report.
  unfold validatePair. fold (keyName kv). fold fieldPath. fold ctx.
  rewrite Hunknown, Hap. cbn. eexists. split; [reflexivity|]. cbn.
  split; [|auto].
  unfold reportUnknownKey, resolveUnknownKeyLevel.
  destruct (UnknownKeyPolicy' schema); [destruct (StrictKeys ctx)| | |];
    first [ now apply AddError_recordsOneError
          | now apply AddError_recordsOneWarning
          | reflexivity ].
Qed.

(** ** Exactly one of *)

Lemma validatePair_keysInStep (rec : validateNodeT) (schema : FieldSchema)
      (path : string) (kv : kvPair) (st st' : mapState) :
  validatePair rec schema path kv st = Done st' ->
  keysInStep (foundKeys st) (keyNodes st) ->
  keysInStep (foundKeys st') (keyNodes st').
Proof.
  unfold validatePair. intros H Hsync.
  destruct (match AllowedKeys schema !! yaml.Value (key kv) with
            | Some _ => _ | None => _ end) as [c| |]; cbn in H; try discriminate.
  injection H as <-. cbn. intros k.
  destruct (decide (yaml.Value (key kv) = k)) as [->|Hne].
  - rewrite !lookup_insert_eq. eauto.
  - rewrite !lookup_insert_ne by assumption. apply Hsync.
Qed.

Lemma validatePairs_keysInStep (rec : validateNodeT) (schema : FieldSchema)
      (path : string) (pairs : list kvPair) (st st' : mapState) (b : bool) :
  validatePairs rec schema path pairs st = Done (b, st') ->
  keysInStep (foundKeys st) (keyNodes st) ->
  keysInStep (foundKeys st') (keyNodes st').
Proof.
  revert st. induction pairs as [|kv pairs IH]; intros st H Hsync; cbn in H.
  - now injection H as _ <-.
  - destruct (IsStopped (ms_ctx st)); [now injection H as _ <-|].
    destruct (validatePair rec schema path kv st) as [st1| |] eqn:E;
      cbn in H; try discriminate.
    eapply IH; [exact H|]. eapply validatePair_keysInStep; eauto.
Qed.

(** C3. A mapping whose schema lists keys under [ExactlyOneOf], on a run
    that is not stopped. If none of the listed keys is among the found
    keys, exactly one Error is recorded, saying that none was found, at the
    line and column of the map node. If two or more are, exactly one Error
    is recorded, at the line and column of the key node of the second of
    them in the order of the list. If exactly one is, nothing is
    recorded. *)
Theorem exactly_one_of_position (node : yaml.Node) (schema : FieldSchema)
        (path : string) (found keys : gmap string yaml.Node)
        (ctx : ValidationContext) :
  ExactlyOneOf schema <> [] ->
  stopped ctx = false ->
  keysInStep found keys ->
  let matched := List.filter (present found) (ExactlyOneOf schema) in
  (matched = [] ->
   exists e,
     checkExactlyOneOf node schema path found keys ctx = Done (AddError ctx e)
     /\ recordsOneError ctx (AddError ctx e) e
     /\ Line e = yaml.Line node /\ Column e = yaml.Column node
     /\ Message e = "exactly one of " +:+ fmt.v_strings (ExactlyOneOf schema)
                    +:+ " is required, none found")
  /\ (forall m1 m2 rest, matched = m1 :: m2 :: rest ->
      exists keyNode e,
        keys !! m2 = Some keyNode
        /\ checkExactlyOneOf node schema path found keys ctx = Done (AddError ctx e)
        /\ recordsOneError ctx (AddError ctx e) e
        /\ Line e = yaml.Line keyNode /\ Column e = yaml.Column keyNode)
  /\ (forall m1, matched = [m1] ->
      checkExactlyOneOf node schema path found keys ctx = Done ctx).
Proof.
  intros Hne Hs Hsync matched. subst matched.
  unfold checkExactlyOneOf, foundAmong.
  destruct (ExactlyOneOf schema) as [|k0 listed]; [congruence|]. clear Hne.
  repeat split.
  - intros Hm. rewrite Hm. eexists. split; [reflexivity|].
    split; [now apply AddError_recordsOneError|]. cbn. auto.
  - intros m1 m2 rest Hm. rewrite Hm.
    assert (Hin : In m2 (List.filter (present found) (k0 :: listed)))
      by (rewrite Hm; cbn; auto).
    apply filter_In in Hin as [_ Hp]. unfold present in Hp.
    destruct (found !! m2) as [v|] eqn:Ef; [|discriminate].
    destruct (Hsync m2) as [keyNode Hk]; [rewrite Ef; eauto|].
    rewrite Hk. exists keyNode. eexists. split; [reflexivity|].
    split; [reflexivity|]. split; [now apply AddError_recordsOneError|].
    cbn. auto.
  - intros m1 Hm. rewrite Hm. reflexivity.
Qed.

(** ** Integer literals *)

Lemma str_eqb_refl (s : string) : str_eqb s s = true.
Proof. unfold str_eqb. now apply bool_decide_eq_true. Qed.

Lemma str_eqb_eq (a b : string) : str_eqb a b = true <-> a = b.
Proof. unfold str_eqb. apply bool_decide_eq_true. Qed.

Lemma str_eqb_neq (a b : string) : str_eqb a b = false <-> a <> b.
Proof. unfold str_eqb. apply bool_decide_eq_false. Qed.

Lemma str_eqb_false_of_resolvedTag (tag : string) :
  resolvedTag tag = false ->
  str_eqb tag "!!str" = false /\ str_eqb tag "!!int" = false
  /\ str_eqb tag "!!float" = false /\ str_eqb tag "!!bool" = false
  /\ str_eqb tag "!!null" = false.
Proof.
  unfold resolvedTag. intros H.
  repeat (apply orb_false_elim in H as [H ?]). auto.
Qed.

Lemma inferScalarType_intLiteral (node : yaml.Node) (ctx : ValidationContext) :
  In (yaml.Value node) intLiterals ->
  resolvedTag (yaml.Tag node) = false ->
  StrictTypes ctx = false ->
  inferScalarType node ctx = TypeInt.
Proof.
  intros Hv Htag Hstrict. unfold inferScalarType.
  destruct (str_eqb_false_of_resolvedTag _ Htag) as (-> & -> & -> & -> & ->).
  rewrite Hstrict.
  destruct (YAML11Booleans ctx);
    cbn in Hv; destruct Hv as [<-|[<-|[<-|[<-|[]]]]]; vm_compute; reflexivity.
Qed.

Lemma parseYAMLNumber_intLiteral (node : yaml.Node) :
  In (yaml.Value node) intLiterals ->
  valuevalidator.parseYAMLNumber node = Some (strconv.float64_of_int 42).
Proof.
  intros Hv. unfold valuevalidator.parseYAMLNumber.
  cbn in Hv; destruct Hv as [<-|[<-|[<-|[<-|[]]]]]; vm_compute; reflexivity.
Qed.

(** C5. A scalar whose tag is none of the resolved ones, with
    [StrictTypes] off and one of the values 42, 0x2A, 0o52, 0b101010, is
    inferred as Int; validated under a schema of type Int, not deprecated,
    whose validators are a range of 0 to 100, it leaves the context as it
    was: no diagnostic. A leading zero does not make an octal: 052 is read
    as the decimal 52. *)
Theorem int_literals_in_range (fuel : nat) (node : yaml.Node)
        (schema : FieldSchema) (path : string) (ctx : ValidationContext) :
  yaml.Kind node = yaml.ScalarNode ->
  resolvedTag (yaml.Tag node) = false ->
  In (yaml.Value node) intLiterals ->
  StrictTypes ctx = false ->
  Type' schema = TypeInt ->
  Deprecated schema = "" ->
  Validators schema = [range_0_100] ->
  inferType node ctx = TypeInt
  /\ validateNode (S fuel) node (Some schema) path ctx = Done ctx
  /\ valuevalidator.parseYAMLNumber (scalar "" "052" 1 1)
     = Some (strconv.float64_of_int 52).
Proof.
  intros Hkind Htag Hv Hstrict Htype Hdep Hvals.
  assert (Hinfer : inferType node ctx = TypeInt).
  { destruct node as [k tag v alias content line col]. cbn in Hkind. subst k.
    cbn [inferType]. now apply inferScalarType_intLiteral. }
  split; [exact Hinfer|]. split; [|vm_compute; reflexivity].
  cbn [validateNode]. destruct (IsStopped ctx) eqn:Hstop; [reflexivity|].
  rewrite Hkind, Hdep, str_eqb_refl. cbn [negb].
  unfold checkTypeWithSchema. rewrite Htype, Hinfer. cbn.
  rewrite Hvals, Hkind. cbn [obind runValidators]. rewrite Hstop.
  unfold range_0_100 at 1. cbn [Validate valuevalidator.Range].
  unfold valuevalidator.RangeValidator_Validate.
  rewrite (parseYAMLNumber_intLiteral node Hv). cbn [valuevalidator.Min valuevalidator.Max].
  replace (SFltb (strconv.float64_of_int 42) (strconv.float64_of_int 0))
    with false by (vm_compute; reflexivity).
  replace (SFltb (strconv.float64_of_int 100) (strconv.float64_of_int 42))
    with false by (vm_compute; reflexivity).
  destruct (IsStopped ctx); reflexivity.
Qed.

(** ** Merge keys *)

Lemma Node_nested_ind (P : yaml.Node -> Prop) :
  (forall k tag v alias content line col,
      (forall target, alias = Some target -> P target) ->
      Forall P content ->
      P (yaml.mkNode k tag v alias content line col)) ->
  forall node, P node.
Proof.
  intros H. fix IH 1. intros [k tag v alias content line col]. apply H.
  - destruct alias as [target|]; intros t' Heq; [|discriminate].
    injection Heq as <-. apply IH.
  - induction content as [|c content IHc]; constructor; [apply IH|exact IHc].
Qed.

Lemma list_pair_ind {A : Type} (P : list A -> Prop) :
  P [] -> (forall x, P [x]) -> (forall x y l, P l -> P (x :: y :: l)) ->
  forall l, P l.
Proof.
  intros H0 H1 H2. fix IH 1. intros [|x [|y l]]; [exact H0|apply H1|].
  apply H2. apply IH.
Qed.

Lemma obind_Done_r {A : Type} (m : outcome A) : (a <- m ;; Done a) = m.
Proof. destruct m; reflexivity. Qed.

Lemma pairsOf_fuel (content : list yaml.Node) : pairsOf content <> OutOfFuel.
Proof.
  induction content as [| |x y l IH] using list_pair_ind; cbn; try discriminate.
  destruct (pairsOf l); cbn; congruence.
Qed.

Lemma concatAll_fuel (parts : list (outcome (list kvPair))) :
  Forall (fun part => part <> OutOfFuel) parts -> concatAll parts <> OutOfFuel.
Proof.
  induction 1 as [|part parts Hp _ IH]; cbn; [discriminate|].
  destruct part; cbn; try congruence. destruct (concatAll parts); cbn; congruence.
Qed.

Lemma mergedPairs_fuel (val : yaml.Node) : mergedPairs val <> OutOfFuel.
Proof.
  induction val as [k tag v alias content line col IHa IHc] using Node_nested_ind.
  cbn. destruct k; try discriminate.
  - apply concatAll_fuel. now apply Forall_map.
  - apply pairsOf_fuel.
  - destruct alias as [target|]; [now apply IHa|discriminate].
Qed.

Lemma mappingToPairs_loop_pairsOf (content : list yaml.Node) (out : list kvPair) :
  mappingToPairs_loop content out = (ps <- pairsOf content ;; Done (out ++ ps)).
Proof.
  revert out. induction content as [| |x y l IH] using list_pair_ind;
    intros out; cbn.
  - now rewrite app_nil_r.
  - reflexivity.
  - rewrite IH. destruct (pairsOf l); cbn; try reflexivity.
    now rewrite <- app_assoc.
Qed.

Lemma extractMergePairs_mergedPairs (val : yaml.Node) :
  extractMergePairs val = mergedPairs val.
Proof.
  induction val as [k tag v alias content line col IHa IHc] using Node_nested_ind.
  cbn. destruct k; try reflexivity.
  - (* a sequence: the loop over the items *)
    match goal with
    | |- ?loop content [] = _ =>
      enough (Hloop : forall out,
                 loop content out
                 = (b <- concatAll (map mergedPairs content) ;; Done (out ++ b)))
        by (rewrite Hloop; cbn; apply obind_Done_r)
    end.
    induction IHc as [|c content Hc _ IH]; intros out; cbn.
    + now rewrite app_nil_r.
    + rewrite Hc. destruct (mergedPairs c) as [ps| |]; cbn; try reflexivity.
      rewrite IH. destruct (concatAll (map mergedPairs content)); cbn;
        try reflexivity.
      now rewrite app_assoc.
  - (* a mapping *)
    unfold mappingToPairs. cbn. rewrite mappingToPairs_loop_pairsOf. cbn.
    apply obind_Done_r.
  - (* an alias *)
    destruct alias as [target|]; [now apply IHa|reflexivity].
Qed.

Lemma entryPairs_fuel (kv : kvPair) : entryPairs kv <> OutOfFuel.
Proof.
  unfold entryPairs. destruct (str_eqb _ _); [apply mergedPairs_fuel|discriminate].
Qed.

Lemma expand_loop_spec (content : list yaml.Node) (acc : list kvPair) :
  expandMappingWithMerges_loop content acc
  = (entries <- pairsOf content ;;
     all <- concatAll (map entryPairs entries) ;;
     Done (acc ++ all)).
Proof.
  revert acc. induction content as [| |k v l IH] using list_pair_ind;
    intros acc; cbn.
  - now rewrite app_nil_r.
  - reflexivity.
  - assert (Hentry : entryPairs {| key := k; value := v |}
                     = if str_eqb (yaml.Value k) "<<" then mergedPairs v
                       else Done [{| key := k; value := v |}]) by reflexivity.
    pose proof (pairsOf_fuel l) as Hfuel.
    pose proof (mergedPairs_fuel v) as Hmerged.
    destruct (str_eqb (yaml.Value k) "<<") eqn:E.
    + rewrite extractMergePairs_mergedPairs.
      destruct (mergedPairs v) as [mp| |] eqn:Em; cbn [obind].
      * rewrite IH.
        destruct (pairsOf l) as [ps| |]; cbn [obind map concatAll];
          try reflexivity.
        rewrite Hentry. cbn [obind].
        destruct (concatAll _); cbn; rewrite ?app_assoc; reflexivity.
      * destruct (pairsOf l) as [ps| |]; cbn [obind map concatAll];
          [rewrite Hentry; reflexivity | reflexivity | congruence].
      * congruence.
    + rewrite IH.
      destruct (pairsOf l) as [ps| |]; cbn [obind map concatAll];
        try reflexivity.
      rewrite Hentry. cbn [obind].
      destruct (concatAll _); cbn; rewrite <- ?app_assoc; reflexivity.
Qed.

(** *** The map of last indices against the last occurrence *)

Lemma lastIndex_existsb (k : string) (pairs : list kvPair) :
  existsb (fun kv => str_eqb (keyName kv) k) pairs = is_ok (lastIndex k pairs).
Proof.
  induction pairs as [|kv pairs IH]; cbn; [reflexivity|].
  rewrite IH. destruct (lastIndex k pairs); cbn.
  - apply orb_true_r.
  - rewrite orb_false_r. destruct (str_eqb _ _); reflexivity.
Qed.

Lemma lastIndex_of_member (kv : kvPair) (pairs : list kvPair) :
  In kv pairs -> is_ok (lastIndex (keyName kv) pairs) = true.
Proof.
  intros Hin. rewrite <- lastIndex_existsb. apply existsb_exists.
  exists kv. split; [exact Hin|apply str_eqb_refl].
Qed.

Lemma seen_last_from (pairs : list kvPair) (n : nat) (seen : gmap string nat)
      (k : string) :
  foldl (fun (seen : gmap string nat) (ikv : nat * kvPair) =>
           <[yaml.Value (key ikv.2) := ikv.1]> seen)
        seen (imap (fun idx kv => ((n + idx)%nat, kv)) pairs) !! k
  = match lastIndex k pairs with
    | Some j => Some (n + j)%nat
    | None => seen !! k
    end.
Proof.
  revert n seen. induction pairs as [|kv pairs IH]; intros n seen;
    [reflexivity|].
  cbn [imap foldl lastIndex].
  rewrite (imap_ext _ (fun idx kv => ((S n + idx)%nat, kv)))
    by (intros; cbn; f_equal; lia).
  rewrite IH. destruct (lastIndex k pairs) as [j|]; [f_equal; lia|].
  cbn. unfold keyName. destruct (str_eqb (yaml.Value (key kv)) k) eqn:E.
  - apply str_eqb_eq in E as ->. now rewrite lookup_insert_eq.
  - apply str_eqb_neq in E. now rewrite lookup_insert_ne.
Qed.

Lemma keep_from (pairs : list kvPair) (n : nat) (out : list kvPair)
      (seen : gmap string nat) :
  (forall kv, In kv pairs ->
     seen !! keyName kv
     = match lastIndex (keyName kv) pairs with
       | Some j => Some (n + j)%nat
       | None => None
       end) ->
  foldl (fun (out : list kvPair) (ikv : nat * kvPair) =>
           if (default 0%nat (seen !! yaml.Value (key ikv.2)) =? ikv.1)%nat
           then out ++ [ikv.2] else out)
        out (imap (fun idx kv => ((n + idx)%nat, kv)) pairs)
  = out ++ keepLast pairs.
Proof.
  revert n out. induction pairs as [|kv pairs IH]; intros n out Hseen.
  - cbn. now rewrite app_nil_r.
  - cbn [imap foldl keepLast].
    rewrite (imap_ext _ (fun idx kv => ((S n + idx)%nat, kv)))
      by (intros; cbn; f_equal; lia).
    rewrite lastIndex_existsb.
    pose proof (Hseen kv (or_introl eq_refl)) as Hkv. cbn [lastIndex] in Hkv.
    rewrite str_eqb_refl in Hkv. cbn [fst snd]. fold (keyName kv).
    rewrite Hkv.
    assert (Hrest : forall kv', In kv' pairs ->
              seen !! keyName kv'
              = match lastIndex (keyName kv') pairs with
                | Some j => Some (S n + j)%nat
                | None => None
                end).
    { intros kv' Hin. rewrite (Hseen kv' (or_intror Hin)). cbn [lastIndex].
      pose proof (lastIndex_of_member kv' pairs Hin) as Hm.
      destruct (lastIndex (keyName kv') pairs); [f_equal; lia|discriminate]. }
    destruct (lastIndex (keyName kv) pairs) as [j|];
      cbn [default from_option id is_ok].
    + replace (n + S j =? n + 0)%nat with false
        by (symmetry; apply Nat.eqb_neq; lia).
      now apply IH.
    + rewrite Nat.eqb_refl. rewrite (IH (S n) (out ++ [kv]) Hrest).
      now rewrite <- app_assoc.
Qed.

Lemma dedupePairsKeepLast_keepLast (pairs : list kvPair) :
  dedupePairsKeepLast pairs = keepLast pairs.
Proof.
  unfold dedupePairsKeepLast.
  change (imap (fun idx kv => (idx, kv)) pairs)
    with (imap (fun idx kv => ((0 + idx)%nat, kv)) pairs).
  rewrite (keep_from pairs 0 [] (seen_last pairs)); [reflexivity|].
  intros kv _. unfold seen_last.
  change (imap (fun idx kv => (idx, kv)) pairs)
    with (imap (fun idx kv => ((0 + idx)%nat, kv)) pairs).
  rewrite seen_last_from. now rewrite lookup_empty.
Qed.

(** What [keepLast] keeps: members of the list, under pairwise distinct
    names, and of every name its last occurrence. *)
Lemma keepLast_member (kv : kvPair) (pairs : list kvPair) :
  In kv (keepLast pairs) -> In kv pairs.
Proof.
  induction pairs as [|kv' pairs IH]; cbn; [auto|].
  destruct (existsb _ pairs); cbn; intuition.
Qed.

Lemma keepLast_distinct_names (pairs : list kvPair) :
  List.NoDup (map keyName (keepLast pairs)).
Proof.
  induction pairs as [|kv pairs IH]; cbn; [constructor|].
  destruct (existsb _ pairs) eqn:E; [exact IH|]. cbn. constructor; [|exact IH].
  intros Hin. apply in_map_iff in Hin as (kv' & Hname & Hin).
  apply keepLast_member in Hin.
  rewrite <- not_true_iff_false in E. apply E. apply existsb_exists.
  exists kv'. split; [exact Hin|]. now apply str_eqb_eq.
Qed.

Lemma keepLast_last_occurrence (before after : list kvPair) (kv : kvPair) :
  (forall kv', In kv' after -> keyName kv' <> keyName kv) ->
  In kv (keepLast (before ++ kv :: after)).
Proof.
  intros Hlast. induction before as [|b before IH]; cbn.
  - replace (existsb _ after) with false; [now left|].
    symmetry. apply not_true_iff_false. intros E.
    apply existsb_exists in E as (kv' & Hin & Hname).
    apply str_eqb_eq in Hname. now apply (Hlast kv').
  - destruct (existsb _ (before ++ kv :: after)); [exact IH|now right].
Qed.

(** C1. For every mapping node the expansion is the list the
    specification describes: the entries in source order, every entry named
    [<<] replaced by the pairs of its value (the pairs of an aliased or
    literal map; for a sequence the pairs of each element, in order), all
    concatenated, and of each key name the last occurrence kept. What is
    kept are members of that concatenation under pairwise distinct names,
    the last occurrence of every name among them. The map of the
    specification's example expands to the keys timeout (from the merge) and
    host (the explicit one, with the value x). *)
Theorem merge_expansion (tag val : string) (alias : option yaml.Node)
        (content : list yaml.Node) (line col : Z) :
  let node := yaml.mkNode yaml.MappingNode tag val alias content line col in
  expandMappingWithMerges node = expansionSpec node
  /\ (forall pairs, List.NoDup (map keyName (keepLast pairs)))
  /\ (forall before kv after,
         (forall kv', In kv' after -> keyName kv' <> keyName kv) ->
         In kv (keepLast (before ++ kv :: after)))
  /\ (forall kv pairs, In kv (keepLast pairs) -> In kv pairs)
  /\ expandMappingWithMerges mergeExample
     = Done [ {| key := scalar "!!str" "timeout" 1 12;
                 value := scalar "!!int" "30" 1 21 |};
              {| key := scalar "!!str" "host" 4 3;
                 value := scalar "!!str" "x" 4 9 |} ].
Proof.
  intros node. split; [|split; [|split; [|split]]].
  - unfold expandMappingWithMerges, expansionSpec. cbn.
    rewrite expand_loop_spec.
    destruct (pairsOf content) as [entries| |]; cbn; try reflexivity.
    destruct (concatAll _) as [all| |]; cbn; try reflexivity.
    now rewrite dedupePairsKeepLast_keepLast.
  - apply keepLast_distinct_names.
  - intros before kv after. apply keepLast_last_occurrence.
  - intros kv pairs. apply keepLast_member.
  - vm_compute. reflexivity.
Qed.

(** C10. A merge entry whose value is neither an alias, a map nor a
    sequence, or is an alias that resolves to nothing, stands for no pair;
    the mapping expands, and validates, as the mapping without that entry
    does: the other pairs are as they were and nothing is recorded for the
    entry. *)
Theorem merge_of_non_map_is_dropped (rec : validateNodeT) (schema : FieldSchema)
        (path : string) (ctx : ValidationContext)
        (tag val : string) (alias : option yaml.Node) (line col : Z)
        (before after : list yaml.Node) (k v : yaml.Node) :
  Nat.even (length before) = true ->
  yaml.Value k = "<<" ->
  (yaml.Kind v = yaml.ScalarNode \/ yaml.Kind v = yaml.DocumentNode
   \/ yaml.Kind v = yaml.ZeroKind
   \/ (yaml.Kind v = yaml.AliasNode /\ yaml.Alias v = None)) ->
  let node := yaml.mkNode yaml.MappingNode tag val alias
                          (before ++ k :: v :: after) line col in
  let without := yaml.mkNode yaml.MappingNode tag val alias
                             (before ++ after) line col in
  extractMergePairs v = Done []
  /\ expandMappingWithMerges node = expandMappingWithMerges without
  /\ validateMapping rec node schema path ctx
     = validateMapping rec without schema path ctx.
Proof.
  intros Heven Hk Hv node without.
  assert (Hnone : extractMergePairs v = Done []).
  { destruct v as [kind t vv al c l cl]. cbn in Hv.
    destruct Hv as [->|[->|[->|[-> ->]]]]; reflexivity. }
  assert (Hloop : forall acc,
             expandMappingWithMerges_loop (before ++ k :: v :: after) acc
             = expandMappingWithMerges_loop (before ++ after) acc).
  { clear node without. revert Heven.
    induction before as [| |x y l IH] using list_pair_ind; intros Heven acc.
    - cbn. rewrite Hk, str_eqb_refl, Hnone. cbn. now rewrite app_nil_r.
    - discriminate.
    - cbn. destruct (str_eqb (yaml.Value x) "<<").
      + destruct (extractMergePairs y); cbn; try reflexivity. now apply IH.
      + now apply IH. }
  assert (Hexp : expandMappingWithMerges node = expandMappingWithMerges without).
  { unfold expandMappingWithMerges. cbn. now rewrite Hloop. }
  split; [exact Hnone|]. split; [exact Hexp|].
  unfold validateMapping. rewrite Hexp. reflexivity.
Qed.

(** ** The caret *)

(** C6. The renderer at concrete lines. The example of the specification
    holds: the tab after two characters becomes two spaces and byte column
    4 gives the visual column 5. A byte column past the end of the line
    gives one past the last visual column. But a byte column strictly
    inside a two-byte scalar puts the caret on the scalar after it (visual
    column 2 on the line [eAcuteX]), not before the scalar (visual column
    1), against the comment on [renderLineWithCaret] and the
    specification. *)
Theorem caret_inside_scalar_lands_after_it :
  renderLineWithCaret abTabCd 4 = ("ab  cd", 5, 6)
  /\ renderLineWithCaret eAcuteX 1 = (eAcuteX, 1, 2)
  /\ renderLineWithCaret eAcuteX 2 = (eAcuteX, 2, 2)
  /\ renderLineWithCaret eAcuteX 3 = (eAcuteX, 2, 2)
  /\ renderLineWithCaret eAcuteX 9 = (eAcuteX, 3, 2)
  /\ (renderLineWithCaret eAcuteX 2).1.2 <> 1.
Proof. repeat split; vm_compute; congruence. Qed.

(** ** Sorting by position *)

Lemma rebuild_from (all : list ValidationError) (c : ErrorCollector) :
  foldl Add c all
  = {| errors := errors c
                 ++ List.filter (fun e => level_eqb (Level e) LevelError) all;
       warnings := warnings c
                   ++ List.filter (fun e => level_eqb (Level e) LevelWarning) all |}.
Proof.
  revert c. induction all as [|e all IH]; intros c; cbn.
  - rewrite !app_nil_r. now destruct c.
  - rewrite IH. unfold Add. destruct (Level e); cbn; now rewrite <- ?app_assoc.
Qed.

Lemma rebuild_spec (all : list ValidationError) :
  rebuild all
  = {| errors := List.filter (fun e => level_eqb (Level e) LevelError) all;
       warnings := List.filter (fun e => level_eqb (Level e) LevelWarning) all |}.
Proof. unfold rebuild. now rewrite rebuild_from. Qed.

Lemma filter_levels_Permutation (all : list ValidationError) :
  Permutation all (All (rebuild all)).
Proof.
  rewrite rebuild_spec. unfold All. cbn.
  induction all as [|e all IH]; cbn; [constructor|].
  destruct (Level e); cbn.
  - now apply Permutation_cons_app.
  - now constructor.
Qed.

Lemma List_filter_Permutation {A : Type} (f : A -> bool) (l l' : list A) :
  Permutation l l' -> Permutation (List.filter f l) (List.filter f l').
Proof.
  induction 1 as [|x l l' _ IH|x y l|l l' l'' _ IH1 _ IH2]; cbn.
  - constructor.
  - destruct (f x); [now constructor|exact IH].
  - destruct (f x), (f y); try reflexivity. constructor.
  - now transitivity (List.filter f l').
Qed.

Lemma StronglySorted_List_filter {A : Type} (R : A -> A -> Prop)
      (f : A -> bool) (l : list A) :
  StronglySorted R l -> StronglySorted R (List.filter f l).
Proof.
  induction 1 as [|x l _ IH Hx]; cbn; [constructor|].
  destruct (f x); [|exact IH]. constructor; [exact IH|].
  apply List.Forall_forall. intros y Hy. apply filter_In in Hy as [Hy _].
  revert y Hy. now apply List.Forall_forall.
Qed.

Lemma lessByPosition_false (a b : ValidationError) :
  lessByPosition a b = false
  <-> Line b < Line a
      \/ (Line a = Line b
          /\ (Column b < Column a
              \/ (Column a = Column b
                  /\ level_int (Level a) <= level_int (Level b)))).
Proof.
  unfold lessByPosition.
  destruct (Z.eqb_spec (Line a) (Line b)); cbn [negb].
  - destruct (Z.eqb_spec (Column a) (Column b)); cbn [negb];
      rewrite Z.ltb_ge; lia.
  - rewrite Z.ltb_ge. lia.
Qed.

Lemma lessByPosition_neither (a b : ValidationError) :
  lessByPosition a b = false -> lessByPosition b a = false ->
  positionKey a = positionKey b.
Proof.
  rewrite !lessByPosition_false. intros H1 H2. unfold positionKey.
  assert (Line a = Line b /\ Column a = Column b
          /\ level_int (Level a) = level_int (Level b)) as (-> & -> & Hl) by lia.
  destruct (Level a), (Level b); cbn in Hl; congruence.
Qed.

Lemma sorted_by_position_unique (l1 l2 : list ValidationError) :
  List.NoDup (map positionKey l1) ->
  StronglySorted notAfter l1 -> StronglySorted notAfter l2 ->
  Permutation l1 l2 -> l1 = l2.
Proof.
  intros Hnd Hs1 Hs2 Hp. apply StronglySorted_unique_strong with (R := notAfter);
    try assumption.
  intros x1 x2 Hx1 Hx2 H12 H21. unfold notAfter in *.
  assert (Hkey : positionKey x1 = positionKey x2)
    by now apply lessByPosition_neither.
  assert (Hx2' : x2 ∈ l1) by now rewrite Hp.
  apply list_elem_of_In in Hx1, Hx2'.
  clear -Hnd Hx1 Hx2' Hkey.
  induction l1 as [|y l1 IH]; [contradiction|].
  cbn in Hnd. apply List.NoDup_cons_iff in Hnd as [Hy Hnd].
  destruct Hx1 as [->|Hx1], Hx2' as [->|Hx2']; auto.
  - exfalso. apply Hy. rewrite Hkey. now apply in_map.
  - exfalso. apply Hy. rewrite <- Hkey. now apply in_map.
Qed.

Lemma insertByPosition_Permutation (x : ValidationError)
      (l : list ValidationError) :
  Permutation (x :: l) (insertByPosition x l).
Proof.
  induction l as [|y l IH]; cbn; [reflexivity|].
  destruct (lessByPosition x y); [reflexivity|].
  rewrite perm_swap. now constructor.
Qed.

Lemma lessByPosition_trans_not (a b c : ValidationError) :
  lessByPosition b a = false -> lessByPosition c b = false ->
  lessByPosition c a = false.
Proof. rewrite !lessByPosition_false. lia. Qed.

Lemma lessByPosition_total (a b : ValidationError) :
  lessByPosition a b = false \/ lessByPosition b a = false.
Proof. rewrite !lessByPosition_false. lia. Qed.

Lemma insertByPosition_sorted (x : ValidationError) (l : list ValidationError) :
  StronglySorted notAfter l -> StronglySorted notAfter (insertByPosition x l).
Proof.
  induction 1 as [|y l Hl IH Hy]; cbn.
  - repeat constructor.
  - destruct (lessByPosition x y) eqn:E.
    + constructor; [now constructor|].
      assert (Hxy : notAfter x y).
      { unfold notAfter. destruct (lessByPosition_total x y); congruence. }
      constructor; [exact Hxy|].
      eapply List.Forall_impl; [|exact Hy]. intros z Hz. unfold notAfter in *.
      eapply lessByPosition_trans_not; eauto.
    + constructor; [exact IH|].
      apply List.Forall_forall. intros z Hz.
      apply (Permutation_in _ (Permutation_sym (insertByPosition_Permutation x l)))
        in Hz.
      destruct Hz as [<-|Hz]; [exact E|].
      revert z Hz. now apply List.Forall_forall.
Qed.

Lemma insertionSort_sort_Slice (l : list ValidationError) :
  sort_Slice lessByPosition l (insertionSort l).
Proof.
  unfold sort_Slice, insertionSort. induction l as [|x l [IHp IHs]]; cbn.
  - split; constructor.
  - split.
    + rewrite <- insertByPosition_Permutation. now constructor.
    + now apply insertByPosition_sorted.
Qed.

(** [SortByPosition] always returns. *)
Lemma SortByPosition_total (r : ValidationResult) : exists r', SortByPosition r r'.
Proof.
  eexists. apply (SortByPosition_intro r (insertionSort (All (Collector r)))).
  apply insertionSort_sort_Slice.
Qed.

(** C4, as amended. Formatting without sorting is a function of the result:
    two calls give the same text. [SortByPosition] leaves a collector that
    holds the same diagnostics, its errors and its warnings each in the
    order of line, column; a second call keeps the diagnostics and that
    order. The sort is not stable: the second call is certain to change
    nothing only when no two diagnostics agree on line, column and level. *)
Theorem sort_by_position_twice (r r1 r2 : ValidationResult) (out1 out2 : string) :
  SortByPosition r r1 ->
  SortByPosition r1 r2 ->
  FormatAll r false out1 ->
  FormatAll r false out2 ->
  out1 = out2
  /\ Permutation (All (Collector r)) (All (Collector r1))
  /\ StronglySorted notAfter (errors (Collector r1))
  /\ StronglySorted notAfter (warnings (Collector r1))
  /\ Permutation (errors (Collector r1)) (errors (Collector r2))
  /\ Permutation (warnings (Collector r1)) (warnings (Collector r2))
  /\ (List.NoDup (map positionKey (All (Collector r))) -> r2 = r1).
Proof.
  intros H1 H2 F1 F2.
  destruct H1 as [all1 [Hp1 Hs1]]. cbn [Collector ResultSourceLines] in *.
  inversion H2 as [all2 [Hp2 Hs2] Heq]. cbn [Collector ResultSourceLines] in *.
  clear H2 Heq.
  assert (Hp12 : Permutation all1 all2).
  { etransitivity; [apply filter_levels_Permutation|exact Hp2]. }
  split; [|split; [|split; [|split; [|split; [|split]]]]].
  - inversion F1; inversion F2; congruence.
  - etransitivity; [exact Hp1|apply filter_levels_Permutation].
  - rewrite rebuild_spec. cbn. now apply StronglySorted_List_filter.
  - rewrite rebuild_spec. cbn. now apply StronglySorted_List_filter.
  - rewrite !rebuild_spec. cbn. now apply List_filter_Permutation.
  - rewrite !rebuild_spec. cbn. now apply List_filter_Permutation.
  - intros Hnd. f_equal. f_equal. symmetry.
    apply sorted_by_position_unique; try assumption.
    eapply Permutation_NoDup; [|exact Hnd]. now apply Permutation_map.
Qed.

(** C4, the claim as stated, fails: of the thirteen diagnostics of
    [twelveMissing] a first call may leave the errors in the order of
    [sortedOnce] and a second call in the order of [sortedTwice], both
    sorted by position; the error sequence has changed. *)
Lemma sort_by_position_not_idempotent :
  SortByPosition twelveMissing afterFirstSort
  /\ SortByPosition afterFirstSort afterSecondSort
  /\ errors (Collector afterSecondSort) <> errors (Collector afterFirstSort)
  /\ All (Collector afterSecondSort) <> All (Collector afterFirstSort).
Proof.
  assert (Hsorted1 : StronglySorted notAfter sortedOnce)
    by (unfold sortedOnce; repeat constructor).
  assert (Hsorted2 : StronglySorted notAfter sortedTwice)
    by (unfold sortedTwice; repeat constructor).
  split; [|split; [|split]].
  - apply (SortByPosition_intro twelveMissing sortedOnce). split; [|exact Hsorted1].
    unfold twelveMissing, resultOf, All, sortedOnce. cbn [Collector errors warnings app].
    solve_Permutation.
  - apply (SortByPosition_intro afterFirstSort sortedTwice). split; [|exact Hsorted2].
    unfold afterFirstSort, All. rewrite rebuild_spec.
    cbn [Collector errors warnings]. unfold sortedOnce, sortedTwice.
    cbn [List.filter level_eqb Level missing deprecatedAtLine1 app].
    solve_Permutation.
  - vm_compute. discriminate.
  - vm_compute. discriminate.
Qed.

End ValidatorFacts.

(** ** Everything recorded goes through AddError *)

Section Frame.
Context {lib : GoLib}.

Lemma viaAddError_refl (ctx : ValidationContext) : viaAddError ctx ctx.
Proof. now exists []. Qed.

Lemma viaAddError_trans (a b c : ValidationContext) :
  viaAddError a b -> viaAddError b c -> viaAddError a c.
Proof.
  intros [d1 ->] [d2 ->]. exists (d1 ++ d2). now rewrite foldl_app.
Qed.

Lemma viaAddError_AddError (ctx : ValidationContext) (e : ValidationError) :
  viaAddError ctx (AddError ctx e).
Proof. now exists [e]. Qed.

Lemma viaAddError_foldl {A : Type} (f : ValidationContext -> A -> ValidationContext)
      (l : list A) (ctx : ValidationContext) :
  (forall c x, viaAddError c (f c x)) -> viaAddError ctx (foldl f ctx l).
Proof.
  intros Hf. revert ctx. induction l as [|x l IH]; intros ctx; cbn.
  - apply viaAddError_refl.
  - eapply viaAddError_trans; [apply Hf|apply IH].
Qed.

Create HintDb via.
#[local] Hint Resolve viaAddError_refl viaAddError_AddError : via.

Ltac via_cases :=
  cbv beta;
  repeat match goal with
         | |- viaAddError _ (if ?b then _ else _) => destruct b
         | |- viaAddError _ (match ?x with _ => _ end) => destruct x
         end; auto with via.

Lemma checkRequiredFields_via node (schema : FieldSchema) path found ctx :
  viaAddError ctx (checkRequiredFields node schema path found ctx).
Proof.
  unfold checkRequiredFields. apply viaAddError_foldl.
  intros c [k s]. via_cases.
Qed.

Lemma checkDefaults_via node (schema : FieldSchema) path found ctx :
  viaAddError ctx (checkDefaults node schema path found ctx).
Proof.
  unfold checkDefaults. apply viaAddError_foldl.
  intros c [k s]. via_cases.
Qed.

Lemma checkAnyOf_via node (schema : FieldSchema) path found ctx :
  viaAddError ctx (checkAnyOf node schema path found ctx).
Proof. unfold checkAnyOf. via_cases. Qed.

Lemma checkExactlyOneOf_via node (schema : FieldSchema) path found keys ctx ctx' :
  checkExactlyOneOf node schema path found keys ctx = Done ctx' ->
  viaAddError ctx ctx'.
Proof.
  unfold checkExactlyOneOf. intros H.
  repeat match type of H with
         | match ?x with _ => _ end = _ => destruct x
         end; try discriminate; injection H as <-; auto with via.
Qed.

Lemma checkMutuallyExclusive_via node (schema : FieldSchema) path found keys
      ctx ctx' :
  checkMutuallyExclusive node schema path found keys ctx = Done ctx' ->
  viaAddError ctx ctx'.
Proof.
  unfold checkMutuallyExclusive. intros H.
  repeat match type of H with
         | match ?x with _ => _ end = _ => destruct x
         end; try discriminate; injection H as <-; auto with via.
Qed.

Lemma checkConditions_via node (schema : FieldSchema) path found keys ctx :
  viaAddError ctx (checkConditions node schema path found keys ctx).
Proof.
  unfold checkConditions. apply viaAddError_foldl. intros c rule.
  destruct (found !! ConditionField rule) as [condNode|]; [|auto with via].
  destruct (negb _); [auto with via|]. destruct (negb _); [auto with via|].
  match goal with
  | |- viaAddError ?a (foldl _ (foldl ?g ?a ?l1) _) =>
    apply (viaAddError_trans a (foldl g a l1))
  end.
  - apply (viaAddError_foldl (A := string)). intros c' x. via_cases.
  - apply (viaAddError_foldl (A := string)). intros c' x. via_cases.
Qed.

Lemma checkTypeWithSchema_via node (schema : FieldSchema) path ctx :
  viaAddError ctx (checkTypeWithSchema node schema path ctx).2.
Proof.
  unfold checkTypeWithSchema.
  repeat match goal with
         | |- context [if ?b then _ else _] => destruct b
         end; cbn; auto with via.
Qed.

Lemma runValidators_via (vs : list ValueValidator) node path ctx :
  (forall v, In v vs -> forall node path ctx,
        viaAddError ctx (Validate v node path ctx)) ->
  viaAddError ctx (runValidators vs node path ctx).
Proof.
  revert ctx. induction vs as [|v vs IH]; intros ctx Hvs; cbn;
    [auto with via|].
  destruct (IsStopped ctx); [auto with via|].
  eapply viaAddError_trans; [apply Hvs; now left|].
  apply IH. intros v' Hin. apply Hvs. now right.
Qed.

Lemma runKeyValidators_via (kvs : list KeyValidator) k keyNode path ctx :
  (forall kv, In kv kvs -> forall k keyNode path ctx,
        viaAddError ctx (ValidateKey kv k keyNode path ctx)) ->
  viaAddError ctx (runKeyValidators kvs k keyNode path ctx).
Proof.
  unfold runKeyValidators. revert ctx.
  induction kvs as [|kv kvs IH]; intros ctx Hkvs; cbn; [auto with via|].
  eapply viaAddError_trans; [apply Hkvs; now left|].
  apply IH. intros kv' Hin. apply Hkvs. now right.
Qed.

Lemma validatePair_via (rec : validateNodeT) (schema : FieldSchema) path kv st st' :
  recVia rec -> reportsViaAddError schema ->
  validatePair rec schema path kv st = Done st' ->
  viaAddError (ms_ctx st) (ms_ctx st').
Proof.
  intros Hrec Hschema H. inversion Hschema as [s _ Hkvs Hallowed Hap _ Hs].
  subst s. unfold validatePair in H.
  set (ctx1 := runKeyValidators _ _ _ _ _) in H.
  assert (H1 : viaAddError (ms_ctx st) ctx1) by now apply runKeyValidators_via.
  destruct (AllowedKeys schema !! yaml.Value (key kv)) as [sub|] eqn:Ek.
  - destruct (rec _ _ _ _) as [c| |] eqn:Er; cbn in H; try discriminate.
    injection H as <-. cbn. eapply viaAddError_trans; [exact H1|].
    eapply Hrec; [|exact Er]. eapply Hallowed; eauto.
  - destruct (AdditionalProperties schema) as [ap|] eqn:Eap.
    + destruct (rec _ _ _ _) as [c| |] eqn:Er; cbn in H; try discriminate.
      injection H as <-. cbn. eapply viaAddError_trans; [exact H1|].
      eapply Hrec; [|exact Er]. now apply Hap.
    + cbn in H. injection H as <-. cbn.
      eapply viaAddError_trans; [exact H1|].
      unfold reportUnknownKey. destruct (resolveUnknownKeyLevel _ _) as [l r].
      destruct r; auto with via.
Qed.

Lemma validatePairs_via (rec : validateNodeT) (schema : FieldSchema) path pairs
      st st' b :
  recVia rec -> reportsViaAddError schema ->
  validatePairs rec schema path pairs st = Done (b, st') ->
  viaAddError (ms_ctx st) (ms_ctx st').
Proof.
  intros Hrec Hschema. revert st.
  induction pairs as [|kv pairs IH]; intros st H; cbn in H.
  - injection H as _ <-. auto with via.
  - destruct (IsStopped (ms_ctx st)); [injection H as _ <-; auto with via|].
    destruct (validatePair rec schema path kv st) as [st1| |] eqn:E;
      cbn in H; try discriminate.
    eapply viaAddError_trans; [eapply validatePair_via; eauto|now apply IH].
Qed.

Lemma validateMapping_via (rec : validateNodeT) node (schema : FieldSchema)
      path ctx ctx' :
  recVia rec -> reportsViaAddError schema ->
  validateMapping rec node schema path ctx = Done ctx' ->
  viaAddError ctx ctx'.
Proof.
  intros Hrec Hschema H. unfold validateMapping in H.
  destruct (expandMappingWithMerges node) as [pairs| |]; cbn in H;
    try discriminate.
  destruct (validatePairs rec schema path pairs _) as [[b st]| |] eqn:Ep;
    cbn in H; try discriminate.
  apply validatePairs_via in Ep; [|assumption..]. cbn in Ep.
  destruct b; [injection H as <-; exact Ep|].
  destruct (checkExactlyOneOf _ _ _ _ _ _) as [c1| |] eqn:E1; cbn in H;
    try discriminate.
  destruct (checkMutuallyExclusive _ _ _ _ _ _) as [c2| |] eqn:E2; cbn in H;
    try discriminate.
  injection H as <-.
  apply checkExactlyOneOf_via in E1. apply checkMutuallyExclusive_via in E2.
  repeat (eapply viaAddError_trans; [eassumption|]).
  eapply viaAddError_trans; [apply checkRequiredFields_via|].
  eapply viaAddError_trans; [apply checkDefaults_via|].
  eapply viaAddError_trans; [apply checkAnyOf_via|].
  eapply viaAddError_trans; [exact E1|].
  eapply viaAddError_trans; [exact E2|]. apply checkConditions_via.
Qed.

Lemma validateItems_via (rec : validateNodeT) (itemSchema : FieldSchema) path
      items i ctx ctx' :
  recVia rec -> reportsViaAddError itemSchema ->
  validateItems rec itemSchema path items i ctx = Done ctx' ->
  viaAddError ctx ctx'.
Proof.
  intros Hrec Hschema. revert i ctx.
  induction items as [|item items IH]; intros i ctx H; cbn in H.
  - injection H as <-. auto with via.
  - destruct (IsStopped ctx); [injection H as <-; auto with via|].
    destruct (rec _ _ _ _) as [c| |] eqn:Er; cbn in H; try discriminate.
    eapply viaAddError_trans; [eapply Hrec; eauto|eapply IH; eauto].
Qed.

Lemma validateSequence_via (rec : validateNodeT) node (schema : FieldSchema)
      path ctx ctx' :
  recVia rec -> reportsViaAddError schema ->
  validateSequence rec node schema path ctx = Done ctx' ->
  viaAddError ctx ctx'.
Proof.
  intros Hrec Hschema H. inversion Hschema as [s _ _ _ _ Hitem Hs]. subst s.
  unfold validateSequence in H.
  set (c1 := match MinItems schema with Some _ => _ | None => _ end) in H.
  set (c2 := match MaxItems schema with Some _ => _ | None => _ end) in H.
  assert (H1 : viaAddError ctx c1) by (subst c1; via_cases).
  assert (H2 : viaAddError c1 c2) by (subst c2; via_cases).
  eapply viaAddError_trans; [exact H1|].
  eapply viaAddError_trans; [exact H2|].
  destruct (ItemSchema schema) as [itemSchema|] eqn:Ei.
  - apply (validateItems_via rec itemSchema path _ _ _ _ Hrec (Hitem _ eq_refl) H).
  - injection H as <-. auto with via.
Qed.

Lemma validateNode_via (fuel : nat) : recVia (validateNode fuel).
Proof.
  induction fuel as [|fuel IH]; intros node schema path ctx ctx' Hschema H;
    cbn in H.
  - destruct (IsStopped ctx); [injection H as <-; auto with via|discriminate].
  - destruct (IsStopped ctx); [injection H as <-; auto with via|].
    inversion Hschema as [s Hvs _ _ _ _ Hs]. subst s.
    destruct (match yaml.Kind node with
              | yaml.AliasNode => _ | _ => _ end) as [node'|];
      [|injection H as <-; auto with via].
    set (c1 := if negb (str_eqb (Deprecated schema) "") then _ else ctx) in H.
    assert (H1 : viaAddError ctx c1) by (subst c1; via_cases).
    pose proof (checkTypeWithSchema_via node' schema path c1) as H2.
    destruct (checkTypeWithSchema node' schema path c1) as [ok c2].
    cbn in H2. eapply viaAddError_trans; [exact H1|].
    eapply viaAddError_trans; [exact H2|].
    destruct ok; cbn in H; [|injection H as <-; auto with via].
    destruct (match yaml.Kind node' with
              | yaml.MappingNode => _ | _ => _ end) as [c3| |] eqn:E3;
      cbn in H; try discriminate.
    injection H as <-.
    assert (H3 : viaAddError c2 c3).
    { destruct (yaml.Kind node');
        try (injection E3 as <-; auto with via).
      - eapply validateSequence_via; eauto.
      - eapply validateMapping_via; eauto. }
    eapply viaAddError_trans; [exact H3|]. now apply runValidators_via.
Qed.

Lemma validateDocs_via (fuel : nat) (v : Validator) docs i ctx ctx' :
  reportsViaAddError_opt (schema v) ->
  validateDocs fuel v docs i ctx = Done ctx' -> viaAddError ctx ctx'.
Proof.
  intros Hschema. revert i ctx.
  induction docs as [|[root|msg] docs IH]; intros i ctx H; cbn in H.
  - injection H as <-. auto with via.
  - destruct (match yaml.Kind root with
              | yaml.DocumentNode => _ | _ => _ end) as [c| |] eqn:E;
      cbn in H; try discriminate.
    assert (H1 : viaAddError ctx c).
    { destruct (yaml.Kind root); try (injection E as <-; auto with via).
      destruct (yaml.Content root) as [|first rest];
        [injection E as <-; auto with via|].
      destruct (schema v) as [s|] eqn:Es.
      - eapply validateNode_via; eauto.
      - destruct fuel; cbn in E; injection E as <-; auto with via. }
    eapply viaAddError_trans; [exact H1|].
    destruct (IsStopped c); [injection H as <-; auto with via|].
    eapply IH; eauto.
  - injection H as <-. auto with via.
Qed.

(** What a context reached through [AddError] keeps and adds. *)
Lemma viaAddError_frame (ctx ctx' : ValidationContext) :
  viaAddError ctx ctx' ->
  extends (errors (collector ctx)) (errors (collector ctx'))
  /\ extends (warnings (collector ctx)) (warnings (collector ctx'))
  /\ StrictKeys ctx' = StrictKeys ctx /\ StopOnFirst ctx' = StopOnFirst ctx
  /\ StrictTypes ctx' = StrictTypes ctx
  /\ YAML11Booleans ctx' = YAML11Booleans ctx
  /\ SourceLines ctx' = SourceLines ctx
  /\ (stopped ctx = true -> ctx' = ctx).
Proof.
  intros [ds ->]. revert ctx. induction ds as [|d ds IH]; intros ctx; cbn.
  - repeat split; try (exists []; now rewrite app_nil_r); auto.
  - destruct (IH (AddError ctx d)) as (He & Hw & H1 & H2 & H3 & H4 & H5 & H6).
    assert (Hone : extends (errors (collector ctx)) (errors (collector (AddError ctx d)))
                   /\ extends (warnings (collector ctx))
                              (warnings (collector (AddError ctx d)))
                   /\ SourceLines (AddError ctx d) = SourceLines ctx).
    { unfold AddError, Add. destruct (stopped ctx).
      - repeat split; try (exists []; now rewrite app_nil_r).
      - destruct (Level d); cbn; destruct (StopOnFirst ctx); cbn;
          repeat split; try (exists []; now rewrite app_nil_r);
          try (now exists [d]). }
    destruct Hone as (He1 & Hw1 & Hl1).
    destruct (AddError_keeps_settings ctx d) as (K1 & K2 & K3 & K4).
    repeat split; try congruence.
    + destruct He1 as [s1 E1], He as [s2 E2]. exists (s1 ++ s2).
      rewrite E2, E1. now rewrite app_assoc.
    + destruct Hw1 as [s1 E1], Hw as [s2 E2]. exists (s1 ++ s2).
      rewrite E2, E1. now rewrite app_assoc.
    + intros Hs. rewrite (AddError_when_stopped ctx d Hs) in *. now apply H6.
Qed.

(** With stop-on-first set, a context reached through [AddError] from one
    that is not stopped holds at most one more Error, and is stopped exactly
    when it holds one. *)
Lemma viaAddError_stop_on_first (ctx ctx' : ValidationContext) :
  viaAddError ctx ctx' ->
  StopOnFirst ctx = true -> stopped ctx = false ->
  (errors (collector ctx') = errors (collector ctx) /\ stopped ctx' = false)
  \/ (exists e, Level e = LevelError
                /\ errors (collector ctx') = errors (collector ctx) ++ [e]
                /\ stopped ctx' = true).
Proof.
  intros [ds ->]. revert ctx. induction ds as [|d ds IH]; intros ctx Hsof Hs; cbn.
  - left. auto.
  - destruct (Level d) eqn:El.
    + destruct (AddError_warning ctx d Hs El) as (He & _ & Hst).
      destruct (AddError_keeps_settings ctx d) as (K & _).
      destruct (IH (AddError ctx d)) as [[H1 H2]|(e & H1 & H2 & H3)];
        try congruence.
      * left. split; congruence.
      * right. exists e. repeat split; congruence.
    + destruct (AddError_error ctx d Hs El) as (He & _ & Hst).
      right. exists d. rewrite foldl_AddError_when_stopped by congruence.
      repeat split; congruence.
Qed.

(** X1. Validation only appends: whatever the node, a schema whose
    validators report through [AddError] leaves the errors and warnings
    already recorded in place and in order, leaves the settings of the run
    alone, and does nothing at all on a run that is stopped. *)
Theorem validateNode_appends_only (fuel : nat) (node : yaml.Node)
        (schema : FieldSchema) (path : string) (ctx ctx' : ValidationContext) :
  reportsViaAddError schema ->
  validateNode fuel node (Some schema) path ctx = Done ctx' ->
  extends (errors (collector ctx)) (errors (collector ctx'))
  /\ extends (warnings (collector ctx)) (warnings (collector ctx'))
  /\ StrictKeys ctx' = StrictKeys ctx /\ StopOnFirst ctx' = StopOnFirst ctx
  /\ StrictTypes ctx' = StrictTypes ctx
  /\ YAML11Booleans ctx' = YAML11Booleans ctx
  /\ SourceLines ctx' = SourceLines ctx
  /\ (stopped ctx = true -> ctx' = ctx).
Proof.
  intros Hschema H. apply viaAddError_frame. eapply validateNode_via; eauto.
Qed.

(** X2. With [StopOnFirst] set, a whole run of [ValidateWithOptions] over
    any number of documents ends with at most one Error, whatever the
    schema, as long as its validators report through [AddError]. *)
Theorem stop_on_first_run_has_at_most_one_error (fuel : nat) (v : Validator)
        (data : string) (opts : ValidationContext) (r : ValidationResult) :
  reportsViaAddError_opt (schema v) ->
  StopOnFirst opts = true ->
  stopped opts = false ->
  ValidateWithOptions fuel v data opts = Done r ->
  (length (errors (Collector r)) <= 1)%nat.
Proof.
  intros Hschema Hsof Hs H. unfold ValidateWithOptions, validateWithContext in H.
  destruct (validateDocs _ _ _ _ _) as [ctx'| |] eqn:E; cbn in H;
    try discriminate.
  injection H as <-. cbn.
  apply validateDocs_via in E; [|exact Hschema].
  apply viaAddError_stop_on_first in E; [|exact Hsof|exact Hs].
  cbn in E. destruct E as [[-> _]|(e & _ & -> & _)]; cbn; lia.
Qed.

End Frame.

(** ** The validators of pkg/valuevalidator and pkg/keyvalidator *)

Section BundledValidators.
Context {lib : GoLib}.

Lemma AddError_changes (ctx : ValidationContext) (e : ValidationError) :
  stopped ctx = false -> AddError ctx e <> ctx.
Proof.
  intros Hs Heq. destruct (Level e) eqn:El.
  - destruct (AddError_warning ctx e Hs El) as (_ & Hw & _).
    rewrite Heq in Hw. apply (f_equal (@length _)) in Hw.
    rewrite length_app in Hw. cbn in Hw. lia.
  - destruct (AddError_error ctx e Hs El) as (He & _ & _).
    rewrite Heq in He. apply (f_equal (@length _)) in He.
    rewrite length_app in He. cbn in He. lia.
Qed.

Lemma Range_via (vld : valuevalidator.RangeValidator) node path ctx :
  viaAddError ctx (valuevalidator.RangeValidator_Validate vld node path ctx).
Proof.
  unfold valuevalidator.RangeValidator_Validate.
  destruct (valuevalidator.parseYAMLNumber node) as [val|];
    [|apply viaAddError_AddError].
  eapply viaAddError_trans.
  - instantiate (1 := match valuevalidator.Min vld with
                      | Some min => if SFltb val min then AddError ctx _ else ctx
                      | None => ctx
                      end).
    destruct (valuevalidator.Min vld); [destruct (SFltb _ _)|];
      first [apply viaAddError_AddError | apply viaAddError_refl].
  - destruct (valuevalidator.Max vld); [destruct (SFltb _ _)|];
      first [apply viaAddError_AddError | apply viaAddError_refl].
Qed.

Lemma SFltb_nan_l (f : float64) : SFltb S754_nan f = false.
Proof. reflexivity. Qed.

Lemma SFltb_nan_r (f : float64) : SFltb f S754_nan = false.
Proof. destruct f; reflexivity. Qed.

(** X3. Not-a-number passes every range: on a value whose lower-cased text
    is [.nan] the range validator records nothing, whatever the bounds. *)
Theorem range_accepts_nan (vld : valuevalidator.RangeValidator)
        (node : yaml.Node) (path : string) (ctx : ValidationContext) :
  gostrings.ToLower (yaml.Value node) = ".nan" ->
  valuevalidator.RangeValidator_Validate vld node path ctx = ctx.
Proof.
  intros Hnan. unfold valuevalidator.RangeValidator_Validate.
  assert (Hp : valuevalidator.parseYAMLNumber node = Some S754_nan).
  { unfold valuevalidator.parseYAMLNumber. rewrite Hnan. reflexivity. }
  rewrite Hp. destruct (valuevalidator.Min vld), (valuevalidator.Max vld);
    rewrite ?SFltb_nan_l, ?SFltb_nan_r; reflexivity.
Qed.

(** X4. The enum validator, on a run that is not stopped, leaves the
    context alone exactly when the value of the node is one of the allowed
    strings (compared byte for byte); otherwise it records exactly one
    Error, at the node, whose [Got] is the value. *)
Theorem enum_accepts_exactly_the_allowed
        (vld : valuevalidator.enum.EnumValidator) (node : yaml.Node)
        (path : string) (ctx : ValidationContext) :
  stopped ctx = false ->
  let ctx' := valuevalidator.enum.EnumValidator_Validate vld node path ctx in
  (ctx' = ctx <-> In (yaml.Value node) (valuevalidator.enum.Allowed vld))
  /\ (~ In (yaml.Value node) (valuevalidator.enum.Allowed vld) ->
      exists e, recordsOneError ctx ctx' e
                /\ Got e = yaml.Value node
                /\ Line e = yaml.Line node /\ Column e = yaml.Column node).
Proof.
  intros Hs ctx'. subst ctx'. unfold valuevalidator.enum.EnumValidator_Validate.
  destruct (existsb _ _) eqn:E.
  - apply existsb_exists in E as (a & Hin & Heq). apply str_eqb_eq in Heq.
    rewrite Heq. split; [tauto|]. intros Hn. contradiction.
  - assert (Hn : ~ In (yaml.Value node) (valuevalidator.enum.Allowed vld)).
    { intros Hin. apply not_true_iff_false in E. apply E.
      apply existsb_exists. exists (yaml.Value node).
      split; [exact Hin|apply str_eqb_refl]. }
    split.
    + split; [intros Heq; now apply AddError_changes in Heq|tauto].
    + intros _. eexists. split; [now apply AddError_recordsOneError|].
      cbn. auto.
Qed.

(** X5. The non-empty validator, on a run that is not stopped, records
    exactly one Error when the node is a scalar without text or a sequence
    or mapping without children, and nothing in every other case: an alias
    is never empty for it. *)
Theorem non_empty_rejects_exactly_the_empty (node : yaml.Node) (path : string)
        (ctx : ValidationContext) :
  stopped ctx = false ->
  let ctx' := valuevalidator.nonempty.NonEmptyValidator_Validate node path ctx in
  (emptyNode node ->
   recordsOneError ctx ctx' (valuevalidator.nonempty.emptyError node path))
  /\ (~ emptyNode node -> ctx' = ctx)
  /\ (yaml.Kind node = yaml.AliasNode -> ctx' = ctx).
Proof.
  intros Hs ctx'. subst ctx'.
  unfold valuevalidator.nonempty.NonEmptyValidator_Validate.
  assert (Hiff : valuevalidator.nonempty.isEmpty node = true <-> emptyNode node).
  { unfold valuevalidator.nonempty.isEmpty, emptyNode.
    assert (Hlen : (length (yaml.Content node) =? 0)%nat = true
                   <-> yaml.Content node = []).
    { destruct (yaml.Content node); cbn; split; congruence. }
    destruct (yaml.Kind node); rewrite ?str_eqb_eq, ?Hlen;
      intuition (try discriminate; auto). }
  split; [|split].
  - intros He. apply Hiff in He. rewrite He.
    now apply AddError_recordsOneError.
  - intros Hne. destruct (valuevalidator.nonempty.isEmpty node);
      [exfalso; apply Hne; now apply Hiff|reflexivity].
  - intros Hk. unfold valuevalidator.nonempty.isEmpty. now rewrite Hk.
Qed.

Lemma AddError_errors_grow (ctx : ValidationContext) (e : ValidationError) :
  (length (errors (collector ctx)) <= length (errors (collector (AddError ctx e))))%nat.
Proof.
  destruct (viaAddError_frame ctx (AddError ctx e) (viaAddError_AddError ctx e))
    as ([suffix ->] & _). rewrite length_app. lia.
Qed.

(** A check against two optional bounds, each violation reported as an
    Error: the context comes back unchanged exactly within the bounds. *)
Lemma bounds_check_iff (ctx : ValidationContext) (n : Z) (lo hi : option Z)
      (e1 e2 : Z -> ValidationError) :
  (forall m, Level (e1 m) = LevelError) ->
  (forall m, Level (e2 m) = LevelError) ->
  stopped ctx = false ->
  let c1 := match lo with
            | Some min => if n <? min then AddError ctx (e1 min) else ctx
            | None => ctx
            end in
  let c2 := match hi with
            | Some max => if max <? n then AddError c1 (e2 max) else c1
            | None => c1
            end in
  c2 = ctx <-> withinBounds lo hi n.
Proof.
  intros H1 H2 Hs c1 c2. unfold withinBounds.
  assert (Hgrow : forall e, Level e = LevelError ->
            (length (errors (collector ctx))
             < length (errors (collector (AddError ctx e))))%nat).
  { intros e He. destruct (AddError_error ctx e Hs He) as (-> & _).
    rewrite length_app. cbn. lia. }
  assert (Hc1 : c1 = ctx \/ (length (errors (collector ctx))
                             < length (errors (collector c1)))%nat).
  { subst c1. destruct lo as [min|]; [|now left].
    destruct (n <? min); [right; now apply Hgrow|now left]. }
  assert (Hlo : c1 = ctx <-> match lo with Some min => min <= n | None => True end).
  { subst c1. destruct lo as [min|]; [|tauto].
    destruct (Z.ltb_spec n min).
    - split; [intros Heq; now apply AddError_changes in Heq|lia].
    - split; [lia|reflexivity]. }
  subst c2. destruct hi as [max|].
  - destruct (Z.ltb_spec max n).
    + split; [|lia]. intros Heq. exfalso.
      pose proof (AddError_errors_grow c1 (e2 max)) as Hg. rewrite Heq in Hg.
      destruct Hc1 as [Hc1|Hc1]; [|lia].
      rewrite Hc1 in Heq. now apply AddError_changes in Heq.
    + rewrite Hlo. tauto.
  - rewrite Hlo. tauto.
Qed.

Lemma pairsOf_length (content : list yaml.Node) (ps : list kvPair) :
  pairsOf content = Done ps -> length content = (2 * length ps)%nat.
Proof.
  revert ps. induction content as [| |k v l IH] using list_pair_ind;
    intros ps H; cbn in H.
  - injection H as <-. reflexivity.
  - discriminate.
  - destruct (pairsOf l) as [ps'| |]; cbn in H; try discriminate.
    injection H as <-. cbn. rewrite (IH ps' eq_refl). lia.
Qed.

(** X6. The length validator, on a run that is not stopped, leaves the
    context alone exactly when the measured length lies within the bounds
    that are set, both inclusive. For a mapping the measured length is the
    number of its key/value pairs, the merge entries counted as written. *)
Theorem length_validator_bounds (vld : valuevalidator.length.LengthValidator)
        (node : yaml.Node) (path : string) (ctx : ValidationContext) :
  stopped ctx = false ->
  (valuevalidator.length.LengthValidator_Validate vld node path ctx = ctx
   <-> withinBounds (valuevalidator.length.Min vld)
                    (valuevalidator.length.Max vld)
                    (valuevalidator.length.measured node))
  /\ (forall ps, yaml.Kind node = yaml.MappingNode ->
                 pairsOf (yaml.Content node) = Done ps ->
                 valuevalidator.length.measured node = Z.of_nat (length ps)).
Proof.
  intros Hs. split.
  - unfold valuevalidator.length.LengthValidator_Validate.
    apply (bounds_check_iff ctx (valuevalidator.length.measured node) _ _
             (fun min => valuevalidator.length.lengthError node path
                           "length below minimum" (">= " +:+ fmt.d min))
             (fun max => valuevalidator.length.lengthError node path
                           "length above maximum" ("<= " +:+ fmt.d max)));
      auto.
  - intros ps Hk Hps. unfold valuevalidator.length.measured. rewrite Hk.
    rewrite (pairsOf_length _ _ Hps). rewrite Nat2Z.inj_mul.
    change (Z.of_nat 2) with 2. now rewrite Z.mul_comm, Z.div_mul.
Qed.

(** *** The scheme of a URL *)

Lemma scheme_byte_not_colon (c : Z) :
  valuevalidator.url.isLetter c || valuevalidator.url.isSchemeExtra c = true ->
  (c =? 58) = false.
Proof.
  unfold valuevalidator.url.isLetter, valuevalidator.url.isSchemeExtra, is_digit.
  intros H. apply Z.eqb_neq. intros ->. vm_compute in H. discriminate.
Qed.

Lemma findSchemeEnd_loop_complete (scheme rest : list Z) (i : Z) :
  0 < i ->
  forallb (fun c => valuevalidator.url.isLetter c
                    || valuevalidator.url.isSchemeExtra c) scheme = true ->
  valuevalidator.url.findSchemeEnd_loop (scheme ++ schemeSeparator ++ rest) i
  = i + Z.of_nat (length scheme).
Proof.
  revert i. induction scheme as [|c scheme IH]; intros i Hi Hall; cbn.
  - replace (0 <? i) with true by (symmetry; now apply Z.ltb_lt). cbn. lia.
  - cbn in Hall. apply andb_true_iff in Hall as [Hc Hall].
    rewrite (scheme_byte_not_colon c Hc).
    replace (0 <? i) with true by (symmetry; now apply Z.ltb_lt).
    rewrite andb_true_l. rewrite Hc. cbn [negb].
    rewrite IH by (auto; lia). lia.
Qed.

Lemma findSchemeEnd_loop_sound (s : list Z) (i r : Z) :
  0 < i ->
  valuevalidator.url.findSchemeEnd_loop s i = r ->
  r = -1
  \/ exists scheme rest,
       s = scheme ++ schemeSeparator ++ rest
       /\ r = i + Z.of_nat (length scheme)
       /\ forallb (fun c => valuevalidator.url.isLetter c
                            || valuevalidator.url.isSchemeExtra c) scheme = true.
Proof.
  revert i r. induction s as [|c s IH]; intros i r Hi H; cbn in H.
  - now left.
  - destruct (c =? 58) eqn:Ec.
    + apply Z.eqb_eq in Ec. subst c.
      destruct s as [|c1 [|c2 s']]; try (now left).
      replace (0 <? i) with true in H by (symmetry; now apply Z.ltb_lt).
      cbn in H. destruct (c1 =? 47) eqn:E1; [|now left].
      destruct (c2 =? 47) eqn:E2; [|now left]. cbn in H.
      apply Z.eqb_eq in E1, E2. subst. right. exists [], s'.
      cbn. repeat split. lia.
    + replace (0 <? i) with true in H by (symmetry; now apply Z.ltb_lt).
      rewrite andb_true_l in H.
      destruct (valuevalidator.url.isLetter c
                || valuevalidator.url.isSchemeExtra c) eqn:Hc;
        cbn in H; [|now left].
      destruct (IH (i + 1) r ltac:(lia) H)
        as [->|(scheme & rest & -> & -> & Hall)]; [now left|].
      right. exists (c :: scheme), rest. cbn. rewrite Hc, Hall.
      repeat split. lia.
Qed.

(** X7. [findSchemeEnd] finds a scheme exactly where there is one: it
    returns the length of the scheme when the value is a letter followed by
    letters, digits, [+], [-], [.], then [://]; and whenever it returns
    anything but -1, the value has that form and the result is the
    (positive) length of the scheme. *)
Theorem findSchemeEnd_spec (s : string) :
  (forall scheme rest,
      validScheme scheme = true ->
      bytes_of s = scheme ++ schemeSeparator ++ rest ->
      valuevalidator.url.findSchemeEnd s = Z.of_nat (length scheme))
  /\ (valuevalidator.url.findSchemeEnd s <> -1 ->
      exists scheme rest,
        validScheme scheme = true
        /\ bytes_of s = scheme ++ schemeSeparator ++ rest
        /\ valuevalidator.url.findSchemeEnd s = Z.of_nat (length scheme)
        /\ 0 < valuevalidator.url.findSchemeEnd s).
Proof.
  unfold valuevalidator.url.findSchemeEnd. split.
  - intros scheme rest Hvalid ->. destruct scheme as [|c scheme];
      [discriminate|]. cbn in Hvalid.
    apply andb_true_iff in Hvalid as [Hc Hall].
    cbn [app valuevalidator.url.findSchemeEnd_loop].
    assert (Hc' : valuevalidator.url.isLetter c
                  || valuevalidator.url.isSchemeExtra c = true)
      by (rewrite Hc; reflexivity).
    rewrite (scheme_byte_not_colon c Hc'), Hc. cbn [orb negb].
    rewrite findSchemeEnd_loop_complete by (auto; lia).
    cbn [length]. lia.
  - destruct (bytes_of s) as [|c bs]; cbn; [intros Hr; now exfalso|].
    destruct (c =? 58) eqn:Ec.
    + destruct bs as [|c1 [|c2 bs']]; cbn; intros Hr; now exfalso.
    + cbn. destruct (valuevalidator.url.isLetter c) eqn:Hc; cbn;
        [|intros Hr; now exfalso].
      intros Hr.
      destruct (findSchemeEnd_loop_sound bs 1 _ ltac:(lia) eq_refl)
        as [Hm|(scheme & rest & -> & Heq & Hall)];
        [exfalso; apply Hr; exact Hm|].
      change (valuevalidator.url.findSchemeEnd_loop
                (scheme ++ schemeSeparator ++ rest) (0 + 1))
        with (valuevalidator.url.findSchemeEnd_loop
                (scheme ++ schemeSeparator ++ rest) 1).
      exists (c :: scheme), rest. cbn [validScheme length app].
      rewrite Hc, Hall. repeat split; lia.
Qed.

(** X8. The forbidden-key validator, on a run that is not stopped, leaves
    the context alone exactly when the key is not on the list, and records
    exactly one Error, at the key node, when it is, however often the key
    is listed. *)
Theorem forbidden_key_rejects_exactly_the_listed
        (vld : keyvalidator.ForbiddenKeyValidator) (k : string)
        (keyNode : yaml.Node) (path : string) (ctx : ValidationContext) :
  stopped ctx = false ->
  let ctx' := keyvalidator.ForbiddenKeyValidator_ValidateKey vld k keyNode path ctx in
  (ctx' = ctx <-> ~ In k (keyvalidator.Forbidden vld))
  /\ (In k (keyvalidator.Forbidden vld) ->
      recordsOneError ctx ctx' (keyvalidator.forbiddenError vld k keyNode path)
      /\ Line (keyvalidator.forbiddenError vld k keyNode path) = yaml.Line keyNode
      /\ Column (keyvalidator.forbiddenError vld k keyNode path)
         = yaml.Column keyNode).
Proof.
  intros Hs ctx'. subst ctx'.
  unfold keyvalidator.ForbiddenKeyValidator_ValidateKey.
  induction (keyvalidator.Forbidden vld) as [|f l [IH1 IH2]]; cbn.
  - split; [tauto|]. intros [].
  - destruct (str_eqb k f) eqn:E.
    + apply str_eqb_eq in E as <-. split.
      * split; [intros Heq; now apply AddError_changes in Heq|intros Hn].
        exfalso. apply Hn. now left.
      * intros _. split; [now apply AddError_recordsOneError|auto].
    + apply str_eqb_neq in E. split.
      * rewrite IH1. intuition congruence.
      * intros [Heq|Hin]; [congruence|now apply IH2].
Qed.

End BundledValidators.

(** ** The caret renderer on every line *)

Section Rendering.

Lemma DecodeRune_size (p : list Z) :
  p <> [] -> (1 <= (utf8.DecodeRune p).2 <= length p)%nat.
Proof.
  intros Hp. unfold utf8.DecodeRune.
  destruct p as [|s0 rest]; [congruence|]. clear Hp.
  destruct (s0 <? utf8.RuneSelf); [cbn; lia|].
  destruct (utf8.first s0) as [[[sz lo] hi]|]; [|cbn; lia].
  destruct (length (s0 :: rest) <? sz)%nat; [cbn; lia|].
  destruct rest as [|s1 rest1]; [cbn; lia|].
  destruct ((s1 <? lo) || (hi <? s1)); [cbn; lia|].
  destruct (sz <=? 2)%nat; [cbn; lia|].
  destruct rest1 as [|s2 rest2]; [cbn; lia|].
  destruct (negb (utf8.cont s2)); [cbn; lia|].
  destruct (sz <=? 3)%nat; [cbn; lia|].
  destruct rest2 as [|s3 rest3]; [cbn; lia|].
  destruct (negb (utf8.cont s3)); cbn; lia.
Qed.

(** One turn of the loop, as a function of the state. *)
Lemma renderLoop_step (fuel : nat) (b : Z) (rest : list Z) (bytePos byteCol : Z)
      (st : renderState) :
  exists st',
    renderLoop (S fuel) (b :: rest) bytePos byteCol st
    = renderLoop fuel (drop (utf8.DecodeRune (b :: rest)).2 (b :: rest))
                 (bytePos + Z.of_nat (utf8.DecodeRune (b :: rest)).2) byteCol st'
    /\ (exists add, sb st' = sb st ++ add
                    /\ add = (if (if ((utf8.DecodeRune (b :: rest)).1 =? utf8.RuneError)
                                       && ((utf8.DecodeRune (b :: rest)).2 =? 1)%nat
                                  then 65533 else (utf8.DecodeRune (b :: rest)).1) =? 9
                              then repeat 32 (Z.to_nat (tabWidth - visual st mod tabWidth))
                              else utf8.EncodeRune
                                     (if ((utf8.DecodeRune (b :: rest)).1 =? utf8.RuneError)
                                         && ((utf8.DecodeRune (b :: rest)).2 =? 1)%nat
                                      then 65533 else (utf8.DecodeRune (b :: rest)).1)))
    /\ (visual st' = visual st + 1
        \/ visual st' = visual st + (tabWidth - visual st mod tabWidth))
    /\ caretSet st' = (caretSet st
                       || (negb (caretSet st) && (0 <? byteCol)
                           && (byteCol - 1 <=? bytePos)))
    /\ visualCol st' = (if negb (caretSet st) && (0 <? byteCol)
                           && (byteCol - 1 <=? bytePos)
                        then visual st + 1 else visualCol st).
Proof.
  cbn [renderLoop]. destruct (utf8.DecodeRune (b :: rest)) as [r size].
  cbn [fst snd].
  set (r' := if (r =? utf8.RuneError) && (size =? 1)%nat then 65533 else r).
  destruct (r' =? 9) eqn:Er.
  - eexists. split; [reflexivity|]. cbn.
    split; [eexists; split; reflexivity|]. split; [now right|].
    destruct (caretSet st); cbn; [auto|].
    destruct ((0 <? byteCol) && (byteCol - 1 <=? bytePos)); auto.
  - eexists. split; [reflexivity|]. cbn.
    split; [eexists; split; reflexivity|]. split; [now left|].
    destruct (caretSet st); cbn; [auto|].
    destruct ((0 <? byteCol) && (byteCol - 1 <=? bytePos)); auto.
Qed.

Lemma renderLoop_text (fuel : nat) (rest : list Z) (bp1 bc1 bp2 bc2 : Z)
      (st1 st2 : renderState) :
  sb st1 = sb st2 -> visual st1 = visual st2 ->
  sb (renderLoop fuel rest bp1 bc1 st1) = sb (renderLoop fuel rest bp2 bc2 st2)
  /\ visual (renderLoop fuel rest bp1 bc1 st1)
     = visual (renderLoop fuel rest bp2 bc2 st2).
Proof.
  revert rest bp1 bp2 st1 st2.
  induction fuel as [|fuel IH]; intros rest bp1 bp2 st1 st2 Hsb Hv;
    [cbn; auto|].
  destruct rest as [|b rest]; [cbn; auto|].
  cbn [renderLoop]. destruct (utf8.DecodeRune (b :: rest)) as [r size].
  set (r' := if (r =? utf8.RuneError) && (size =? 1)%nat then 65533 else r).
  destruct (r' =? 9); apply IH; cbn; congruence.
Qed.

(** X9. What is rendered does not depend on the column asked for: the
    rendered line and its length are the same for every byte column. *)
Theorem rendered_line_ignores_column (line : string) (col1 col2 : Z) :
  (renderLineWithCaret line col1).1.1 = (renderLineWithCaret line col2).1.1
  /\ (renderLineWithCaret line col1).2 = (renderLineWithCaret line col2).2.
Proof.
  unfold renderLineWithCaret. cbn [fst snd].
  destruct (renderLoop_text (length (bytes_of line)) (bytes_of line) 0
              (if len line + 1 <? col1 then len line + 1 else col1) 0
              (if len line + 1 <? col2 then len line + 1 else col2)
              {| sb := []; visual := 0; visualCol := 0; caretSet := false |}
              {| sb := []; visual := 0; visualCol := 0; caretSet := false |}
              eq_refl eq_refl) as [Hsb Hv].
  split; [now rewrite Hsb|exact Hv].
Qed.

(** The caret invariant of the loop. *)
Lemma renderLoop_caret (fuel : nat) (rest : list Z) (bytePos byteCol : Z)
      (st : renderState) :
  0 <= visual st ->
  (caretSet st = true -> 0 < byteCol /\ 1 <= visualCol st <= visual st) ->
  (caretSet st = false -> visualCol st = 0) ->
  let st' := renderLoop fuel rest bytePos byteCol st in
  0 <= visual st'
  /\ (caretSet st' = true -> 0 < byteCol /\ 1 <= visualCol st' <= visual st')
  /\ (caretSet st' = false -> visualCol st' = 0).
Proof.
  revert rest bytePos st.
  induction fuel as [|fuel IH]; intros rest bytePos st Hv Hset Hunset;
    [cbn; auto|].
  destruct rest as [|b rest]; [cbn; auto|].
  destruct (renderLoop_step fuel b rest bytePos byteCol st)
    as (st1 & -> & _ & Hvis & Hcs & Hvc).
  assert (Hmod : 0 <= visual st mod tabWidth < tabWidth)
    by (apply Z.mod_pos_bound; reflexivity).
  unfold tabWidth in *.
  apply IH.
  - lia.
  - rewrite Hcs, Hvc. intros Ht.
    destruct (caretSet st) eqn:Ecs; cbn [negb andb orb] in *.
    + destruct (Hset eq_refl). lia.
    + destruct (Z.ltb_spec 0 byteCol); cbn [andb] in *; [|discriminate].
      rewrite Ht. lia.
  - rewrite Hcs, Hvc. intros Hf.
    destruct (caretSet st) eqn:Ecs; cbn [negb andb orb] in *; [discriminate|].
    rewrite Hf. now apply Hunset.
Qed.

(** X10. The visual column never leaves the rendered line by more than
    one: for a byte column of 1 or more it lies between 1 and the rendered
    length plus one, for a byte column of 0 or less it is 0 (no caret). The
    bounds protection of [FormatErrorWithSource] therefore never applies. *)
Theorem caret_within_rendered_line (line : string) (byteCol : Z) :
  let '(rendered, vcol, renderedLen) := renderLineWithCaret line byteCol in
  0 <= renderedLen
  /\ (byteCol <= 0 -> vcol = 0)
  /\ (0 < byteCol -> 1 <= vcol <= renderedLen + 1).
Proof.
  unfold renderLineWithCaret.
  set (bc := if len line + 1 <? byteCol then len line + 1 else byteCol).
  assert (Hlen : 0 <= len line) by (unfold len; lia).
  assert (Hbc : (byteCol <= 0 -> bc <= 0) /\ (0 < byteCol -> 0 < bc)).
  { subst bc. destruct (Z.ltb_spec (len line + 1) byteCol); lia. }
  destruct (renderLoop_caret (length (bytes_of line)) (bytes_of line) 0 bc
              {| sb := []; visual := 0; visualCol := 0; caretSet := false |})
    as (Hv & Hset & Hunset); cbn; try lia; try discriminate; auto.
  set (st := renderLoop _ _ _ _ _) in *.
  split; [exact Hv|]. destruct (caretSet st) eqn:Ecs; cbn.
  - destruct (Hset eq_refl). split; lia.
  - specialize (Hunset eq_refl).
    destruct (Z.ltb_spec 0 bc); split; intros; lia.
Qed.

Lemma string_of_bytes_of (s : string) : string_of_bytes (bytes_of s) = s.
Proof.
  unfold string_of_bytes, bytes_of. rewrite map_map.
  rewrite <- (string_of_list_ascii_of_string s) at 2. f_equal.
  induction (list_ascii_of_string s) as [|c l IH]; cbn; [reflexivity|].
  rewrite IH. f_equal. unfold chr, ord. rewrite N2Z.id.
  apply ascii_N_embedding.
Qed.

Lemma bytes_of_length (s : string) : Z.of_nat (length (bytes_of s)) = len s.
Proof.
  unfold bytes_of, len. rewrite length_map. f_equal.
  induction s as [|c s IH]; cbn; congruence.
Qed.

Lemma renderLoop_caret_kept (fuel : nat) (rest : list Z) (bytePos byteCol : Z)
      (st : renderState) :
  caretSet st = true ->
  caretSet (renderLoop fuel rest bytePos byteCol st) = true
  /\ visualCol (renderLoop fuel rest bytePos byteCol st) = visualCol st.
Proof.
  revert rest bytePos st.
  induction fuel as [|fuel IH]; intros rest bytePos st Hs; [cbn; auto|].
  destruct rest as [|x rest]; [cbn; auto|].
  destruct (renderLoop_step fuel x rest bytePos byteCol st)
    as (s1 & -> & _ & _ & Hcs1 & Hvc1).
  rewrite Hs in Hcs1, Hvc1. cbn in Hcs1, Hvc1.
  destruct (IH (drop (utf8.DecodeRune (x :: rest)).2 (x :: rest))
               (bytePos + Z.of_nat (utf8.DecodeRune (x :: rest)).2) s1 Hcs1)
    as [E1 E2]. split; [exact E1|congruence].
Qed.

Lemma renderLoop_plain (rest : list Z) (fuel : nat) (bytePos byteCol : Z)
      (st : renderState) :
  Forall plainByte rest -> (length rest <= fuel)%nat ->
  let st' := renderLoop fuel rest bytePos byteCol st in
  sb st' = sb st ++ rest
  /\ visual st' = visual st + Z.of_nat (length rest)
  /\ (caretSet st = false -> visual st = bytePos ->
      (0 < byteCol -> bytePos <= byteCol - 1) ->
      if (0 <? byteCol) && (byteCol - 1 <? bytePos + Z.of_nat (length rest))
      then caretSet st' = true /\ visualCol st' = byteCol
      else caretSet st' = false).
Proof.
  intros Hplain. revert fuel bytePos st.
  induction Hplain as [|b rest [Hb Htab] _ IH]; intros fuel bytePos st Hfuel.
  - assert (Hnil : renderLoop fuel [] bytePos byteCol st = st)
      by (destruct fuel; reflexivity).
    rewrite Hnil. cbn [length]. change (Z.of_nat 0) with 0.
    rewrite app_nil_r, !Z.add_0_r.
    split; [reflexivity|]. split; [reflexivity|]. intros Hcs Hv Hle.
    destruct (Z.ltb_spec 0 byteCol); cbn [andb]; [|exact Hcs].
    destruct (Z.ltb_spec (byteCol - 1) bytePos); [lia|exact Hcs].
  - destruct fuel as [|fuel]; [cbn in Hfuel; lia|].
    cbn [renderLoop].
    assert (Hdec : utf8.DecodeRune (b :: rest) = (b, 1%nat)).
    { unfold utf8.DecodeRune, utf8.RuneSelf.
      destruct (Z.ltb_spec b 128); [reflexivity|lia]. }
    rewrite Hdec. cbv beta iota zeta.
    replace ((b =? utf8.RuneError) && (1 =? 1)%nat) with false
      by (symmetry; apply andb_false_iff; left; apply Z.eqb_neq;
          unfold utf8.RuneError; lia).
    replace (b =? 9) with false by (symmetry; now apply Z.eqb_neq).
    assert (Henc : utf8.EncodeRune b = [b]).
    { unfold utf8.EncodeRune, utf8.RuneSelf.
      destruct (Z.leb_spec 0 b); [|lia]. destruct (Z.ltb_spec b 128); [|lia].
      reflexivity. }
    rewrite Henc. cbn [drop]. rewrite drop_0.
    match goal with
    | |- context [renderLoop fuel rest ?bp byteCol ?s] =>
      destruct (IH fuel bp s ltac:(cbn in Hfuel; lia)) as (Hsb & Hvis & Hcaret)
    end.
    cbn [sb visual visualCol caretSet] in *.
    rewrite Hsb, Hvis. rewrite <- app_assoc. cbn [app length].
    split; [reflexivity|]. split; [lia|].
    intros Hcs Hv Hle. rewrite Hcs in *. cbn [negb andb] in *.
    destruct (Z.ltb_spec 0 byteCol) as [Hpos|Hneg]; cbn [andb] in *.
    + destruct (Z.leb_spec (byteCol - 1) bytePos) as [Hhere|Hlater].
      * (* the caret is set at this byte *)
        assert (byteCol - 1 = bytePos) by lia.
        replace (byteCol - 1 <? bytePos + Z.of_nat (S (length rest))) with true
          by (symmetry; apply Z.ltb_lt; lia).
        clear Hcaret.
        match goal with
        | |- context [renderLoop fuel rest ?bp byteCol ?s] =>
          destruct (renderLoop_caret_kept fuel rest bp byteCol s eq_refl)
            as [K1 K2]
        end.
        cbn [visualCol] in K2.
        split; [exact K1|]. lia.
      * specialize (Hcaret eq_refl ltac:(lia) ltac:(lia)).
        replace (0 <? byteCol) with true in Hcaret
          by (symmetry; now apply Z.ltb_lt).
        cbn [andb] in Hcaret.
        replace (bytePos + Z.of_nat 1 + Z.of_nat (length rest))
          with (bytePos + Z.of_nat (S (length rest))) in Hcaret by lia.
        exact Hcaret.
    + specialize (Hcaret eq_refl ltac:(lia) ltac:(lia)).
      replace (0 <? byteCol) with false in Hcaret
        by (symmetry; now apply Z.ltb_ge).
      exact Hcaret.
Qed.

(** X11. A line of plain text, ASCII without a tab, is rendered as it is,
    its rendered length is its length in bytes, and the caret stands in the
    byte column asked for, taken back to one past the end of the line when
    it lies beyond; a column of 0 or less gives no caret. *)
Theorem plain_line_renders_to_itself (line : string) (byteCol : Z) :
  Forall plainByte (bytes_of line) ->
  renderLineWithCaret line byteCol
  = (line, (if 0 <? byteCol then Z.min byteCol (len line + 1) else 0), len line).
Proof.
  intros Hplain. unfold renderLineWithCaret.
  set (bc := if len line + 1 <? byteCol then len line + 1 else byteCol).
  assert (Hlen : 0 <= len line) by (unfold len; lia).
  destruct (renderLoop_plain (bytes_of line) (length (bytes_of line)) 0 bc
              {| sb := []; visual := 0; visualCol := 0; caretSet := false |}
              Hplain (le_n _)) as (Hsb & Hvis & Hcaret).
  cbn [sb visual visualCol caretSet app] in Hsb, Hvis, Hcaret.
  specialize (Hcaret eq_refl eq_refl ltac:(lia)).
  rewrite bytes_of_length in Hvis, Hcaret.
  set (st := renderLoop _ _ _ _ _) in *.
  rewrite Hsb, Hvis, string_of_bytes_of. rewrite Z.add_0_l in *.
  f_equal. f_equal. subst bc.
  destruct (Z.ltb_spec (len line + 1) byteCol) as [Hbeyond|Hwithin].
  - replace (0 <? len line + 1) with true in * by (symmetry; apply Z.ltb_lt; lia).
    replace (0 <? byteCol) with true by (symmetry; apply Z.ltb_lt; lia).
    replace (len line + 1 - 1 <? len line) with false in Hcaret
      by (symmetry; apply Z.ltb_ge; lia).
    cbn [andb] in Hcaret. rewrite Hcaret. cbn [negb andb]. lia.
  - destruct (Z.ltb_spec 0 byteCol) as [Hpos|Hneg]; cbn [andb] in *.
    + destruct (Z.ltb_spec (byteCol - 1) (len line)).
      * destruct Hcaret as [-> ->]. cbn [negb andb]. lia.
      * rewrite Hcaret. cbn [negb andb]. lia.
    + rewrite Hcaret. cbn [negb andb].
      pose proof (renderLoop_caret (length (bytes_of line)) (bytes_of line) 0
                    byteCol
                    {| sb := []; visual := 0; visualCol := 0; caretSet := false |})
        as Hinv.
      cbn [sb visual visualCol caretSet] in Hinv. fold st in Hinv.
      destruct Hinv as (_ & _ & Hzero); [lia|discriminate|reflexivity|].
      now apply Hzero.
Qed.

End Rendering.

(** ** Checks of a mapping, sequences, aliases and the document loop *)

Section MoreChecks.
Context {lib : GoLib}.

Lemma checkRequiredFields_fold (node : yaml.Node) (path : string)
      (foundKeys : gmap string yaml.Node) (l : list (string * FieldSchema))
      (ctx : ValidationContext) :
  stopped ctx = false -> StopOnFirst ctx = false ->
  let ctx' :=
    foldl (fun ctx (entry : string * FieldSchema) =>
             let '(k, fieldSchema) := entry in
             if Required fieldSchema && negb (present foundKeys k) then
               AddError ctx
                 {| Level := LevelError; Path := cleanPath (joinPath path k);
                    Line := yaml.Line node; Column := yaml.Column node;
                    Message := "required field " +:+ strconv_Quote k
                               +:+ " is missing";
                    Got := ""; Expected := "" |}
             else ctx) ctx l in
  errors (collector ctx')
  = errors (collector ctx)
    ++ map (missingRequired node path)
           (map fst (List.filter (isMissing foundKeys) l))
  /\ warnings (collector ctx') = warnings (collector ctx)
  /\ (List.filter (isMissing foundKeys) l = [] -> ctx' = ctx).
Proof.
  revert ctx. induction l as [|[k fs] l IH]; intros ctx Hs Hf.
  - cbn. rewrite app_nil_r. auto.
  - cbn [foldl List.filter]. unfold isMissing at 1 3 4. cbn [fst snd].
    destruct (Required fs && negb (present foundKeys k)) eqn:Hm.
    + fold (missingRequired node path k).
      destruct (AddError_error ctx (missingRequired node path k) Hs eq_refl)
        as (He & Hw & Hst).
      destruct (AddError_keeps_settings ctx (missingRequired node path k))
        as (Hsf & _).
      destruct (IH (AddError ctx (missingRequired node path k)))
        as (IHe & IHw & _); [congruence|congruence|].
      cbv zeta. rewrite IHe, IHw, He, Hw. cbn [map fst].
      rewrite <- app_assoc. repeat split; auto. discriminate.
    + apply IH; assumption.
Qed.

(** X12. Without stop-on-first, [checkRequiredFields] records one error
    for every required key that is absent and nothing else: the errors
    added are, in some order (the order of Go's map iteration), those of the
    absent required keys, each at the position of the mapping; no warning is
    added, and the context is unchanged exactly when no required key is
    absent. *)
Theorem required_fields_reported (node : yaml.Node) (schema : FieldSchema)
        (path : string) (foundKeys : gmap string yaml.Node)
        (ctx : ValidationContext) :
  stopped ctx = false -> StopOnFirst ctx = false ->
  let ctx' := checkRequiredFields node schema path foundKeys ctx in
  (exists added,
      errors (collector ctx') = errors (collector ctx) ++ added
      /\ Permutation added (map (missingRequired node path)
                                (missingKeys schema foundKeys)))
  /\ warnings (collector ctx') = warnings (collector ctx)
  /\ (ctx' = ctx <->
      forall k fs, AllowedKeys schema !! k = Some fs -> Required fs = true ->
                   is_Some (foundKeys !! k)).
Proof.
  intros Hs Hf ctx'.
  destruct (checkRequiredFields_fold node path foundKeys
              (map_range (AllowedKeys schema)) ctx Hs Hf) as (He & Hw & Hnone).
  fold (checkRequiredFields node schema path foundKeys ctx) in He, Hw, Hnone.
  fold ctx' in He, Hw, Hnone.
  assert (Hperm : Permutation
                    (List.filter (isMissing foundKeys)
                                 (map_range (AllowedKeys schema)))
                    (List.filter (isMissing foundKeys)
                                 (map_to_list (AllowedKeys schema))))
    by (apply List_filter_Permutation, map_range_perm).
  split; [|split; [exact Hw|]].
  - eexists. split; [exact He|]. unfold missingKeys.
    now apply Permutation_map, Permutation_map.
  - split.
    + intros Heq k fs Hk Hreq.
      destruct (foundKeys !! k) as [n|] eqn:Hfound; [eauto|exfalso].
      assert (Hin : In (k, fs) (List.filter (isMissing foundKeys)
                                  (map_to_list (AllowedKeys schema)))).
      { apply List.filter_In. split.
        - apply list_elem_of_In, elem_of_map_to_list. exact Hk.
        - unfold isMissing, present. cbn [fst snd]. now rewrite Hreq, Hfound. }
      apply (Permutation_in _ (Permutation_sym Hperm)) in Hin.
      rewrite Heq in He. apply (f_equal (@length _)) in He.
      rewrite length_app, !length_map in He.
      destruct (List.filter (isMissing foundKeys)
                            (map_range (AllowedKeys schema)));
        [destruct Hin|cbn in He; lia].
    + intros Hall. apply Hnone.
      destruct (List.filter (isMissing foundKeys)
                            (map_range (AllowedKeys schema)))
        as [|[k fs] rest] eqn:Hfl; [reflexivity|exfalso].
      assert (Hin : In (k, fs) (List.filter (isMissing foundKeys)
                                  (map_to_list (AllowedKeys schema))))
        by (apply (Permutation_in _ Hperm); now left).
      apply List.filter_In in Hin. destruct Hin as [Hin Hm].
      apply list_elem_of_In, elem_of_map_to_list in Hin.
      unfold isMissing, present in Hm. cbn [fst snd] in Hm.
      apply andb_true_iff in Hm. destruct Hm as [Hreq Habs].
      destruct (Hall k fs Hin Hreq) as [n Hn]. rewrite Hn in Habs. discriminate.
Qed.

(** X13. The item bounds of a sequence are inclusive: a sequence whose
    schema has no item schema passes exactly when its number of items is
    at least [MinItems] and at most [MaxItems], for the bounds that are
    set. *)
Theorem sequence_item_count_bounds (rec : validateNodeT) (node : yaml.Node)
        (schema : FieldSchema) (path : string) (ctx : ValidationContext) :
  stopped ctx = false -> ItemSchema schema = None ->
  (validateSequence rec node schema path ctx = Done ctx
   <-> withinBounds (MinItems schema) (MaxItems schema)
                    (Z.of_nat (length (yaml.Content node)))).
Proof.
  intros Hs Hitem. unfold validateSequence. rewrite Hitem.
  pose proof (bounds_check_iff ctx (Z.of_nat (length (yaml.Content node)))
                (MinItems schema) (MaxItems schema)
                (fun min => itemCountError node path "too few items"
                                           ("at least " +:+ fmt.d min))
                (fun max => itemCountError node path "too many items"
                                           ("at most " +:+ fmt.d max))
                (fun _ => eq_refl) (fun _ => eq_refl) Hs) as Hiff.
  cbv zeta in Hiff |- *. rewrite <- Hiff.
  split; [intros H; injection H as H; exact H|intros H; f_equal; exact H].
Qed.

(** X14. A document that does not parse ends the run: the documents after
    it are never looked at, whatever came before it. *)
Theorem decode_error_ends_the_run (fuel : nat) (v : Validator)
        (before after : list yaml.Decoded) (msg : string) (docIndex : Z)
        (ctx : ValidationContext) :
  validateDocs fuel v (before ++ yaml.DecodeErr msg :: after) docIndex ctx
  = validateDocs fuel v (before ++ [yaml.DecodeErr msg]) docIndex ctx.
Proof.
  revert docIndex ctx.
  induction before as [|d before IH]; intros docIndex ctx; [reflexivity|].
  destruct d as [root|msg']; [|reflexivity].
  cbn [app validateDocs].
  destruct (match yaml.Kind root, yaml.Content root with
            | yaml.DocumentNode, first :: _ =>
              validateNode fuel first (schema v)
                (if 0 <? docIndex then "doc[" +:+ fmt.d docIndex +:+ "]" else "")
                ctx
            | _, _ => Done ctx
            end) as [ctx'| |]; cbn [obind]; try reflexivity.
  destruct (IsStopped ctx'); [reflexivity|apply IH].
Qed.

(** X15. An alias is validated as the node it points to: the same checks
    run on the target, and whatever they report carries the position of the
    target, not of the alias. *)
Theorem alias_validates_as_its_target (fuel : nat) (node target : yaml.Node)
        (schema : option FieldSchema) (path : string) (ctx : ValidationContext) :
  yaml.Kind node = yaml.AliasNode ->
  yaml.Alias node = Some target ->
  yaml.Kind target <> yaml.AliasNode ->
  validateNode fuel node schema path ctx
  = validateNode fuel target schema path ctx.
Proof.
  intros Hk Ha Ht. destruct schema as [s|]; [|destruct fuel; reflexivity].
  destruct fuel as [|fuel]; [reflexivity|].
  cbn [validateNode]. rewrite Hk, Ha.
  destruct (yaml.Kind target) eqn:Hkt; try congruence;
    cbv beta iota zeta; rewrite ?Hkt; reflexivity.
Qed.

Lemma DecodeRune_size_le_4 (p : list Z) : ((utf8.DecodeRune p).2 <= 4)%nat.
Proof.
  unfold utf8.DecodeRune.
  destruct p as [|s0 rest]; [cbn; lia|].
  destruct (s0 <? utf8.RuneSelf); [cbn; lia|].
  destruct (utf8.first s0) as [[[sz lo] hi]|]; [|cbn; lia].
  destruct (length (s0 :: rest) <? sz)%nat; [cbn; lia|].
  destruct rest as [|s1 rest1]; [cbn; lia|].
  destruct ((s1 <? lo) || (hi <? s1)); [cbn; lia|].
  destruct (sz <=? 2)%nat; [cbn; lia|].
  destruct rest1 as [|s2 rest2]; [cbn; lia|].
  destruct (negb (utf8.cont s2)); [cbn; lia|].
  destruct (sz <=? 3)%nat; [cbn; lia|].
  destruct rest2 as [|s3 rest3]; [cbn; lia|].
  destruct (negb (utf8.cont s3)); cbn; lia.
Qed.

Lemma runes_fuel_length (fuel : nat) (p : list Z) :
  (length p <= fuel)%nat ->
  (length (utf8.runes_fuel fuel p) <= length p
   /\ length p <= 4 * length (utf8.runes_fuel fuel p))%nat.
Proof.
  revert p. induction fuel as [|fuel IH]; intros p Hp.
  - destruct p; cbn in *; lia.
  - destruct p as [|b p]; [cbn; lia|].
    cbn [utf8.runes_fuel].
    pose proof (DecodeRune_size (b :: p) ltac:(discriminate)) as Hsz.
    pose proof (DecodeRune_size_le_4 (b :: p)) as Hsz4.
    destruct (utf8.DecodeRune (b :: p)) as [r size]. cbn [fst snd] in *.
    assert (Hdrop : length (drop size (b :: p)) = (length (b :: p) - size)%nat)
      by apply length_drop.
    destruct (IH (drop size (b :: p))) as [H1 H2]; [cbn in *; lia|].
    cbn [length] in *. lia.
Qed.

Lemma runes_fuel_ascii (fuel : nat) (p : list Z) :
  (length p <= fuel)%nat -> Forall (fun b => b < 128) p ->
  length (utf8.runes_fuel fuel p) = length p.
Proof.
  revert p. induction fuel as [|fuel IH]; intros p Hp Hascii.
  - destruct p; cbn in *; [reflexivity|lia].
  - destruct p as [|b p]; [reflexivity|].
    cbn [utf8.runes_fuel]. inversion Hascii as [|? ? Hb Hrest]; subst.
    assert (Hdec : utf8.DecodeRune (b :: p) = (b, 1%nat)).
    { unfold utf8.DecodeRune, utf8.RuneSelf.
      destruct (Z.ltb_spec b 128); [reflexivity|lia]. }
    rewrite Hdec. cbn [drop length]. rewrite drop_0. f_equal.
    apply IH; [cbn in Hp; lia|exact Hrest].
Qed.

(** X16. The length of a key is counted in characters, not in bytes: the
    key passes exactly when its number of runes lies within the bounds that
    are set; that number is at most the number of bytes and at least a
    quarter of it, and for an ASCII key it is the number of bytes. *)
Theorem key_length_counts_characters (vld : keyvalidator.LengthKeyValidator)
        (k : string) (keyNode : yaml.Node) (path : string)
        (ctx : ValidationContext) :
  stopped ctx = false ->
  (keyvalidator.LengthKeyValidator_ValidateKey vld k keyNode path ctx = ctx
   <-> withinBounds (keyvalidator.Min vld) (keyvalidator.Max vld)
                    (keyvalidator.RuneCountInString k))
  /\ keyvalidator.RuneCountInString k <= len k
  /\ len k <= 4 * keyvalidator.RuneCountInString k
  /\ (Forall (fun b => b < 128) (bytes_of k) ->
      keyvalidator.RuneCountInString k = len k).
Proof.
  intros Hs. split.
  - unfold keyvalidator.LengthKeyValidator_ValidateKey.
    exact (bounds_check_iff ctx (keyvalidator.RuneCountInString k)
             (keyvalidator.Min vld) (keyvalidator.Max vld)
             (fun min => keyvalidator.keyLengthError k keyNode path "key too short"
                           (">= " +:+ fmt.d min +:+ " characters"))
             (fun max => keyvalidator.keyLengthError k keyNode path "key too long"
                           ("<= " +:+ fmt.d max +:+ " characters"))
             (fun _ => eq_refl) (fun _ => eq_refl) Hs).
  - unfold keyvalidator.RuneCountInString, utf8.runes.
    destruct (runes_fuel_length (length (bytes_of k)) (bytes_of k) (le_n _))
      as [H1 H2].
    rewrite <- bytes_of_length. repeat split; try lia.
    intros Hascii.
    now rewrite (runes_fuel_ascii _ _ (le_n _) Hascii).
Qed.

Lemma checkDefaults_fold (node : yaml.Node) (path : string)
      (foundKeys : gmap string yaml.Node) (l : list (string * FieldSchema))
      (ctx : ValidationContext) :
  stopped ctx = false ->
  let ctx' :=
    foldl (fun ctx (entry : string * FieldSchema) =>
             let '(k, fieldSchema) := entry in
             match Default fieldSchema with
             | Some dflt =>
               if negb (present foundKeys k) && negb (Required fieldSchema) then
                 AddError ctx
                   {| Level := LevelWarning; Path := cleanPath (joinPath path k);
                      Line := yaml.Line node; Column := yaml.Column node;
                      Message := "field " +:+ strconv_Quote k
                                 +:+ " not set, will use default: "
                                 +:+ fmt_any dflt;
                      Got := ""; Expected := "" |}
               else ctx
             | None => ctx
             end) ctx l in
  errors (collector ctx') = errors (collector ctx)
  /\ warnings (collector ctx')
     = warnings (collector ctx)
       ++ map (defaultWarning node path) (omap (usedDefault foundKeys) l)
  /\ stopped ctx' = false.
Proof.
  revert ctx. induction l as [|[k fs] l IH]; intros ctx Hs.
  - cbn. rewrite app_nil_r. auto.
  - cbn [foldl omap list_omap]. unfold usedDefault at 1. cbn [fst snd].
    destruct (Default fs) as [dflt|]; [|now apply IH].
    destruct (negb (present foundKeys k) && negb (Required fs));
      [|now apply IH].
    match goal with
    | |- context [AddError ctx ?e] =>
      change e with (defaultWarning node path (k, dflt))
    end.
    destruct (AddError_warning ctx (defaultWarning node path (k, dflt)) Hs eq_refl)
      as (He & Hw & Hst).
    destruct (IH (AddError ctx (defaultWarning node path (k, dflt))) Hst)
      as (IHe & IHw & IHs).
    cbv zeta. rewrite IHe, IHw, He, Hw. cbn [map].
    rewrite <- app_assoc. auto.
Qed.

(** X17. Defaults never make a document fail: [checkDefaults] adds no
    error and does not stop the run; what it adds are the warnings, in some
    order, of the keys that have a default, are absent and are not
    required, each at the position of the mapping. *)
Theorem defaults_only_warn (node : yaml.Node) (schema : FieldSchema)
        (path : string) (foundKeys : gmap string yaml.Node)
        (ctx : ValidationContext) :
  let ctx' := checkDefaults node schema path foundKeys ctx in
  errors (collector ctx') = errors (collector ctx)
  /\ stopped ctx' = stopped ctx
  /\ (stopped ctx = false ->
      exists added,
        warnings (collector ctx') = warnings (collector ctx) ++ added
        /\ Permutation added
             (map (defaultWarning node path)
                  (omap (usedDefault foundKeys)
                        (map_to_list (AllowedKeys schema))))).
Proof.
  intros ctx'. destruct (stopped ctx) eqn:Hs.
  - assert (Hsame : ctx' = ctx).
    { destruct (checkDefaults_via node schema path foundKeys ctx) as [ds Hds].
      subst ctx'. rewrite Hds. now apply foldl_AddError_when_stopped. }
    rewrite Hsame. repeat split; auto. discriminate.
  - destruct (checkDefaults_fold node path foundKeys
                (map_range (AllowedKeys schema)) ctx Hs) as (He & Hw & Hst).
    fold (checkDefaults node schema path foundKeys ctx) in He, Hw, Hst.
    fold ctx' in He, Hw, Hst.
    split; [exact He|]. split; [exact Hst|]. intros _.
    eexists. split; [exact Hw|].
    apply Permutation_map, omap_Permutation, map_range_perm.
Qed.

(** X18. [AnyOf] asks for one whole group: the check passes exactly when
    no group is listed or all keys of some group are present (a group
    without keys is always satisfied); otherwise it records one error, at
    the position of the mapping. *)
Theorem any_of_requires_a_whole_group (node : yaml.Node) (schema : FieldSchema)
        (path : string) (foundKeys : gmap string yaml.Node)
        (ctx : ValidationContext) :
  stopped ctx = false ->
  let ctx' := checkAnyOf node schema path foundKeys ctx in
  (ctx' = ctx <->
   AnyOf schema = []
   \/ exists group, In group (AnyOf schema) /\ groupSatisfied foundKeys group)
  /\ (ctx' <> ctx ->
      exists e, recordsOneError ctx ctx' e
                /\ Line e = yaml.Line node /\ Column e = yaml.Column node).
Proof.
  intros Hs ctx'. subst ctx'. unfold checkAnyOf.
  assert (Hsat : existsb (fun group => forallb (present foundKeys) group)
                         (AnyOf schema) = true
                 <-> exists group, In group (AnyOf schema)
                                   /\ groupSatisfied foundKeys group).
  { rewrite existsb_exists. split; intros (g & Hin & Hg); exists g;
      (split; [exact Hin|]).
    - intros k Hk. rewrite forallb_forall in Hg. specialize (Hg k Hk).
      unfold present in Hg. destruct (foundKeys !! k); [eauto|discriminate].
    - apply forallb_forall. intros k Hk. destruct (Hg k Hk) as [n Hn].
      unfold present. now rewrite Hn. }
  destruct (AnyOf schema) as [|g gs] eqn:Hany.
  - split; [tauto|congruence].
  - destruct (existsb _ (g :: gs)) eqn:Hex.
    + split; [|congruence]. split; [intros _; right; now apply Hsat|reflexivity].
    + split.
      * split.
        -- intros Heq. now apply AddError_changes in Heq.
        -- intros [Hnil|Hgroup]; [discriminate|].
           apply Hsat in Hgroup. discriminate.
      * intros _. eexists. split; [now apply AddError_recordsOneError|].
        split; reflexivity.
Qed.

(** X19. Mutually exclusive keys: with at most one of the listed keys
    present nothing is recorded; with two or more, one error is recorded,
    at the position of the key node of the second one present in the order
    of the list. The check never fails on a map filled by
    [validateMapping]. *)
Theorem mutually_exclusive_position (node : yaml.Node) (schema : FieldSchema)
        (path : string) (foundKeys keyNodes : gmap string yaml.Node)
        (ctx : ValidationContext) :
  stopped ctx = false ->
  keysInStep foundKeys keyNodes ->
  let found := foundAmong (MutuallyExclusive schema) foundKeys in
  ((length found <= 1)%nat ->
   checkMutuallyExclusive node schema path foundKeys keyNodes ctx = Done ctx)
  /\ (forall first second rest,
         found = first :: second :: rest ->
         exists keyNode e,
           keyNodes !! second = Some keyNode
           /\ checkMutuallyExclusive node schema path foundKeys keyNodes ctx
              = Done (AddError ctx e)
           /\ recordsOneError ctx (AddError ctx e) e
           /\ Line e = yaml.Line keyNode /\ Column e = yaml.Column keyNode).
Proof.
  intros Hs Hstep found. subst found. unfold checkMutuallyExclusive. split.
  - intros Hlen. destruct (MutuallyExclusive schema) as [|k ks]; [reflexivity|].
    destruct (foundAmong (k :: ks) foundKeys) as [|a [|b l]];
      [reflexivity|reflexivity|cbn in Hlen; lia].
  - intros first second rest Hfound.
    destruct (MutuallyExclusive schema) as [|k ks]; [discriminate|].
    rewrite Hfound.
    assert (Hin : In second (foundAmong (k :: ks) foundKeys))
      by (rewrite Hfound; right; now left).
    apply List.filter_In in Hin. destruct Hin as [_ Hpres].
    assert (Hsome : is_Some (foundKeys !! second)).
    { unfold present in Hpres. destruct (foundKeys !! second); [eauto|discriminate]. }
    destruct (Hstep second Hsome) as [keyNode Hkn]. rewrite Hkn.
    eexists keyNode, _. split; [reflexivity|]. split; [reflexivity|].
    split; [now apply AddError_recordsOneError|]. split; reflexivity.
Qed.

Lemma take_str_bytes (n : nat) (s : string) :
  take_str n s = string_of_bytes (take n (bytes_of s)).
Proof.
  revert n. induction s as [|c s IH]; intros [|n]; try reflexivity.
  cbn [take_str]. rewrite IH. unfold string_of_bytes, bytes_of.
  cbn [list_ascii_of_string map take string_of_list_ascii]. f_equal.
  unfold chr, ord. rewrite N2Z.id. symmetry. apply ascii_N_embedding.
Qed.

Lemma findSchemeEnd_of_scheme (s : string) (scheme rest : list Z) :
  validScheme scheme = true ->
  bytes_of s = scheme ++ schemeSeparator ++ rest ->
  valuevalidator.url.findSchemeEnd s = Z.of_nat (length scheme)
  /\ (0 < length scheme)%nat.
Proof.
  unfold valuevalidator.url.findSchemeEnd. intros Hvalid ->.
  destruct scheme as [|c scheme]; [discriminate|]. cbn in Hvalid.
  apply andb_true_iff in Hvalid as [Hc Hall].
  cbn [app valuevalidator.url.findSchemeEnd_loop].
  assert (Hc' : valuevalidator.url.isLetter c
                || valuevalidator.url.isSchemeExtra c = true)
    by (rewrite Hc; reflexivity).
  rewrite (scheme_byte_not_colon c Hc'), Hc. cbn [orb negb].
  rewrite findSchemeEnd_loop_complete by (auto; lia).
  cbn [length]. lia.
Qed.

(** X20. The URL validator on a value that begins with a scheme and
    [://]: with no scheme listed every scheme passes; otherwise the value
    passes exactly when its scheme is one of the listed ones, letter for
    letter (the comparison does not fold case). A value without a scheme
    passes exactly when no scheme is required, whatever schemes are
    listed. *)
Theorem url_scheme_must_be_listed (vld : valuevalidator.url.URLValidator)
        (node : yaml.Node) (path : string) (ctx : ValidationContext) :
  stopped ctx = false ->
  (forall scheme rest,
      validScheme scheme = true ->
      bytes_of (yaml.Value node) = scheme ++ schemeSeparator ++ rest ->
      (valuevalidator.url.URLValidator_Validate vld node path ctx = ctx
       <-> valuevalidator.url.AllowedSchemes vld = []
           \/ In (string_of_bytes scheme) (valuevalidator.url.AllowedSchemes vld)))
  /\ (valuevalidator.url.findSchemeEnd (yaml.Value node) <= 0 ->
      (valuevalidator.url.URLValidator_Validate vld node path ctx = ctx
       <-> valuevalidator.url.RequireScheme vld = false)).
Proof.
  intros Hs. split.
  - intros scheme rest Hvalid Hbytes.
    destruct (findSchemeEnd_of_scheme _ scheme rest Hvalid Hbytes) as [Hidx Hpos].
    unfold valuevalidator.url.URLValidator_Validate. cbv zeta. rewrite Hidx.
    replace (0 <? Z.of_nat (length scheme)) with true
      by (symmetry; apply Z.ltb_lt; lia).
    rewrite andb_false_r, andb_true_l, Nat2Z.id.
    rewrite take_str_bytes, Hbytes, take_app_length.
    destruct (valuevalidator.url.AllowedSchemes vld) as [|a l] eqn:Hal.
    + cbn. tauto.
    + cbn [length Nat.ltb Nat.leb].
      destruct (existsb _ (a :: l)) eqn:Hex.
      * split; [intros _; right|reflexivity].
        apply existsb_exists in Hex. destruct Hex as (x & Hin & Heq).
        apply str_eqb_eq in Heq. now subst x.
      * split; [intros Heq; now apply AddError_changes in Heq|].
        intros [Hnil|Hin]; [discriminate|].
        assert (Hex' : existsb (fun s => str_eqb (string_of_bytes scheme) s)
                               (a :: l) = true).
        { apply existsb_exists. exists (string_of_bytes scheme).
          split; [exact Hin|apply str_eqb_refl]. }
        rewrite Hex' in Hex. discriminate.
  - intros Hidx. unfold valuevalidator.url.URLValidator_Validate. cbv zeta.
    replace (0 <? valuevalidator.url.findSchemeEnd (yaml.Value node)) with false
      by (symmetry; apply Z.ltb_ge; lia).
    cbn [negb andb]. rewrite andb_true_r.
    destruct (valuevalidator.url.RequireScheme vld).
    + split; [intros Heq; now apply AddError_changes in Heq|discriminate].
    + tauto.
Qed.

Lemma foldl_AddError_errors (ctx : ValidationContext)
      (ds : list ValidationError) :
  stopped ctx = false -> StopOnFirst ctx = false ->
  Forall (fun e => Level e = LevelError) ds ->
  errors (collector (foldl AddError ctx ds)) = errors (collector ctx) ++ ds
  /\ warnings (collector (foldl AddError ctx ds)) = warnings (collector ctx).
Proof.
  revert ctx. induction ds as [|d ds IH]; intros ctx Hs Hf Hall.
  - cbn. now rewrite app_nil_r.
  - inversion Hall as [|? ? Hd Hds]; subst. cbn [foldl].
    destruct (AddError_error ctx d Hs Hd) as (He & Hw & Hst).
    destruct (AddError_keeps_settings ctx d) as (Hsf & _).
    destruct (IH (AddError ctx d)) as [IHe IHw];
      [congruence|congruence|exact Hds|].
    rewrite IHe, IHw, He, Hw, <- app_assoc. auto.
Qed.

Lemma kind_eqb_eq (a b : yaml.NodeKind) : yaml.kind_eqb a b = true <-> a = b.
Proof. destruct a, b; cbn; split; congruence. Qed.

(** X21. [checkConditions] reports, rule by rule in the order of the
    schema, the absent keys of [ThenRequired] at the position of the value
    of the condition field and then the present keys of [ThenForbidden] at
    the position of their own key; all are errors. A rule whose field is
    absent, is not a scalar (an alias to a scalar included) or has another
    value reports nothing. *)
Theorem conditions_report (node : yaml.Node) (schema : FieldSchema)
        (path : string) (foundKeys keyNodes : gmap string yaml.Node)
        (ctx : ValidationContext) :
  let reports :=
    concat (map (conditionReports path foundKeys keyNodes) (Conditions schema)) in
  let ctx' := checkConditions node schema path foundKeys keyNodes ctx in
  ctx' = foldl AddError ctx reports
  /\ Forall (fun e => Level e = LevelError) reports
  /\ (stopped ctx = false -> StopOnFirst ctx = false ->
      errors (collector ctx') = errors (collector ctx) ++ reports
      /\ warnings (collector ctx') = warnings (collector ctx))
  /\ (forall rule, ~ ruleApplies foundKeys rule ->
                   conditionReports path foundKeys keyNodes rule = [])
  /\ (forall rule condNode,
         foundKeys !! ConditionField rule = Some condNode ->
         yaml.Kind condNode = yaml.AliasNode ->
         conditionReports path foundKeys keyNodes rule = []).
Proof.
  intros reports ctx'.
  assert (Hrun : ctx' = foldl AddError ctx reports).
  { subst ctx' reports. unfold checkConditions.
    generalize (Conditions schema) as rules. intros rules. revert ctx.
    induction rules as [|rule rules IH]; intros ctx; [reflexivity|].
    cbn [foldl map concat]. rewrite foldl_app, IH. f_equal.
    unfold conditionReports.
    destruct (foundKeys !! ConditionField rule) as [condNode|]; [|reflexivity].
    destruct (yaml.kind_eqb (yaml.Kind condNode) yaml.ScalarNode);
      [|reflexivity].
    destruct (str_eqb (yaml.Value condNode) (ConditionValue rule));
      [|reflexivity].
    cbn [negb andb]. rewrite foldl_app.
    match goal with
    | |- foldl ?g (foldl ?h ctx _) _ = _ =>
      assert (H1 : forall l c,
                 foldl h c l
                 = foldl AddError c
                     (map (requiredWhen path rule condNode)
                          (List.filter (fun k => negb (present foundKeys k)) l)));
      [|assert (H2 : forall l c,
                   foldl g c l
                   = foldl AddError c
                       (omap (fun k => forbiddenWhen path rule k <$> keyNodes !! k)
                             l));
        [|rewrite H1, H2; reflexivity]]
    end.
    - induction l as [|k l IHl]; intros c; [reflexivity|].
      cbn [foldl List.filter]. destruct (present foundKeys k); cbn [negb];
        [apply IHl|]. cbn [map foldl]. apply IHl.
    - induction l as [|k l IHl]; intros c; [reflexivity|].
      cbn [foldl omap list_omap]. destruct (keyNodes !! k) as [kn|];
        cbn [fmap option_fmap option_map]; [|apply IHl].
      cbn [foldl]. apply IHl. }
  assert (Hlevels : Forall (fun e => Level e = LevelError) reports).
  { subst reports. apply Forall_concat, Forall_map, Forall_forall.
    intros rule _. unfold conditionReports.
    destruct (foundKeys !! ConditionField rule) as [condNode|]; [|constructor].
    destruct (_ && _); [|constructor]. apply Forall_app. split.
    - apply Forall_map, Forall_forall. intros k _. reflexivity.
    - apply Forall_forall. intros e He. apply list_elem_of_omap in He.
      destruct He as (k & _ & Hk). destruct (keyNodes !! k); [|discriminate].
      cbn in Hk. injection Hk as <-. reflexivity. }
  split; [exact Hrun|]. split; [exact Hlevels|]. split; [|split].
  - intros Hs Hf. rewrite Hrun. now apply foldl_AddError_errors.
  - intros rule Hnot. unfold conditionReports.
    destruct (foundKeys !! ConditionField rule) as [condNode|] eqn:Hc;
      [|reflexivity].
    destruct (yaml.kind_eqb (yaml.Kind condNode) yaml.ScalarNode) eqn:Hk;
      [|reflexivity].
    destruct (str_eqb (yaml.Value condNode) (ConditionValue rule)) eqn:Hv;
      [|reflexivity].
    exfalso. apply Hnot. exists condNode.
    split; [exact Hc|]. split; [now apply kind_eqb_eq|now apply str_eqb_eq].
  - intros rule condNode Hc Hk. unfold conditionReports. rewrite Hc, Hk.
    reflexivity.
Qed.

(** X22. A deprecated field always gets its warning: for a schema with a
    deprecation text every finished validation of a node (not an alias) on
    a run that is not stopped records the deprecation warning, at the
    position of the node, before anything else it records, whether or not
    the value then passes the type check and the validators. *)
Theorem deprecated_field_is_always_warned (fuel : nat) (node : yaml.Node)
        (schema : FieldSchema) (path : string) (ctx ctx' : ValidationContext) :
  reportsViaAddError schema ->
  stopped ctx = false ->
  Deprecated schema <> "" ->
  yaml.Kind node <> yaml.AliasNode ->
  validateNode fuel node (Some schema) path ctx = Done ctx' ->
  (exists rest,
      warnings (collector ctx')
      = warnings (collector ctx) ++ deprecatedWarning node schema path :: rest)
  /\ Line (deprecatedWarning node schema path) = yaml.Line node
  /\ Column (deprecatedWarning node schema path) = yaml.Column node.
Proof.
  intros Hschema Hs Hdep Hkind H. split; [|split; reflexivity].
  destruct fuel as [|fuel]; cbn in H; unfold IsStopped in H; rewrite Hs in H;
    [discriminate|].
  inversion Hschema as [s Hvs _ _ _ _ Heq]. subst s.
  destruct (match yaml.Kind node with
            | yaml.AliasNode => _ | _ => _ end) as [node'|] eqn:Eres;
    [|destruct (yaml.Kind node); congruence].
  assert (Hnode : node' = node) by (destruct (yaml.Kind node); congruence).
  subst node'. clear Eres.
  apply str_eqb_neq in Hdep. rewrite Hdep in H. cbn [negb] in H.
  set (w := deprecatedWarning node schema path) in *.
  destruct (AddError_warning ctx w Hs eq_refl) as (_ & Hw & _).
  assert (Hvia : viaAddError (AddError ctx w) ctx').
  { pose proof (checkTypeWithSchema_via node schema path (AddError ctx w)) as H2.
    destruct (checkTypeWithSchema node schema path (AddError ctx w)) as [ok c2].
    cbn in H2. eapply viaAddError_trans; [exact H2|].
    destruct ok; cbn in H; [|injection H as <-; apply viaAddError_refl].
    destruct (match yaml.Kind node with
              | yaml.MappingNode => _ | _ => _ end) as [c3| |] eqn:E3;
      cbn in H; try discriminate.
    injection H as <-.
    assert (H3 : viaAddError c2 c3).
    { destruct (yaml.Kind node);
        try (injection E3 as <-; apply viaAddError_refl).
      - eapply validateSequence_via; eauto using validateNode_via.
      - eapply validateMapping_via; eauto using validateNode_via. }
    eapply viaAddError_trans; [exact H3|]. now apply runValidators_via. }
  destruct (viaAddError_frame _ _ Hvia) as (_ & [rest Hrest] & _).
  exists rest. rewrite Hrest, Hw, <- app_assoc. reflexivity.
Qed.

End MoreChecks.

(** ** The example schemas report through [AddError] *)

Section ExampleFacts.
Context {lib : GoLib}.

Lemma emptySchema_reports (t : NodeType) : reportsViaAddError (emptySchema t).
Proof.
  constructor; cbn.
  - intros v [].
  - intros kv [].
  - intros k sub Hk. rewrite lookup_empty in Hk. discriminate.
  - discriminate.
  - discriminate.
Qed.

Lemma intRangeSchema_reports : reportsViaAddError intRangeSchema.
Proof.
  constructor; cbn.
  - intros v [<-|[]] node path ctx. apply Range_via.
  - intros kv [].
  - intros k sub Hk. rewrite lookup_empty in Hk. discriminate.
  - discriminate.
  - discriminate.
Qed.

Lemma deprecatedString_reports : reportsViaAddError deprecatedString.
Proof.
  constructor; cbn.
  - intros v [].
  - intros kv [].
  - intros k sub Hk. rewrite lookup_empty in Hk. discriminate.
  - discriminate.
  - discriminate.
Qed.

Lemma keysInStep_AB : keysInStep foundAB keyNodesAB.
Proof.
  intros k. unfold foundAB, keyNodesAB.
  destruct (decide (k = "a")) as [->|Ha]; [rewrite !lookup_insert_eq; eauto|].
  rewrite !(lookup_insert_ne _ "a") by congruence.
  destruct (decide (k = "b")) as [->|Hb]; [rewrite !lookup_insert_eq; eauto|].
  rewrite !(lookup_insert_ne _ "b") by congruence. auto.
Qed.

End ExampleFacts.

(* ===================================================================== *)
(** * The theorems at concrete inputs *)
(* ===================================================================== *)

Section Witnesses.
#[local] Existing Instance exampleLib.

Lemma checkTypeWithSchema_witness :
  let node := scalar "!!float" "1.5" 1 1 in
  let schema := emptySchema TypeInt in
  let ctx := NewValidationContext in
  stopped ctx = false
  /\ (checkTypeWithSchema node schema "port" ctx).1 = false.
Proof.
  intros node schema ctx. split; [reflexivity|].
  pose proof (checkTypeWithSchema_spec node schema "port" ctx eq_refl) as H.
  destruct (checkTypeWithSchema node schema "port" ctx) as [ok ctx'].
  destruct H as (_ & _ & _ & _ & H5). cbn. apply H5; reflexivity.
Defined.

Lemma merge_expansion_witness :
  expandMappingWithMerges mergeExample = expansionSpec mergeExample.
Proof.
  exact (proj1 (merge_expansion "!!map" "" None
                  [scalar "!!merge" "<<" 3 3; aliasTo (Some refTarget) 3 7;
                   scalar "!!str" "host" 4 3; scalar "!!str" "x" 4 9] 3 3)).
Defined.

Lemma exactly_one_of_position_witness :
  let node := mapping [] 1 1 in
  let ctx := NewValidationContext in
  exists keyNode e,
    keyNodesAB !! "b" = Some keyNode
    /\ checkExactlyOneOf node exactlyOneSchema "" foundAB keyNodesAB ctx
       = Done (AddError ctx e)
    /\ recordsOneError ctx (AddError ctx e) e
    /\ Line e = yaml.Line keyNode /\ Column e = yaml.Column keyNode.
Proof.
  intros node ctx.
  assert (Hlisted : ExactlyOneOf exactlyOneSchema <> []) by discriminate.
  assert (Hrun : stopped ctx = false) by reflexivity.
  assert (Hsync : keysInStep foundAB keyNodesAB).
  { intros k. unfold foundAB, keyNodesAB.
    destruct (decide (k = "a")) as [->|Ha]; [rewrite !lookup_insert_eq; eauto|].
    rewrite !(lookup_insert_ne _ "a") by congruence.
    destruct (decide (k = "b")) as [->|Hb]; [rewrite !lookup_insert_eq; eauto|].
    rewrite !(lookup_insert_ne _ "b") by congruence. auto. }
  destruct (exactly_one_of_position node exactlyOneSchema "" foundAB keyNodesAB
              ctx Hlisted Hrun Hsync) as (_ & Htwo & _).
  apply (Htwo "a" "b" []). vm_compute. reflexivity.
Defined.

Lemma sort_by_position_twice_witness :
  let r := resultOf [errorAtLine3] [warningAtLine1] in
  let sorted := {| Collector := rebuild [warningAtLine1; errorAtLine3];
                   ResultSourceLines := [] |} in
  let out := formatItems [] [errorAtLine3; warningAtLine1] in
  (SortByPosition r sorted /\ SortByPosition sorted sorted
   /\ FormatAll r false out)
  /\ Permutation (All (Collector r)) (All (Collector sorted))
  /\ (List.NoDup (map positionKey (All (Collector r))) -> sorted = sorted).
Proof.
  intros r sorted out.
  assert (Hs : StronglySorted notAfter [warningAtLine1; errorAtLine3])
    by (repeat constructor).
  assert (H1 : SortByPosition r sorted).
  { apply (SortByPosition_intro r [warningAtLine1; errorAtLine3]).
    split; [apply perm_swap|exact Hs]. }
  assert (H2 : SortByPosition sorted sorted).
  { apply (SortByPosition_intro sorted [warningAtLine1; errorAtLine3]).
    split; [apply perm_swap|exact Hs]. }
  assert (F : FormatAll r false out) by apply FormatAll_insertion.
  split; [auto|].
  destruct (sort_by_position_twice r sorted sorted out out H1 H2 F F)
    as (_ & Hp & _ & _ & _ & _ & Hid).
  split; [exact Hp|exact Hid].
Defined.

Lemma int_literals_in_range_witness :
  let node := scalar "" "0x2A" 1 1 in
  let ctx := NewValidationContext in
  inferType node ctx = TypeInt
  /\ validateNode 1 node (Some intRangeSchema) "port" ctx = Done ctx
  /\ valuevalidator.parseYAMLNumber (scalar "" "052" 1 1)
     = Some (strconv.float64_of_int 52).
Proof.
  intros node ctx.
  apply (int_literals_in_range 0 node intRangeSchema "port" ctx);
    [reflexivity | reflexivity | simpl; auto | reflexivity | reflexivity
     | reflexivity | reflexivity].
Defined.

Lemma unknown_key_policy_witness :
  let schema := emptySchema TypeMap in
  let ctx := NewValidationContext in
  let report := unknownKeyError LevelWarning "kind" (key kindPair) (value kindPair) in
  exists st',
    validatePair (validateNode 1) schema "" kindPair emptyMapState = Done st'
    /\ recordsOneWarning ctx (ms_ctx st') report.
Proof.
  intros schema ctx report.
  destruct (unknown_key_policy (validateNode 1) schema "" kindPair emptyMapState)
    as (st' & Hrun & Hpolicy & _); [reflexivity | reflexivity | reflexivity |].
  exists st'. split; [exact Hrun|exact Hpolicy].
Defined.

Lemma validate_nil_schema_noop_witness :
  Forall (fun d => exists root, d = yaml.DecodeOk root) (yaml_Decode "kind: x")
  /\ exists r,
       ValidateBytes 0 (NewValidator None) "kind: x" = Done r
       /\ errors (Collector r) = []
       /\ warnings (Collector r) = []
       /\ ValidationResult_HasErrors r = false.
Proof.
  assert (Hdocs : Forall (fun d => exists root, d = yaml.DecodeOk root)
                         (yaml_Decode "kind: x"))
    by (repeat constructor; eexists; reflexivity).
  split; [exact Hdocs|].
  destruct validate_nil_schema_noop as [_ Hbytes].
  exact (Hbytes 0%nat "kind: x" Hdocs).
Defined.

Lemma merge_of_non_map_is_dropped_witness :
  let without := mapping [scalar "!!str" "host" 4 3; scalar "!!str" "x" 4 9] 3 3 in
  extractMergePairs (scalar "!!int" "5" 3 7) = Done []
  /\ expandMappingWithMerges scalarMergeExample = expandMappingWithMerges without
  /\ validateMapping (validateNode 1) scalarMergeExample (emptySchema TypeMap) ""
                     NewValidationContext
     = validateMapping (validateNode 1) without (emptySchema TypeMap) ""
                       NewValidationContext.
Proof.
  intros without.
  apply (merge_of_non_map_is_dropped (validateNode 1) (emptySchema TypeMap) ""
           NewValidationContext "!!map" "" None 3 3 []
           [scalar "!!str" "host" 4 3; scalar "!!str" "x" 4 9]
           (scalar "!!merge" "<<" 3 3) (scalar "!!int" "5" 3 7));
    [reflexivity | reflexivity | left; reflexivity].
Defined.

Lemma validateNode_appends_only_witness :
  let node := scalar "" "500" 1 1 in
  let ctx := NewValidationContext in
  exists ctx',
    validateNode 1 node (Some intRangeSchema) "port" ctx = Done ctx'
    /\ extends (errors (collector ctx)) (errors (collector ctx'))
    /\ StopOnFirst ctx' = StopOnFirst ctx.
Proof.
  intros node ctx. eexists. split; [vm_compute; reflexivity|].
  match goal with
  | |- context [extends _ (errors (collector ?c))] =>
    destruct (validateNode_appends_only 1 node intRangeSchema "port" ctx c
                intRangeSchema_reports)
      as (He & _ & _ & Hf & _); [vm_compute; reflexivity|]
  end.
  split; [exact He|exact Hf].
Defined.

Lemma stop_on_first_run_has_at_most_one_error_witness :
  let v := NewValidator (Some (emptySchema TypeMap)) in
  exists r,
    ValidateWithOptions 2 v "kind: x" strictStopOnFirst = Done r
    /\ (length (errors (Collector r)) <= 1)%nat.
Proof.
  intros v. eexists. split; [vm_compute; reflexivity|].
  apply (stop_on_first_run_has_at_most_one_error 2 v "kind: x" strictStopOnFirst);
    [exact (emptySchema_reports TypeMap) | reflexivity | reflexivity
     | vm_compute; reflexivity].
Defined.

Lemma range_accepts_nan_witness :
  let vld := {| valuevalidator.Min := Some (strconv.float64_of_int 0);
                valuevalidator.Max := Some (strconv.float64_of_int 100) |} in
  valuevalidator.RangeValidator_Validate vld (scalar "!!float" ".nan" 1 1) "p"
                                         NewValidationContext
  = NewValidationContext.
Proof.
  intros vld.
  apply (range_accepts_nan vld (scalar "!!float" ".nan" 1 1) "p"
           NewValidationContext).
  vm_compute. reflexivity.
Defined.

Lemma enum_accepts_exactly_the_allowed_witness :
  let vld := {| valuevalidator.enum.Allowed := ["dev"; "prod"];
                valuevalidator.enum.Message_ := "" |} in
  let node := scalar "!!str" "test" 1 6 in
  let ctx := NewValidationContext in
  let ctx' := valuevalidator.enum.EnumValidator_Validate vld node "env" ctx in
  (ctx' = ctx <-> In "test" ["dev"; "prod"])
  /\ (~ In "test" ["dev"; "prod"] ->
      exists e, recordsOneError ctx ctx' e
                /\ Got e = "test"
                /\ Line e = 1 /\ Column e = 6).
Proof.
  intros vld node ctx.
  exact (enum_accepts_exactly_the_allowed vld node "env" ctx eq_refl).
Defined.

Lemma non_empty_rejects_exactly_the_empty_witness :
  let node := scalar "!!str" "" 1 7 in
  let ctx := NewValidationContext in
  let ctx' := valuevalidator.nonempty.NonEmptyValidator_Validate node "name" ctx in
  (emptyNode node ->
   recordsOneError ctx ctx' (valuevalidator.nonempty.emptyError node "name"))
  /\ (~ emptyNode node -> ctx' = ctx)
  /\ (yaml.Kind node = yaml.AliasNode -> ctx' = ctx).
Proof.
  intros node ctx.
  exact (non_empty_rejects_exactly_the_empty node "name" ctx eq_refl).
Defined.

Lemma length_validator_bounds_witness :
  let vld := {| valuevalidator.length.Min := Some 2;
                valuevalidator.length.Max := Some 5 |} in
  let node := scalar "!!str" "abc" 1 7 in
  let ctx := NewValidationContext in
  valuevalidator.length.LengthValidator_Validate vld node "name" ctx = ctx
  <-> withinBounds (Some 2) (Some 5) (valuevalidator.length.measured node).
Proof.
  intros vld node ctx.
  exact (proj1 (length_validator_bounds vld node "name" ctx eq_refl)).
Defined.

Lemma findSchemeEnd_spec_witness :
  valuevalidator.url.findSchemeEnd "https://example.com" = 5.
Proof.
  exact (proj1 (findSchemeEnd_spec "https://example.com") httpsBytes hostBytes
               eq_refl eq_refl).
Defined.

Lemma forbidden_key_rejects_exactly_the_listed_witness :
  let vld := {| keyvalidator.Forbidden := ["password"];
                keyvalidator.Message_ := "" |} in
  let keyNode := scalar "!!str" "password" 2 3 in
  let ctx := NewValidationContext in
  let ctx' := keyvalidator.ForbiddenKeyValidator_ValidateKey
                vld "password" keyNode "db.password" ctx in
  (ctx' = ctx <-> ~ In "password" ["password"])
  /\ (In "password" ["password"] ->
      recordsOneError ctx ctx'
        (keyvalidator.forbiddenError vld "password" keyNode "db.password")
      /\ Line (keyvalidator.forbiddenError vld "password" keyNode "db.password") = 2
      /\ Column (keyvalidator.forbiddenError vld "password" keyNode "db.password")
         = 3).
Proof.
  intros vld keyNode ctx.
  exact (forbidden_key_rejects_exactly_the_listed vld "password" keyNode
           "db.password" ctx eq_refl).
Defined.

Lemma caret_within_rendered_line_witness :
  let '(rendered, vcol, renderedLen) := renderLineWithCaret abTabCd 4 in
  0 <= renderedLen
  /\ (4 <= 0 -> vcol = 0)
  /\ (0 < 4 -> 1 <= vcol <= renderedLen + 1).
Proof.
  exact (caret_within_rendered_line abTabCd 4).
Defined.

Lemma plain_line_renders_to_itself_witness :
  renderLineWithCaret "port: 80" 7 = ("port: 80", 7, 8).
Proof.
  apply (plain_line_renders_to_itself "port: 80" 7).
  vm_compute. repeat (constructor; [split; [split|]; congruence|]).
  constructor.
Defined.

Lemma required_fields_reported_witness :
  let node := mapping [] 1 1 in
  let schema := serverSchema "8080" in
  let ctx := NewValidationContext in
  let ctx' := checkRequiredFields node schema "" ∅ ctx in
  (exists added,
      errors (collector ctx') = errors (collector ctx) ++ added
      /\ Permutation added (map (missingRequired node "") (missingKeys schema ∅)))
  /\ warnings (collector ctx') = warnings (collector ctx)
  /\ (ctx' = ctx <->
      forall k fs, AllowedKeys schema !! k = Some fs -> Required fs = true ->
                   is_Some ((∅ : gmap string yaml.Node) !! k)).
Proof.
  intros node schema ctx.
  exact (required_fields_reported node schema "" ∅ ctx eq_refl eq_refl).
Defined.

Lemma sequence_item_count_bounds_witness :
  let ctx := NewValidationContext in
  validateSequence (validateNode 0) threeItems oneOrTwoItems "ports" ctx = Done ctx
  <-> withinBounds (Some 1) (Some 2) 3.
Proof.
  intros ctx.
  exact (sequence_item_count_bounds (validateNode 0) threeItems oneOrTwoItems
           "ports" ctx eq_refl eq_refl).
Defined.

Lemma alias_validates_as_its_target_witness :
  validateNode 2 (aliasTo (Some refTarget) 3 7) (Some (emptySchema TypeMap)) ""
               NewValidationContext
  = validateNode 2 refTarget (Some (emptySchema TypeMap)) "" NewValidationContext.
Proof.
  apply (alias_validates_as_its_target 2 (aliasTo (Some refTarget) 3 7) refTarget);
    [reflexivity | reflexivity | discriminate].
Defined.

Lemma key_length_counts_characters_witness :
  let vld := {| keyvalidator.Min := Some 1; keyvalidator.Max := Some 3 |} in
  let keyNode := scalar "!!str" "name" 1 1 in
  let ctx := NewValidationContext in
  (keyvalidator.LengthKeyValidator_ValidateKey vld "name" keyNode "name" ctx = ctx
   <-> withinBounds (Some 1) (Some 3) (keyvalidator.RuneCountInString "name"))
  /\ keyvalidator.RuneCountInString "name" <= len "name".
Proof.
  intros vld keyNode ctx.
  destruct (key_length_counts_characters vld "name" keyNode "name" ctx eq_refl)
    as (Hiff & Hle & _).
  split; [exact Hiff|exact Hle].
Defined.

Lemma defaults_only_warn_witness :
  let node := mapping [] 1 1 in
  let ctx := NewValidationContext in
  let schema := serverSchema "8080" in
  let ctx' := checkDefaults node schema "" ∅ ctx in
  errors (collector ctx') = errors (collector ctx)
  /\ stopped ctx' = stopped ctx.
Proof.
  intros node ctx schema.
  destruct (defaults_only_warn node schema "" ∅ ctx) as (He & Hs & _).
  split; [exact He|exact Hs].
Defined.

Lemma any_of_requires_a_whole_group_witness :
  let node := mapping [] 1 1 in
  let ctx := NewValidationContext in
  let ctx' := checkAnyOf node groupSchema "" foundAB ctx in
  ctx' = ctx <->
  AnyOf groupSchema = []
  \/ exists group, In group (AnyOf groupSchema) /\ groupSatisfied foundAB group.
Proof.
  intros node ctx.
  exact (proj1 (any_of_requires_a_whole_group node groupSchema "" foundAB ctx
                  eq_refl)).
Defined.

Lemma mutually_exclusive_position_witness :
  let node := mapping [] 1 1 in
  let ctx := NewValidationContext in
  exists keyNode e,
    keyNodesAB !! "b" = Some keyNode
    /\ checkMutuallyExclusive node groupSchema "" foundAB keyNodesAB ctx
       = Done (AddError ctx e)
    /\ recordsOneError ctx (AddError ctx e) e
    /\ Line e = yaml.Line keyNode /\ Column e = yaml.Column keyNode.
Proof.
  intros node ctx.
  destruct (mutually_exclusive_position node groupSchema "" foundAB keyNodesAB
              ctx eq_refl keysInStep_AB) as (_ & Htwo).
  apply (Htwo "a" "b" []). vm_compute. reflexivity.
Defined.

Lemma url_scheme_must_be_listed_witness :
  let vld := {| valuevalidator.url.RequireScheme := true;
                valuevalidator.url.AllowedSchemes := ["http"] |} in
  let node := scalar "!!str" "https://example.com" 1 6 in
  let ctx := NewValidationContext in
  valuevalidator.url.URLValidator_Validate vld node "url" ctx = ctx
  <-> valuevalidator.url.AllowedSchemes vld = []
      \/ In (string_of_bytes httpsBytes) (valuevalidator.url.AllowedSchemes vld).
Proof.
  intros vld node ctx.
  exact (proj1 (url_scheme_must_be_listed vld node "url" ctx eq_refl)
               httpsBytes hostBytes eq_refl eq_refl).
Defined.

Lemma conditions_report_witness :
  let node := mapping [] 1 1 in
  let ctx := NewValidationContext in
  let reports :=
    concat (map (conditionReports "" foundAB keyNodesAB) (Conditions groupSchema)) in
  let ctx' := checkConditions node groupSchema "" foundAB keyNodesAB ctx in
  ctx' = foldl AddError ctx reports
  /\ errors (collector ctx') = errors (collector ctx) ++ reports.
Proof.
  intros node ctx reports ctx'.
  destruct (conditions_report node groupSchema "" foundAB keyNodesAB ctx)
    as (Hrun & _ & Herrs & _).
  split; [exact Hrun|]. exact (proj1 (Herrs eq_refl eq_refl)).
Defined.

Lemma deprecated_field_is_always_warned_witness :
  let node := scalar "!!int" "5" 2 8 in
  let ctx := NewValidationContext in
  exists ctx',
    validateNode 1 node (Some deprecatedString) "old" ctx = Done ctx'
    /\ exists rest,
         warnings (collector ctx')
         = warnings (collector ctx)
           ++ deprecatedWarning node deprecatedString "old" :: rest.
Proof.
  intros node ctx. eexists. split; [vm_compute; reflexivity|].
  match goal with
  | |- context [warnings (collector ?c) = _] =>
    destruct (deprecated_field_is_always_warned 1 node deprecatedString "old"
                ctx c deprecatedString_reports)
      as (Hw & _); [reflexivity | discriminate | discriminate
                    | vm_compute; reflexivity | exact Hw]
  end.
Defined.

End Witnesses.
